(** * VCFcomparator: a shallow embedding of [vcfcomparator.py]

    The development follows the layout of the Python module: the record
    type handed over by the VCF library, the interval utilities, the
    matcher, the record-pair class [Variant], the directional traversal
    [compareVCFs], the summary aggregator and the genome segmenter.
    Python exceptions are results of type [py]; dictionaries keyed by
    strings are [gmap string _]. *)

From Stdlib Require Import ZArith List String Ascii Bool Lia QArith.
From Stdlib Require Import DecimalString.
From stdpp Require Import base option list gmap strings.

Local Open Scope string_scope.
Local Open Scope list_scope.
Local Open Scope Z_scope.

(** ** Python results *)

Inductive exn : Type :=
| TypeError
| IndexError
| KeyError
| AttributeError
| ValueError
| AssertionError.

Inductive py (A : Type) : Type :=
| Ret (a : A)
| Raise (e : exn).
Arguments Ret {A} a.
Arguments Raise {A} e.

#[global] Instance py_ret : MRet py := fun A a => Ret a.

#[global] Instance py_bind : MBind py := fun A B k m =>
  match m with
  | Ret a => k a
  | Raise e => Raise e
  end.

#[global] Instance py_fmap : FMap py := fun A B f m =>
  match m with
  | Ret a => Ret (f a)
  | Raise e => Raise e
  end.

Definition py_assert (b : bool) : py unit :=
  if b then Ret tt else Raise AssertionError.

(** ** Values found in INFO and in per-sample call data *)

Inductive value : Type :=
| VInt (z : Z)
| VStr (s : string)
| VBool (b : bool)
| VInts (l : list Z)
| VStrs (l : list string).

#[global] Instance value_eq_dec : EqDecision value.
Proof. solve_decision. Defined.

(** Python truthiness, as used by [if rec.INFO.get('SOMATIC')]. *)
Definition truthy (v : value) : bool :=
  match v with
  | VInt z => negb (z =? 0)
  | VStr s => negb (String.eqb s "")
  | VBool b => b
  | VInts l => negb (Nat.eqb (List.length l) 0)
  | VStrs l => negb (Nat.eqb (List.length l) 0)
  end.

(** [str] of the values above. *)
Definition str_Z (z : Z) : string := NilZero.string_of_int (Z.to_int z).

Definition str_bool (b : bool) : string := if b then "True" else "False".

Definition py_join (sep : string) (l : list string) : string :=
  String.concat sep l.

Definition repr_str (s : string) : string := "'" +:+ s +:+ "'".

Definition str_list (l : list string) : string :=
  "[" +:+ py_join ", " l +:+ "]".

Definition str_value (v : value) : string :=
  match v with
  | VInt z => str_Z z
  | VStr s => s
  | VBool b => str_bool b
  | VInts l => str_list (List.map str_Z l)
  | VStrs l => str_list (List.map repr_str l)
  end.

Definition repr_value (v : value) : string :=
  match v with
  | VStr s => repr_str s
  | _ => str_value v
  end.

Definition str_opt {A : Type} (f : A -> string) (o : option A) : string :=
  match o with
  | Some a => f a
  | None => "None"
  end.

(** [str.upper()] on ASCII text. *)
Definition upper_ascii (c : ascii) : ascii :=
  let n := nat_of_ascii c in
  if (Nat.leb 97 n && Nat.leb n 122)%bool then ascii_of_nat (n - 32) else c.

Fixpoint upper (s : string) : string :=
  match s with
  | EmptyString => EmptyString
  | String c s' => String (upper_ascii c) (upper s')
  end.

(** ** The record of the VCF library

    [vcf._Record] is not part of this module; its attributes are the
    fields below.  An alternate allele is kept as its text, which is
    what the module reads through [str].  [QUAL] enters the identity
    key only and is kept as an integer.  [FILTER] is [None] for a
    missing filter column, the empty list for PASS.  [start], [end_]
    and the three kind tests are attributes computed by the library
    and are taken as given. *)

Record VcfRecord : Type := mkRecord {
  CHROM    : string;
  POS      : Z;
  ID       : option string;
  REF      : string;
  ALT      : list string;
  QUAL     : option Z;
  FILTER   : option (list string);
  INFO     : gmap string value;
  samples  : list (gmap string value);
  start    : Z;
  end_     : Z;
  is_snp   : bool;
  is_indel : bool;
  is_sv    : bool
}.

(** ** Interval utilities *)

(** The two flanks read from a [CIPOS]/[CIEND] entry: [len(...)] needs
    a sequence, a two-element one is unpacked through [map(abs, ...)],
    any other takes [abs] of its first element for both. *)
Definition ci_flanks (o : option value) : py (Z * Z) :=
  match o with
  | None => Ret (0, 0)
  | Some (VInts [a; b]) => Ret (Z.abs a, Z.abs b)
  | Some (VInts (a :: _)) => Ret (Z.abs a, Z.abs a)
  | Some (VInts []) => Raise IndexError
  | Some (VStrs []) => Raise IndexError
  | Some (VStr "") => Raise IndexError
  | Some _ => Raise TypeError
  end.

(** [rec.INFO.get('END')[0] + ciend_end], falling back on
    [rec.INFO.get('END') + ciend_end] when the subscript is a TypeError. *)
Definition end_plus (v : value) (ciend_end : Z) : py Z :=
  match v with
  | VInts (e :: _) => Ret (e + ciend_end)
  | VInts [] => Raise IndexError
  | VStrs [] => Raise IndexError
  | VStr "" => Raise IndexError
  | VInt e => Ret (e + ciend_end)
  | VBool b => Ret (Z.b2z b + ciend_end)
  | VStr _ => Raise TypeError
  | VStrs _ => Raise TypeError
  end.

Definition get_conf_interval (rec : VcfRecord) (w_indel : Z) : py (Z * Z) :=
  '(cipos_start, cipos_end) ← ci_flanks (INFO rec !! "CIPOS");
  '(ciend_start, ciend_end) ← ci_flanks (INFO rec !! "CIEND");
  let end0 := POS rec + 1 in
  end1 ← match INFO rec !! "END" with
         | Some v => end_plus v ciend_end
         | None => Ret (end0 + cipos_end)
         end;
  let '(cipos_start, end2) :=
    if is_indel rec then (cipos_start + w_indel, end1 + w_indel)
    else (cipos_start, end1) in
  Ret (POS rec - cipos_start, end2).

Definition get_overlap_coords (iv_a iv_b : Z * Z) : Z * Z :=
  if Z.min (snd iv_a) (snd iv_b) - Z.max (fst iv_a) (fst iv_b) >? 0
  then (Z.max (fst iv_a) (fst iv_b), Z.min (snd iv_a) (snd iv_b))
  else (0, 0).

(** ** Matcher *)

Definition is_upper (c : ascii) : bool :=
  let n := nat_of_ascii c in (Nat.leb 65 n && Nat.leb n 90)%bool.

(** [re.search('^[A-Z]' + b, alt)] for a bracket [b] *)
Definition re_upper_then (b : ascii) (alt : string) : bool :=
  match alt with
  | String c (String d _) => is_upper c && Ascii.eqb d b
  | _ => false
  end.

(** [re.search('^' + b, alt)] for a bracket [b] *)
Definition re_starts (b : ascii) (alt : string) : bool :=
  match alt with
  | String c _ => Ascii.eqb c b
  | EmptyString => false
  end.

Definition orientSV (alt : string) : string :=
  if re_upper_then "[" alt then "right_of_p_after_t"
  else if re_upper_then "]" alt then "left_of_p_after_t"
  else if re_starts "]" alt then "left_of_p_before_t"
  else if re_starts "[" alt then "right_of_p_before_t"
  else alt.

Definition vcfIntervalMatch (recA recB : VcfRecord) : py bool :=
  _ ← py_assert (bool_decide (INFO recA !! "SVTYPE" = INFO recB !! "SVTYPE"));
  iv_A ← get_conf_interval recA 0;
  iv_B ← get_conf_interval recB 0;
  let ol := get_overlap_coords iv_A iv_B in
  Ret (fst ol + snd ol >? 0).

(** [l[0]] *)
Definition first {A : Type} (l : list A) : py A :=
  match l with
  | x :: _ => Ret x
  | [] => Raise IndexError
  end.

Definition vcfVariantMatch (recA recB : VcfRecord) : py bool :=
  if (is_snp recA && is_snp recB)
     && ((POS recA =? POS recB) && bool_decide (REF recA = REF recB)
         && bool_decide (ALT recA = ALT recB))
  then Ret true
  else if (is_indel recA && is_indel recB)
     && (bool_decide (REF recA = REF recB) && bool_decide (ALT recA = ALT recB))
  then Ret true
  else if is_sv recA && is_sv recB
     && (bool_decide (INFO recA !! "SVTYPE" = INFO recB !! "SVTYPE")
         && bool_decide (INFO recB !! "SVTYPE" = Some (VStr "BND")))
  then
    altA ← first (ALT recA);
    let orientA := orientSV altA in
    altB ← first (ALT recB);
    let orientB := orientSV altB in
    if bool_decide (orientA = orientB)
    then m ← vcfIntervalMatch recA recB; Ret m
    else Ret false
  else Ret false.

(** ** Record pairs: class [Variant]

    Every pair is built by [SNV(recA, None)], [INDEL(recA, None)] or
    [SV(recA, None)] with a record read from the source collection, so
    [recA] is a record; [recB] and [recT] start as [None]. *)

Record Variant : Type := mkVariant {
  recA     : VcfRecord;
  recB     : option VcfRecord;
  recT     : option VcfRecord;
  altmatch : list VcfRecord
}.

Definition new_variant (vcf_recA : VcfRecord) : Variant :=
  {| recA := vcf_recA; recB := None; recT := None; altmatch := [] |}.

(** sets record B only if it is not already set *)
Definition set_left (self : Variant) (vcf_recB : VcfRecord) : Variant * bool :=
  match recB self with
  | None => ({| recA := recA self; recB := Some vcf_recB;
                recT := recT self; altmatch := altmatch self |}, true)
  | Some _ => (self, false)
  end.

Definition append_altmatch (self : Variant) (r : VcfRecord) : Variant :=
  {| recA := recA self; recB := recB self;
     recT := recT self; altmatch := altmatch self ++ [r] |}.

Definition set_recT (self : Variant) (r : VcfRecord) : Variant :=
  {| recA := recA self; recB := recB self;
     recT := Some r; altmatch := altmatch self |}.

Definition matched (self : Variant) : bool :=
  match recB self with
  | Some _ => true
  | None => false
  end.

Definition is_true (self : Variant) : bool :=
  match recT self with
  | Some _ => true
  | None => false
  end.

(** scoring function for intervals; the quotient is kept exact *)
Definition interval_score (self : Variant) : py Q :=
  iv_a ← get_conf_interval (recA self) 0;
  rB ← match recB self with Some r => Ret r | None => Raise AttributeError end;
  iv_b ← get_conf_interval rB 0;
  let ol_coords := get_overlap_coords iv_a iv_b in
  let ol_width := snd ol_coords - fst ol_coords in
  _ ← py_assert (ol_width >? 0);
  let len_a := snd iv_a - fst iv_a in
  let len_b := snd iv_b - fst iv_b in
  _ ← py_assert (len_a >? 0);
  _ ← py_assert (len_b >? 0);
  Ret (Qmake (2 * ol_width) (Z.to_pos (len_a + len_b))).

Definition somatic_in_format (rec : VcfRecord) : bool :=
  let SS := omap (fun calldata : gmap string value => calldata !! "SS")
                 (samples rec) in
  bool_decide (VStr "2" ∈ SS) || bool_decide (VInt 2 ∈ SS).

(** [str(rec.INFO.get('SS')).upper()] *)
Definition ss_upper (rec : VcfRecord) : string :=
  upper (str_opt str_value (INFO rec !! "SS")).

Definition info_truthy (rec : VcfRecord) (k : string) : bool :=
  match INFO rec !! k with
  | Some v => truthy v
  | None => false
  end.

Definition rec_somatic_ss (rec : VcfRecord) : bool :=
  bool_decide (ss_upper rec ∈ ["SOMATIC"; "2"]).

Definition recA_somatic (self : Variant) : bool :=
  if rec_somatic_ss (recA self) then true
  else if info_truthy (recA self) "SOMATIC" then
    if bool_decide (ss_upper (recA self) = "LOH") then false else true
  else if somatic_in_format (recA self) then true
  else false.

Definition recB_somatic (self : Variant) : bool :=
  if negb (matched self) then false
  else match recB self with
  | None => false
  | Some rB =>
      if rec_somatic_ss rB then true
      else if info_truthy rB "SOMATIC" then true
      else if somatic_in_format rB then true
      else false
  end.

Definition filter_empty (rec : VcfRecord) : bool :=
  match FILTER rec with
  | None => true
  | Some [] => true
  | Some (_ :: _) => false
  end.

Definition recA_pass (self : Variant) : bool :=
  if filter_empty (recA self) then true else false.

Definition recB_pass (self : Variant) : bool :=
  match recB self with
  | None => false
  | Some rB => if filter_empty rB then true else false
  end.

(** ** Directional comparator *)

(** stores the result of a one-way comparison vcfA --> vcfB: a
    dictionary from the type name to the pairs of that type.  Only
    ['SNV'] and ['INDEL'] are created by the constructor. *)
Record Comparison : Type := mkComparison {
  vartype : gmap string (list Variant)
}.

Definition Comparison_init : Comparison :=
  {| vartype := <["INDEL" := []]> (<["SNV" := []]> ∅) |}.

(** [self.vartype[vtype].append(variant)] *)
Definition vartype_append (cmp : Comparison) (vtype : string) (v : Variant)
  : py Comparison :=
  match vartype cmp !! vtype with
  | Some l => Ret {| vartype := <[vtype := l ++ [v]]> (vartype cmp) |}
  | None => Raise KeyError
  end.

(** A reader of the VCF library: [fetch(chrom, start, end)] gives the
    records of the region, or raises. *)
Record Reader : Type := mkReader {
  fetch : option string -> Z -> Z -> py (list VcfRecord)
}.

(** A tabix handle on the mask. *)
Record Mask : Type := mkMask {
  contigs : list string;
  mask_fetch : string -> Z -> Z -> py (list string)
}.

Definition str_dict (m : gmap string value) : string :=
  "{" +:+ py_join ", "
        (List.map (fun kv : string * value =>
                     repr_str (fst kv) +:+ ": " +:+ repr_value (snd kv))
                  (map_to_list m))
      +:+ "}".

(** makes a (hopefully) unique id for an SV record *)
Definition sv_uid (rec : VcfRecord) : string :=
  py_join ","
    [ CHROM rec; str_Z (POS rec); str_opt id (ID rec); REF rec;
      str_list (ALT rec); str_opt str_Z (QUAL rec);
      str_opt (fun l => str_list (List.map repr_str l)) (FILTER rec);
      str_dict (INFO rec) ].
#[global] Arguments sv_uid : simpl never.

(** A [for] loop inside [try: ... except:]: the body runs on the
    elements in order; the first exception ends the loop and leaves
    the state as it was before that iteration. *)
Fixpoint for_try {S A : Type} (body : S -> A -> py S) (s : S) (l : list A)
  : S * option exn :=
  match l with
  | [] => (s, None)
  | a :: l' =>
      match body s a with
      | Ret s' => for_try body s' l'
      | Raise e => (s, Some e)
      end
  end.

(** The state of the matching loop of one source record. *)
Record MatchState : Type := mkMatchState {
  ms_variant : Variant;
  ms_used    : gmap string VcfRecord;
  ms_match   : bool
}.

Definition match_body (recA0 : VcfRecord) (vtype : string)
    (st : MatchState) (rB : VcfRecord) : py MatchState :=
  m ← vcfVariantMatch recA0 rB;
  if (m : bool) then
    if ms_match st then
      Ret {| ms_variant := append_altmatch (ms_variant st) rB;
             ms_used := ms_used st; ms_match := ms_match st |}
    else
      _ ← py_assert (bool_decide (recB (ms_variant st) = None));
      if bool_decide (vtype ∈ ["INDEL"; "SV"; "CNV"])
         && bool_decide (is_Some (ms_used st !! sv_uid rB))
      then
        Ret {| ms_variant := append_altmatch (ms_variant st) rB;
               ms_used := ms_used st; ms_match := ms_match st |}
      else
        let '(v', ok) := set_left (ms_variant st) rB in
        if ok then
          Ret {| ms_variant := v';
                 ms_used := <[sv_uid rB := recA0]> (ms_used st);
                 ms_match := true |}
        else
          Ret {| ms_variant := v'; ms_used := ms_used st;
                 ms_match := ms_match st |}
  else Ret st.

Definition truth_body (recA0 : VcfRecord) (v : Variant) (rT : VcfRecord)
  : py Variant :=
  m ← vcfVariantMatch recA0 rT;
  if (m : bool) then Ret (set_recT v rT) else Ret v.

(** The type name and the widen chosen for a source record.  The last
    test of the source, [recA.ALT == 'CNV'], compares the list of
    alternate alleles with a string and never holds, so a record that
    is none of the three kinds has no type and is passed over. *)
Definition classify (recA0 : VcfRecord) (w_indel w_sv : Z)
  : option string * Z :=
  if is_snp recA0 then (Some "SNV", 0)
  else if is_indel recA0 then (Some "INDEL", w_indel)
  else if is_sv recA0 && bool_decide (INFO recA0 !! "SVTYPE" = Some (VStr "BND"))
  then (Some "SV", w_sv)
  else (None, 0).

Definition fetch_warning (chrom : string) (w_start w_end : Z) : string :=
  py_join " " ["warning: couldn't fetch from region:"; chrom;
               str_Z w_start; str_Z w_end; String "010" ""].

(** The traversal state: the comparison, the identity map of the
    target records already bound, and what was written to stderr. *)
Record RunState : Type := mkRunState {
  rs_cmp  : Comparison;
  rs_used : gmap string VcfRecord;
  rs_err  : list string
}.

(** The matching part of one iteration (the first [try] block). *)
Definition match_target (h_interval_vcfB : Reader) (recA0 : VcfRecord)
    (vtype : string) (w_start w_end : Z) (used : gmap string VcfRecord)
  : MatchState * option exn :=
  let st0 := {| ms_variant := new_variant recA0; ms_used := used;
                ms_match := false |} in
  match fetch h_interval_vcfB (Some (CHROM recA0)) w_start w_end with
  | Ret cands => for_try (match_body recA0 vtype) st0 cands
  | Raise e => (st0, Some e)
  end.

(** The truth part of one iteration (the second [try] block); the
    counter [n_missing_regions] of the source is local to the iteration
    and read nowhere. *)
Definition match_truth (truth : option Reader) (recA0 : VcfRecord)
    (w_start w_end : Z) (v : Variant) : Variant :=
  match truth with
  | None => v
  | Some t =>
      match fetch t (Some (CHROM recA0)) w_start w_end with
      | Ret cands => fst (for_try (truth_body recA0) v cands)
      | Raise _ => v
      end
  end.

Definition window (recA0 : VcfRecord) (w : Z) : Z * Z :=
  let w_start := start recA0 - w in
  let w_end := end_ recA0 + w in
  (if w_start <? 1 then 1 else w_start, w_end).

(** The pair built for a source record of a compared type, with the
    identity map and the stderr lines after it. *)
Definition compare_record (h_interval_vcfB : Reader) (truth : option Reader)
    (recA0 : VcfRecord) (vtype : string) (w : Z)
    (used : gmap string VcfRecord)
  : Variant * gmap string VcfRecord * list string :=
  let '(w_start, w_end) := window recA0 w in
  let '(st, e) := match_target h_interval_vcfB recA0 vtype w_start w_end used in
  let warn := match e with
              | Some _ => [fetch_warning (CHROM recA0) w_start w_end]
              | None => []
              end in
  (match_truth truth recA0 w_start w_end (ms_variant st), ms_used st, warn).

Definition masked (mask : option Mask) (recA0 : VcfRecord) : py bool :=
  match mask with
  | None => Ret false
  | Some m =>
      if negb (bool_decide (CHROM recA0 ∈ contigs m)) then Ret true
      else
        rows ← mask_fetch m (CHROM recA0) (POS recA0) (POS recA0 + 1);
        Ret (negb (Nat.eqb (List.length rows) 0))
  end.

(** One iteration of the loop over the source records; the progress
    lines of [verbose] mode are left out. *)
Definition compare_step (h_interval_vcfB : Reader) (w_indel w_sv : Z)
    (mask : option Mask) (truth : option Reader)
    (rs : RunState) (recA0 : VcfRecord) : py RunState :=
  skip ← masked mask recA0;
  if (skip : bool) then Ret rs
  else
    match classify recA0 w_indel w_sv with
    | (Some vtype, w) =>
        let '(variant, used, warn) :=
          compare_record h_interval_vcfB truth recA0 vtype w (rs_used rs) in
        cmp ← vartype_append (rs_cmp rs) vtype variant;
        Ret {| rs_cmp := cmp; rs_used := used; rs_err := rs_err rs ++ warn |}
    | (None, _) => Ret rs
    end.

(** The loop over the source records; an exception outside the two
    [try] blocks ends the run. *)
Fixpoint compare_loop (step : RunState -> VcfRecord -> py RunState)
    (rs : RunState) (l : list VcfRecord) : py RunState :=
  match l with
  | [] => Ret rs
  | r :: l' => rs' ← step rs r; compare_loop step rs' l'
  end.

(** does most of the work - unidirectional comparison vcfA --> vcfB *)
Definition compareVCFs_run (h_vcfA h_interval_vcfB : Reader) (w_indel w_sv : Z)
    (mask : option Mask) (truth : option Reader)
    (chrom : option string) (fetch_start fetch_end : Z) : py RunState :=
  let rs0 := {| rs_cmp := Comparison_init; rs_used := ∅; rs_err := [] |} in
  recs ← fetch h_vcfA chrom fetch_start fetch_end;
  compare_loop (compare_step h_interval_vcfB w_indel w_sv mask truth) rs0 recs.

Definition compareVCFs (h_vcfA h_interval_vcfB : Reader) (w_indel w_sv : Z)
    (mask : option Mask) (truth : option Reader)
    (chrom : option string) (fetch_start fetch_end : Z) : py Comparison :=
  rs ← compareVCFs_run h_vcfA h_interval_vcfB w_indel w_sv mask truth
                       chrom fetch_start fetch_end;
  Ret (rs_cmp rs).

(** ** Summary aggregator *)

(** A plain [for] loop whose body may raise. *)
Fixpoint for_each {S A : Type} (body : S -> A -> py S) (s : S) (l : list A)
  : py S :=
  match l with
  | [] => Ret s
  | a :: l' => s' ← body s a; for_each body s' l'
  end.

(** [reduce(lambda x,y : x + (...), self.vartype[vtype], 0)]: with
    [truth] set the six predicates are compared, without it five. *)
Definition build_comparator (self : Comparison) (vtype0 : string)
    (matched0 passA passB somA somB truth : bool) : string -> py Z :=
  if truth then
    fun vtype =>
      match vartype self !! vtype with
      | None => Raise KeyError
      | Some l =>
          Ret (fold_left
                 (fun x y => x + Z.b2z (eqb (matched y) matched0
                                        && eqb (recA_pass y) passA
                                        && eqb (recB_pass y) passB
                                        && eqb (recA_somatic y) somA
                                        && eqb (recB_somatic y) somB
                                        && eqb (is_true y) truth))
                 l 0)
      end
  else
    fun vtype =>
      match vartype self !! vtype with
      | None => Raise KeyError
      | Some l =>
          Ret (fold_left
                 (fun x y => x + Z.b2z (eqb (matched y) matched0
                                        && eqb (recA_pass y) passA
                                        && eqb (recB_pass y) passB
                                        && eqb (recA_somatic y) somA
                                        && eqb (recB_somatic y) somB))
                 l 0)
      end.

Definition pass_word (b : bool) : string := if b then "pass" else "fail".
Definition som_word (b : bool) : string := if b then "somatic" else "germline".
Definition truth_word (b : bool) : string := if b then "truth" else "overall".

(** [itertools.product([True, False], repeat=...)] *)
Definition TF : list bool := [true; false].

Definition product5 : list (bool * bool * bool * bool * bool) :=
  a ← TF; b ← TF; c ← TF; d ← TF; e ← TF; [(a, b, c, d, e)].

Definition product3 : list (bool * bool * bool) :=
  a ← TF; b ← TF; c ← TF; [(a, b, c)].

Definition mhname (v : bool * bool * bool * bool * bool) : string :=
  let '(truth, passA, passB, somA, somB) := v in
  py_join "_" ["matched"; pass_word passA; pass_word passB;
               som_word somA; som_word somB; truth_word truth].

Definition mhbools (v : bool * bool * bool * bool * bool) : list bool :=
  let '(truth, passA, passB, somA, somB) := v in
  [true; passA; passB; somA; somB; truth].

Definition uhname (v : bool * bool * bool) : string :=
  let '(truth, passA, somA) := v in
  py_join "_" ["unmatched"; pass_word passA; som_word somA; truth_word truth].

Definition uhbools (v : bool * bool * bool) : list bool :=
  let '(truth, passA, somA) := v in
  [false; passA; somA; truth].

(** build category names for comparisons: the names, or with
    [return_bool] the boolean lists in the same order *)
Definition get_sumheader_names : list string * list string * list string :=
  (["vartype"], List.map uhname product3, List.map mhname product5).

Definition get_sumheader_bools
  : list string * list (list bool) * list (list bool) :=
  (["vartype"], List.map uhbools product3, List.map mhbools product5).

(** Ordered dictionaries of the class [Summary]. *)
Fixpoint od_get {V : Type} (d : list (string * V)) (k : string) : py V :=
  match d with
  | [] => Raise KeyError
  | (k', v) :: d' => if String.eqb k' k then Ret v else od_get d' k
  end.

Fixpoint od_set {V : Type} (d : list (string * V)) (k : string) (v : V)
  : list (string * V) :=
  match d with
  | [] => [(k, v)]
  | (k', v') :: d' =>
      if String.eqb k' k then (k', v) :: d' else (k', v') :: od_set d' k v
  end.

(** [d[k] += n] *)
Definition od_add (d : list (string * Z)) (k : string) (n : py Z)
  : py (list (string * Z)) :=
  cur ← od_get d k;
  m ← n;
  Ret (od_set d k (cur + m)).

Record Summary : Type := mkSummary {
  info     : list (string * option string);
  unm_cats : list (string * Z);
  mat_cats : list (string * Z)
}.

Definition Summary_init : Summary :=
  let '(infonames, uhnames, mhnames) := get_sumheader_names in
  {| info := fold_left (fun d k => od_set d k None) infonames [];
     unm_cats :=
       fold_left (fun d uh =>
                    fold_left (fun d' prefix => od_set d' (prefix +:+ uh) 0)
                              ["A_"; "B_"] d)
                 uhnames [];
     mat_cats := fold_left (fun d mh => od_set d mh 0) mhnames [] |}.

Definition Summary_add (self other : Summary) : py Summary :=
  vs ← od_get (info self) "vartype";
  vo ← od_get (info other) "vartype";
  _ ← py_assert (bool_decide (vs = vo));
  m ← for_each (fun d k => od_add d k (od_get (mat_cats other) k))
               (mat_cats self) (mat_cats other).*1;
  u ← for_each (fun d k => od_add d k (od_get (unm_cats other) k))
               (unm_cats self) (unm_cats other).*1;
  Ret {| info := info self; unm_cats := u; mat_cats := m |}.

(** The unpacking [p_matched, p_passA, p_somA, p_truth = bools]. *)
Definition unpack4 (l : list bool) : py (bool * bool * bool * bool) :=
  match l with
  | [a; b; c; d] => Ret (a, b, c, d)
  | _ => Raise ValueError
  end.

Definition unpack6 (l : list bool)
  : py (bool * bool * bool * bool * bool * bool) :=
  match l with
  | [a; b; c; d; e; f] => Ret (a, b, c, d, e, f)
  | _ => Raise ValueError
  end.

Definition unmatched_stats (compAB compBA : Comparison) (vtype : string)
    (S : Summary) (cb : string * list bool) : py Summary :=
  let '(cat, bools) := cb in
  '(p_matched, p_passA, p_somA, p_truth) ← unpack4 bools;
  u1 ← od_add (unm_cats S) ("A_" +:+ cat)
         (build_comparator compAB vtype p_matched p_passA false p_somA false
                           p_truth vtype);
  u2 ← od_add u1 ("B_" +:+ cat)
         (build_comparator compBA vtype p_matched p_passA false p_somA false
                           p_truth vtype);
  Ret {| info := info S; unm_cats := u2; mat_cats := mat_cats S |}.

Definition matched_stats (compAB : Comparison) (vtype : string)
    (S : Summary) (cb : string * list bool) : py Summary :=
  let '(cat, bools) := cb in
  '(p_matched, p_passA, p_passB, p_somA, p_somB, p_truth) ← unpack6 bools;
  m ← od_add (mat_cats S) cat
        (build_comparator compAB vtype p_matched p_passA p_passB p_somA p_somB
                          p_truth vtype);
  Ret {| info := info S; unm_cats := unm_cats S; mat_cats := m |}.

(** The body of the loop over the zipped comparison lists. *)
Definition summary_segment (vtype : string) (S : Summary)
    (cc : Comparison * Comparison) : py Summary :=
  let '(compAB, compBA) := cc in
  let bool_cmplist := get_sumheader_bools in
  let name_cmplist := get_sumheader_names in
  let unmatched_cat_names := snd (fst name_cmplist) in
  let matched_cat_names := snd name_cmplist in
  S1 ← for_each (unmatched_stats compAB compBA vtype) S
         (zip unmatched_cat_names (snd (fst bool_cmplist)));
  for_each (matched_stats compAB vtype) S1
    (zip matched_cat_names (snd bool_cmplist)).

Definition summary_vtype (compAB_list compBA_list : list Comparison)
    (s : gmap string Summary) (vtype : string) : py (gmap string Summary) :=
  cBA0 ← first compBA_list;
  _ ← py_assert (bool_decide (is_Some (vartype cBA0 !! vtype)));
  let S0 := {| info := od_set (info Summary_init) "vartype" (Some vtype);
               unm_cats := unm_cats Summary_init;
               mat_cats := mat_cats Summary_init |} in
  S ← for_each (summary_segment vtype) S0 (zip compAB_list compBA_list);
  Ret (<[vtype := S]> s).

Definition asymmetry_warning (vtype : string) (n_shared_AB n_shared_BA : Z)
  : list string :=
  [ "warning: overlap was not symmetric for " +:+ vtype;
    " (A-->B: " +:+ str_Z n_shared_AB +:+ "),";
    " (B-->A: " +:+ str_Z n_shared_BA +:+ ") using A-->B" +:+ String "010" "" ].

(** summarize A --> B comparison and B --> A comparison; the second
    component is what the function writes to stderr *)
Definition summary (compAB_list compBA_list : list Comparison)
  : py (gmap string Summary * list string) :=
  let n_shared_AB := 0 in
  let n_shared_BA := 0 in
  cAB0 ← first compAB_list;
  s ← for_each (summary_vtype compAB_list compBA_list) ∅
        (map_to_list (vartype cAB0)).*1;
  let err :=
    flat_map (fun vtype =>
                if negb (n_shared_AB =? n_shared_BA)
                then asymmetry_warning vtype n_shared_AB n_shared_BA
                else [])
             (map_to_list s).*1 in
  Ret (s, err).

(** ** Genome segmenter *)

(** used for segmenting the genome into chunks for threading *)
Record Segment : Type := mkSegment {
  chrom     : string;
  seg_start : Z;
  seg_end   : Z;
  length    : Z
}.

(** [Segment(line=...)] for a line [name <tab> size] *)
Definition Segment_of_line (line : string * Z) : Segment :=
  {| chrom := fst line; seg_start := 0; seg_end := snd line;
     length := snd line |}.

Definition left (self : Segment) : Segment :=
  let lend := seg_start self + length self / 2 in
  {| chrom := chrom self; seg_start := seg_start self; seg_end := lend;
     length := lend - seg_start self |}.

Definition right (self : Segment) : Segment :=
  let rstart := seg_end self - length self / 2 in
  {| chrom := chrom self; seg_start := rstart; seg_end := seg_end self;
     length := seg_end self - rstart |}.

(** [list.sort()] with the order of [__gt__]: ascending in [length],
    segments of equal length keeping their order. *)
Fixpoint insert_seg (x : Segment) (l : list Segment) : list Segment :=
  match l with
  | [] => [x]
  | y :: l' =>
      if length x <=? length y then x :: y :: l' else y :: insert_seg x l'
  end.

Definition sort_segs (l : list Segment) : list Segment :=
  fold_right insert_seg [] l.

(** [l.pop()]: what is left and the last element *)
Definition pop {A : Type} (l : list A) : py (list A * A) :=
  match reverse l with
  | [] => Raise IndexError
  | x :: r => Ret (reverse r, x)
  end.

(** break the longest chunk in half until we have enough: every turn
    of [while n > len(segs)] adds one segment, so the loop makes
    [n - len(segs)] turns, the argument [turns]. *)
Fixpoint bisect_longest (turns : nat) (segs : list Segment)
  : py (list Segment) :=
  match turns with
  | O => Ret segs
  | S turns' =>
      '(rest, bigseg) ← pop segs;
      bisect_longest turns' (sort_segs (rest ++ [left bigseg; right bigseg]))
  end.

(** [jobs[j].append(segs.pop())] for [j] running over [range(n)] again
    and again until [segs] is empty: the [i]-th segment popped goes to
    bucket [i mod n]. *)
Fixpoint deal (n : nat) (i : nat) (popped : list Segment)
    (jobs : list (list Segment)) : list (list Segment) :=
  match popped with
  | [] => jobs
  | seg :: popped' =>
      deal n (S i) popped' (alter (fun job => job ++ [seg]) (i mod n)%nat jobs)
  end.

Definition split_genome (chroms : list (string * Z)) (n : Z) (minlen : Z)
  : py (list (list Segment)) :=
  _ ← py_assert (n >? 0);
  let segs :=
    List.filter (fun seg => length seg >? minlen)
                (List.map Segment_of_line chroms) in
  let segs := sort_segs segs in
  segs ← bisect_longest (Z.to_nat n - List.length segs) segs;
  _ ← py_assert (n <=? Z.of_nat (List.length segs));
  let jobs := replicate (Z.to_nat n) [] in
  Ret (deal (Z.to_nat n) 0 (reverse segs) jobs).

(** * Reading of the specification and inputs of the examples *)

(** The shapes of a [CIPOS]/[CIEND] entry the format defines, with the
    two magnitudes read from it. *)
Inductive ci_entry : option value -> Z -> Z -> Prop :=
| ci_absent : ci_entry None 0 0
| ci_pair (a b : Z) : ci_entry (Some (VInts [a; b])) (Z.abs a) (Z.abs b)
| ci_single (a : Z) : ci_entry (Some (VInts [a])) (Z.abs a) (Z.abs a).

(** The shapes of an [END] entry, with the end read from it. *)
Inductive end_entry : option value -> option Z -> Prop :=
| end_absent : end_entry None None
| end_int (e : Z) : end_entry (Some (VInt e)) (Some e)
| end_list (e : Z) (l : list Z) : end_entry (Some (VInts (e :: l))) (Some e).

(** The interval as section 4.1 of the specification words it: the
    base end is [POS+1] or [END], the CIPOS flank goes to the start and
    the CIEND flank to the end. *)
Definition flank_start (o : option value) : Z :=
  match o with
  | Some (VInts (a :: _)) => Z.abs a
  | _ => 0
  end.

Definition flank_end (o : option value) : Z :=
  match o with
  | Some (VInts [a; b]) => Z.abs b
  | Some (VInts (a :: _)) => Z.abs a
  | _ => 0
  end.

Definition spec_confidence_interval (rec : VcfRecord) (indel_widen : Z)
  : Z * Z :=
  let base_end :=
    match INFO rec !! "END" with
    | Some (VInt e) => e
    | Some (VInts (e :: _)) => e
    | _ => POS rec + 1
    end in
  let widen := if is_indel rec then indel_widen else 0 in
  (POS rec - (flank_start (INFO rec !! "CIPOS") + widen),
   base_end + flank_end (INFO rec !! "CIEND") + widen).

(** A breakend at chr2:100 with [CIPOS=-5,20] and no [END]. *)
Definition bnd_cipos : VcfRecord :=
  {| CHROM := "chr2"; POS := 100; ID := None; REF := "G";
     ALT := ["G[chr5:700["]; QUAL := None; FILTER := Some [];
     INFO := <["CIPOS" := VInts [-5; 20]]> (<["SVTYPE" := VStr "BND"]> ∅);
     samples := []; start := 99; end_ := 100;
     is_snp := false; is_indel := false; is_sv := true |}.

(** A breakend at chr2:3 with [CIPOS=-10,10] and one at chr2:2 with
    [CIPOS=-10,0], both joined after [t] to the right of chr5:700. *)
Definition bnd_pos3 : VcfRecord :=
  {| CHROM := "chr2"; POS := 3; ID := None; REF := "G";
     ALT := ["G[chr5:700["]; QUAL := None; FILTER := Some [];
     INFO := <["CIPOS" := VInts [-10; 10]]> (<["SVTYPE" := VStr "BND"]> ∅);
     samples := []; start := 2; end_ := 3;
     is_snp := false; is_indel := false; is_sv := true |}.

Definition bnd_pos2 : VcfRecord :=
  {| CHROM := "chr2"; POS := 2; ID := None; REF := "T";
     ALT := ["T[chr5:700["]; QUAL := None; FILTER := Some [];
     INFO := <["CIPOS" := VInts [-10; 0]]> (<["SVTYPE" := VStr "BND"]> ∅);
     samples := []; start := 1; end_ := 2;
     is_snp := false; is_indel := false; is_sv := true |}.

(** A single-nucleotide record at chr1:100 A>G. *)
Definition snv_record (id : option string) (filt : option (list string))
    (inf : gmap string value) : VcfRecord :=
  {| CHROM := "chr1"; POS := 100; ID := id; REF := "A"; ALT := ["G"];
     QUAL := None; FILTER := filt; INFO := inf; samples := [];
     start := 99; end_ := 100;
     is_snp := true; is_indel := false; is_sv := false |}.

Definition snv_a1 : VcfRecord := snv_record (Some "rs1") (Some []) ∅.
Definition snv_a2 : VcfRecord := snv_record (Some "rs1_dup") (Some []) ∅.
Definition snv_b : VcfRecord := snv_record None (Some ["LowQual"]) ∅.

(** The same call flagged [SOMATIC] with status [SS=LOH]. *)
Definition snv_loh : VcfRecord :=
  snv_record None (Some [])
    (<["SOMATIC" := VBool true]> (<["SS" := VStr "LOH"]> ∅)).

(** A reader over a list of records: [fetch] gives the records of the
    chromosome that overlap the half-open window. *)
Definition reader_of_list (l : list VcfRecord) : Reader :=
  {| fetch := fun chrom0 s e =>
       Ret (List.filter
              (fun r =>
                 match chrom0 with
                 | Some c => bool_decide (CHROM r = c)
                 | None => true
                 end && (start r <? e) && (s <? end_ r))
              l) |}.

Definition collection_A : Reader := reader_of_list [snv_a1; snv_a2].
Definition collection_B : Reader := reader_of_list [snv_b].

(** The number of pairs of a comparison with both records bound: the
    shared-match total of that direction (section 4.4). *)
Definition shared_matches (c : Comparison) : Z :=
  map_fold (fun _ l n => n + Z.of_nat (List.length (List.filter matched l)))
           0 (vartype c).

(** A chromosome of odd length. *)
Definition odd_table : list (string * Z) := [("chr1", 2000001)].

(** An insertion/deletion at chr1:200 AT>A. *)
Definition indel_record (id : option string) : VcfRecord :=
  {| CHROM := "chr1"; POS := 200; ID := id; REF := "AT"; ALT := ["A"];
     QUAL := None; FILTER := Some []; INFO := ∅; samples := [];
     start := 199; end_ := 201;
     is_snp := false; is_indel := true; is_sv := false |}.

Definition indel_a1 : VcfRecord := indel_record (Some "del1").
Definition indel_a2 : VcfRecord := indel_record (Some "del1_dup").
Definition indel_b : VcfRecord := indel_record None.

(** The identity keys of the target records bound in a bucket. *)
Definition bound_uids (l : list Variant) : list string :=
  omap (fun p => sv_uid <$> recB p) l.

(** The type names for which the identity map is consulted. *)
Definition interval_type (vtype : string) : bool :=
  bool_decide (vtype ∈ ["INDEL"; "SV"; "CNV"]).

(** Invariant of the matching loop of one source record, [used0] being
    the identity map when the loop starts. *)
Definition match_inv (recA0 : VcfRecord) (vtype : string)
    (used0 : gmap string VcfRecord) (st : MatchState) : Prop :=
  (forall u, is_Some (used0 !! u) -> is_Some (ms_used st !! u))
  /\ (ms_match st = false ->
      recB (ms_variant st) = None /\ ms_used st = used0)
  /\ (forall b, recB (ms_variant st) = Some b ->
        ms_used st = <[sv_uid b := recA0]> used0
        /\ (interval_type vtype = true -> used0 !! sv_uid b = None)).

(** Invariant of the traversal: the keys bound in the INDEL bucket are
    pairwise different and all in the identity map. *)
Definition run_inv (rs : RunState) : Prop :=
  forall l, vartype (rs_cmp rs) !! "INDEL" = Some l ->
    NoDup (bound_uids l)
    /\ (forall u, u ∈ bound_uids l -> is_Some (rs_used rs !! u)).

#[global] Arguments compare_record : simpl never.
#[global] Arguments classify : simpl never.
#[global] Arguments masked : simpl never.
#[global] Arguments vcfVariantMatch : simpl never.

(** The matcher accepts the candidate. *)
Definition accepts (recA0 rX : VcfRecord) : bool :=
  match vcfVariantMatch recA0 rX with
  | Ret true => true
  | _ => false
  end.

(** A truth collection holding the call of [snv_a1] twice. *)
Definition snv_t1 : VcfRecord := snv_record (Some "truth1") (Some []) ∅.
Definition snv_t2 : VcfRecord := snv_record (Some "truth2") (Some []) ∅.
Definition collection_T : Reader := reader_of_list [snv_t1; snv_t2].

(** A source holding a deletion twice, a target holding it once. *)
Definition indels_A : Reader := reader_of_list [indel_a1; indel_a2].
Definition indels_B : Reader := reader_of_list [indel_b].

(** What a category counts in a bucket: the five predicates equal the
    category's, and the pair has a truth record when the category is a
    truth category. *)
Definition counted (m pA pB sA sB t : bool) (y : Variant) : bool :=
  eqb (matched y) m && eqb (recA_pass y) pA && eqb (recB_pass y) pB
  && eqb (recA_somatic y) sA && eqb (recB_somatic y) sB
  && implb t (is_true y).

Definition count_pairs (m pA pB sA sB t : bool) (l : list Variant) : Z :=
  Z.of_nat (List.length (List.filter (counted m pA pB sA sB t) l)).

Definition matched_count (l : list Variant)
    (v : bool * bool * bool * bool * bool) : Z :=
  let '(t, pA, pB, sA, sB) := v in count_pairs true pA pB sA sB t l.

Definition unmatched_count (l : list Variant) (v : bool * bool * bool) : Z :=
  let '(t, pA, sA) := v in count_pairs false pA false sA false t l.

(** A run of [d[k] += n] over a list of keys and numbers. *)
Definition od_adds (d : list (string * Z)) (ops : list (string * Z))
  : py (list (string * Z)) :=
  for_each (fun d kn => od_add d (fst kn) (Ret (snd kn))) d ops.

(** The count of a category as section 4.4 words it: the pairs whose
    six predicates equal the category's boolean vector. *)
Definition predicates (y : Variant) : list bool :=
  [matched y; recA_pass y; recB_pass y; recA_somatic y; recB_somatic y;
   is_true y].

Definition spec_category_count (l : list Variant) (vec : list bool) : Z :=
  Z.of_nat (List.length
              (List.filter (fun y => bool_decide (predicates y = vec)) l)).

(** The comparisons of [snv_a1] against [snv_b] and back, with the
    truth collection [collection_T]. *)
Definition truth_pair : Variant :=
  {| recA := snv_a1; recB := Some snv_b; recT := Some snv_t2; altmatch := [] |}.

Definition truth_cmp : Comparison :=
  {| vartype := <["INDEL" := []]> (<["SNV" := [truth_pair]]> ∅) |}.

Definition truth_cmp_BA : Comparison :=
  {| vartype :=
       <["INDEL" := []]>
         (<["SNV" := [ {| recA := snv_b; recB := Some snv_a1;
                          recT := Some snv_t2; altmatch := [] |} ]]> ∅) |}.

(** * Notions used by the properties of the run, the summary and the
    segmenter *)

(** The pair read in the other direction. *)
Definition swap_pair (p : Variant) (rB : VcfRecord) : Variant :=
  {| recA := rB; recB := Some (recA p); recT := recT p;
     altmatch := altmatch p |}.

(** The record is not passed over by the mask. *)
Definition unmasked (mask : option Mask) (r : VcfRecord) : bool :=
  match masked mask r with
  | Ret false => true
  | _ => false
  end.

(** The record is given the type name [vt]. *)
Definition typed (w_indel w_sv : Z) (vt : string) (r : VcfRecord) : bool :=
  bool_decide (fst (classify r w_indel w_sv) = Some vt).

(** Every record held by the pair was accepted by the matcher against
    the pair's source record. *)
Definition sound (p : Variant) : Prop :=
  (forall b, recB p = Some b -> vcfVariantMatch (recA p) b = Ret true)
  /\ (forall x, x ∈ altmatch p -> vcfVariantMatch (recA p) x = Ret true)
  /\ (forall t, recT p = Some t -> vcfVariantMatch (recA p) t = Ret true).

(** Invariant of the traversal after the source records [pre]: each
    bucket lists the unmasked records of its type in order, every pair
    is sound, and the buckets are those of the constructor. *)
Definition bucket_inv (mask : option Mask) (w_indel w_sv : Z)
    (pre : list VcfRecord) (rs : RunState) : Prop :=
  (forall vt l, vartype (rs_cmp rs) !! vt = Some l ->
     List.map recA l
     = List.filter (fun r => unmasked mask r && typed w_indel w_sv vt r) pre
     /\ Forall sound l)
  /\ (forall vt, is_Some (vartype (rs_cmp rs) !! vt)
                 <-> vt = "SNV" \/ vt = "INDEL").

(** The segments built from the table lines that are long enough. *)
Definition retained (chroms : list (string * Z)) (minlen : Z) : list Segment :=
  List.filter (fun seg => length seg >? minlen)
              (List.map Segment_of_line chroms).

(** Position [x] of chromosome [c] lies in the segment. *)
Definition contains (c : string) (x : Z) (seg : Segment) : bool :=
  bool_decide (chrom seg = c) && (seg_start seg <=? x) && (x <? seg_end seg).

(** The number of segments of the list holding the position. *)
Definition cover (c : string) (x : Z) (l : list Segment) : nat :=
  List.length (List.filter (contains c x) l).

Definition total_length (l : list Segment) : Z :=
  fold_right (fun seg acc => length seg + acc) 0 l.

(** The segment lies inside a chromosome of the table that is long
    enough, and its [length] is its extent. *)
Definition within (chroms : list (string * Z)) (minlen : Z) (seg : Segment)
  : Prop :=
  exists len : Z,
    (chrom seg, len) ∈ chroms /\ minlen < len
    /\ 0 <= seg_start seg /\ seg_start seg <= seg_end seg /\ seg_end seg <= len
    /\ length seg = seg_end seg - seg_start seg.

Definition Zsum (l : list Z) : Z := fold_right Z.add 0 l.

(** The sum of a list of counts, each of which may raise. *)
Definition Zsum_py (l : list (py Z)) : py Z :=
  fold_right (fun m acc => a ← m; b ← acc; Ret (a + b)) (Ret 0) l.

Definition product4 : list (bool * bool * bool * bool) :=
  a ← TF; b ← TF; c ← TF; d ← TF; [(a, b, c, d)].

Definition product2 : list (bool * bool) :=
  a ← TF; b ← TF; [(a, b)].

(** The boolean vectors of [get_sumheader] of one kind: those whose
    last entry, the truth flag, is [truth]. *)
Definition of_kind (truth : bool) (bools : list bool) : bool :=
  bool_decide (last bools = Some truth).

(** The counts [summary] asks a comparison for under the categories of
    one kind ([truth] or overall): one for each of the sixteen matched
    and each of the four unmatched vectors of [get_sumheader] of that
    kind, the unmatched ones with [passB] and [somB] left at their
    default. *)
Definition kind_counts (self : Comparison) (vtype : string) (truth : bool)
  : list (py Z) :=
  List.map (fun bools =>
              '(p_matched, p_passA, p_passB, p_somA, p_somB, p_truth)
                ← unpack6 bools;
              build_comparator self vtype p_matched p_passA p_passB p_somA
                               p_somB p_truth vtype)
           (List.filter (of_kind truth) (snd get_sumheader_bools))
  ++ List.map (fun bools =>
                 '(p_matched, p_passA, p_somA, p_truth) ← unpack4 bools;
                 build_comparator self vtype p_matched p_passA false p_somA
                                  false p_truth vtype)
              (List.filter (of_kind truth) (snd (fst get_sumheader_bools))).

(** Two summaries of the same variant type with the same categories. *)
Definition mergeable (a b : Summary) : Prop :=
  (exists v, od_get (info a) "vartype" = Ret v
             /\ od_get (info b) "vartype" = Ret v)
  /\ NoDup (mat_cats a).*1 /\ (mat_cats b).*1 = (mat_cats a).*1
  /\ NoDup (unm_cats a).*1 /\ (unm_cats b).*1 = (unm_cats a).*1.

(** The category-wise sum of two dictionaries with the same keys. *)
Definition od_sum (d d' : list (string * Z)) : list (string * Z) :=
  zip_with (fun kv kv' => (fst kv, snd kv + snd kv')) d d'.

(** return True if either call is somatic *)
Definition has_somatic (self : Variant) : bool :=
  recA_somatic self || recB_somatic self.

(** return True if both calls are somatic *)
Definition both_somatic (self : Variant) : bool :=
  if negb (matched self) then false
  else recA_somatic self && recB_somatic self.

(** return True if either call is germline *)
Definition has_germline (self : Variant) : bool :=
  if negb (matched self) then
    if negb (has_somatic self) then true else false
  else if negb (both_somatic self) then true
  else false.

(** return True if both calls are germline *)
Definition both_germline (self : Variant) : bool :=
  if negb (matched self) then false
  else if has_somatic self then false
  else true.

(** return True if either filter is PASS *)
Definition has_pass (self : Variant) : bool :=
  if negb (matched self) then
    if filter_empty (recA self) then true else false
  else match recB self with
  | Some rB =>
      if filter_empty (recA self) || filter_empty rB then true else false
  | None => false
  end.

(** return True if both filters are PASS *)
Definition both_pass (self : Variant) : bool :=
  if negb (matched self) then false
  else match recB self with
  | Some rB =>
      if filter_empty (recA self) && filter_empty rB then true else false
  | None => false
  end.

(** Ascending in [length]. *)
Fixpoint ascending (l : list Segment) : Prop :=
  match l with
  | [] => True
  | x :: l' => Forall (fun y => length x <= length y) l' /\ ascending l'
  end.

(** The pairs a comparison holds under a type name. *)
Definition bucket (c : Comparison) (vtype : string) : list Variant :=
  default [] (vartype c !! vtype).

(** A summary that has a count under every category name. *)
Definition all_cats (S : Summary) : Prop :=
  (forall v, exists c, od_get (mat_cats S) (mhname v) = Ret c)
  /\ (forall v, exists cA cB,
         od_get (unm_cats S) ("A_" +:+ uhname v) = Ret cA
         /\ od_get (unm_cats S) ("B_" +:+ uhname v) = Ret cB).

(** What [summary] holds for a type after the segments [ccs]. *)
Definition sums_of (ccs : list (Comparison * Comparison)) (vt : string)
    (S : Summary) : Prop :=
  od_get (info S) "vartype" = Ret (Some vt)
  /\ (forall v, od_get (mat_cats S) (mhname v)
                = Ret (Zsum (List.map (fun cc => matched_count (bucket (fst cc) vt) v)
                                      ccs)))
  /\ (forall v,
        od_get (unm_cats S) ("A_" +:+ uhname v)
        = Ret (Zsum (List.map (fun cc => unmatched_count (bucket (fst cc) vt) v)
                              ccs))
        /\ od_get (unm_cats S) ("B_" +:+ uhname v)
           = Ret (Zsum (List.map (fun cc => unmatched_count (bucket (snd cc) vt) v)
                                 ccs))).

(** The pair of the breakends [bnd_pos3] and [bnd_pos2]. *)
Definition bnd_pair : Variant :=
  {| recA := bnd_pos3; recB := Some bnd_pos2; recT := None; altmatch := [] |}.

(** A summary of the type ['SNV'] with no count, and one with one
    matched pair. *)
Definition snv_summary : Summary :=
  {| info := od_set (info Summary_init) "vartype" (Some "SNV");
     unm_cats := unm_cats Summary_init;
     mat_cats := mat_cats Summary_init |}.

Definition snv_summary_one : Summary :=
  {| info := info snv_summary;
     unm_cats := unm_cats snv_summary;
     mat_cats := od_set (mat_cats snv_summary)
                        (mhname (false, true, false, false, false)) 1 |}.

(** A table of three chromosomes. *)
Definition three_table : list (string * Z) :=
  [("chr1", 30); ("chr2", 50); ("chr3", 40)].

(** * Properties *)

Section Intervals.

Local Ltac case_gt :=
  match goal with
  | |- context [?x >? ?y] => destruct (Z.gtb_spec x y)
  end.

(** C8: [get_overlap_coords] gives the sentinel (0,0) exactly when the
    intersection of the two intervals has length at most 0, and the
    bounds (max of the starts, min of the ends) otherwise. *)
Theorem overlap_sentinel_iff (iv_a iv_b : Z * Z) :
  (get_overlap_coords iv_a iv_b = (0, 0)
   <-> Z.min (snd iv_a) (snd iv_b) - Z.max (fst iv_a) (fst iv_b) <= 0)
  /\ (0 < Z.min (snd iv_a) (snd iv_b) - Z.max (fst iv_a) (fst iv_b)
      -> get_overlap_coords iv_a iv_b
         = (Z.max (fst iv_a) (fst iv_b), Z.min (snd iv_a) (snd iv_b))).
Proof.
  unfold get_overlap_coords. case_gt; split.
  - split; [intros Heq | lia].
    injection Heq as Hmax Hmin. lia.
  - reflexivity.
  - split; [lia | reflexivity].
  - lia.
Qed.

Lemma overlap_sentinel_iff_witness :
  get_overlap_coords (1, 5) (3, 9) = (3, 5)
  /\ get_overlap_coords (1, 3) (3, 9) = (0, 0).
Proof.
  split.
  - apply (proj2 (overlap_sentinel_iff (1, 5) (3, 9))). simpl. lia.
  - apply (proj1 (overlap_sentinel_iff (1, 3) (3, 9))). simpl. lia.
Defined.

Lemma ci_flanks_entry (o : option value) (s e : Z) :
  ci_entry o s e -> ci_flanks o = Ret (s, e).
Proof. destruct 1; reflexivity. Qed.

Lemma ci_flanks_nonneg (o : option value) (s e : Z) :
  ci_flanks o = Ret (s, e) -> 0 <= s /\ 0 <= e.
Proof.
  destruct o as [[z|str|b|l|l]|]; simpl.
  - discriminate.
  - destruct str; discriminate.
  - discriminate.
  - destruct l as [|a [|b [|c l]]]; intros H; try discriminate;
      injection H as <- <-; lia.
  - destruct l; discriminate.
  - intros H. injection H as <- <-. lia.
Qed.

Lemma end_plus_entry (o : option value) (e ee : Z) :
  end_entry o (Some e) ->
  match o with Some v => end_plus v ee | None => Ret 0 end = Ret (e + ee).
Proof. inversion 1; reflexivity. Qed.

(** What [get_conf_interval] returns on a record without [END]. *)
Lemma conf_interval_no_END (rec : VcfRecord) (w s e : Z) :
  INFO rec !! "END" = None ->
  get_conf_interval rec w = Ret (s, e) ->
  exists ps pe : Z,
    0 <= ps /\ 0 <= pe
    /\ s = POS rec - (ps + if is_indel rec then w else 0)
    /\ e = POS rec + 1 + pe + if is_indel rec then w else 0.
Proof.
  intros Hend. unfold get_conf_interval. rewrite Hend.
  destruct (ci_flanks (INFO rec !! "CIPOS")) as [[ps pe]|] eqn:Hp;
    [|discriminate].
  destruct (ci_flanks (INFO rec !! "CIEND")) as [[es ee]|] eqn:He;
    [|discriminate].
  apply ci_flanks_nonneg in Hp as [Hps Hpe].
  cbn. destruct (is_indel rec); intros H; injection H as <- <-;
    exists ps, pe; repeat split; lia.
Qed.

Lemma conf_interval_no_END_lt (rec : VcfRecord) (w s e : Z) :
  INFO rec !! "END" = None ->
  0 <= w ->
  get_conf_interval rec w = Ret (s, e) ->
  s < e.
Proof.
  intros Hend Hw Hret.
  destruct (conf_interval_no_END rec w s e Hend Hret)
    as (ps & pe & Hps & Hpe & -> & ->).
  destruct (is_indel rec); lia.
Qed.

End Intervals.

Section ConfidenceInterval.

Variable rec : VcfRecord.
Variable w : Z.

(** C7 (as amended): on a record whose [CIPOS], [CIEND] and [END]
    entries have the shapes of the format, the start is [POS] minus the
    absolute CIPOS start flank; the end is [END] plus the absolute
    CIEND end flank when [END] is present and [POS+1] plus the absolute
    CIPOS end flank when it is not; a single-valued entry gives the
    same magnitude on both sides; on an indel the widen is added to the
    start-side flank and to the end. *)
Theorem conf_interval_amended (ps pe es ee : Z) (oe : option Z) :
  ci_entry (INFO rec !! "CIPOS") ps pe ->
  ci_entry (INFO rec !! "CIEND") es ee ->
  end_entry (INFO rec !! "END") oe ->
  get_conf_interval rec w
  = Ret (POS rec - (ps + if is_indel rec then w else 0),
         match oe with
         | Some e => e + ee
         | None => POS rec + 1 + pe
         end + if is_indel rec then w else 0).
Proof.
  intros Hp He Hend. unfold get_conf_interval.
  rewrite (ci_flanks_entry _ _ _ Hp), (ci_flanks_entry _ _ _ He). cbn.
  destruct oe as [e|].
  - pose proof (end_plus_entry _ e ee Hend) as Hplus.
    destruct (INFO rec !! "END") as [v|]; [|inversion Hend].
    rewrite Hplus. cbn. destruct (is_indel rec); f_equal; f_equal; lia.
  - inversion Hend as [Hnone| |]. cbn.
    destruct (is_indel rec); f_equal; f_equal; lia.
Qed.

(** C10: without an [END] entry and with a nonnegative widen, an
    interval returned by [get_conf_interval] has [start < end]; the
    call does return when the two confidence entries are well formed;
    and [interval_score] on a pair of such records fails on neither
    length assertion: it returns whenever the overlap is positive. *)
Theorem no_END_positive_length :
  INFO rec !! "END" = None ->
  0 <= w ->
  (forall s e : Z, get_conf_interval rec w = Ret (s, e) -> s < e)
  /\ (forall ps pe es ee : Z,
        ci_entry (INFO rec !! "CIPOS") ps pe ->
        ci_entry (INFO rec !! "CIEND") es ee ->
        exists s e : Z, get_conf_interval rec w = Ret (s, e) /\ s < e)
  /\ (forall (p : Variant) (rB : VcfRecord) (iv_a iv_b : Z * Z),
        recA p = rec ->
        recB p = Some rB ->
        INFO rB !! "END" = None ->
        get_conf_interval rec 0 = Ret iv_a ->
        get_conf_interval rB 0 = Ret iv_b ->
        0 < snd (get_overlap_coords iv_a iv_b)
            - fst (get_overlap_coords iv_a iv_b) ->
        exists q : Q, interval_score p = Ret q).
Proof.
  intros Hend Hw.
  assert (Hlen : forall s e : Z, get_conf_interval rec w = Ret (s, e) -> s < e).
  { intros s e. apply conf_interval_no_END_lt; assumption. }
  split; [exact Hlen|]. split.
  - intros ps pe es ee Hp He.
    assert (Hret : get_conf_interval rec w
                   = Ret (POS rec - (ps + if is_indel rec then w else 0),
                          POS rec + 1 + pe + if is_indel rec then w else 0)).
    { unfold get_conf_interval.
      rewrite (ci_flanks_entry _ _ _ Hp), (ci_flanks_entry _ _ _ He), Hend.
      cbn. destruct (is_indel rec); f_equal; f_equal; lia. }
    eexists _, _. split; [exact Hret|]. apply Hlen, Hret.
  - intros p rB [sa ea] [sb eb] HA HB HendB Hiva Hivb Hol.
    unfold interval_score. rewrite HA, HB, Hiva. cbn [mbind py_bind].
    rewrite Hivb. cbn [mbind py_bind].
    apply (conf_interval_no_END_lt rec 0 sa ea Hend (Z.le_refl 0)) in Hiva.
    apply (conf_interval_no_END_lt rB 0 sb eb HendB (Z.le_refl 0)) in Hivb.
    unfold py_assert.
    rewrite (proj2 (Z.gtb_lt _ 0) Hol). cbn [mbind py_bind fst snd].
    rewrite (proj2 (Z.gtb_lt (ea - sa) 0)) by lia. cbn [mbind py_bind].
    rewrite (proj2 (Z.gtb_lt (eb - sb) 0)) by lia. cbn [mbind py_bind].
    eexists. reflexivity.
Qed.

End ConfidenceInterval.

Lemma conf_interval_amended_witness :
  get_conf_interval bnd_cipos 0 = Ret (95, 121).
Proof.
  apply (conf_interval_amended bnd_cipos 0 5 20 0 0 None).
  - apply (ci_pair (-5) 20).
  - apply ci_absent.
  - apply end_absent.
Defined.

Lemma no_END_positive_length_witness :
  (forall s e : Z, get_conf_interval bnd_cipos 7 = Ret (s, e) -> s < e)
  /\ (exists s e : Z, get_conf_interval bnd_cipos 7 = Ret (s, e) /\ s < e)
  /\ (exists q : Q,
        interval_score {| recA := bnd_cipos; recB := Some bnd_cipos;
                          recT := None; altmatch := [] |} = Ret q).
Proof.
  destruct (no_END_positive_length bnd_cipos 7) as (Hlen & Hret & Hscore).
  - reflexivity.
  - lia.
  - split; [exact Hlen|]. split.
    + apply (Hret 5 20 0 0).
      * apply (ci_pair (-5) 20).
      * apply ci_absent.
    + apply (Hscore _ bnd_cipos (95, 121) (95, 121)); reflexivity.
Defined.

(** C7, the claim as worded fails: with [CIPOS=-5,20] and neither
    [END] nor [CIEND] the worded interval ends at [POS+1 = 101], the
    returned one at [POS+1+20 = 121]. *)
Lemma conf_interval_cipos_end_flank :
  spec_confidence_interval bnd_cipos 0 = (95, 101)
  /\ get_conf_interval bnd_cipos 0 = Ret (95, 121)
  /\ get_conf_interval bnd_cipos 0 <> Ret (spec_confidence_interval bnd_cipos 0).
Proof.
  split; [reflexivity|]. split; [reflexivity|]. discriminate.
Qed.

Section Evaluations.

(** C2: two breakends of the same orientation whose confidence
    intervals (-7,14) and (-8,3) share the ten bases (-7,3) are not
    matched, and the second is not matched with itself: the test is on
    the sum of the overlap bounds, which is negative here. *)
Theorem bnd_overlap_below_zero_unmatched :
  is_sv bnd_pos3 && is_sv bnd_pos2 = true
  /\ INFO bnd_pos3 !! "SVTYPE" = Some (VStr "BND")
  /\ INFO bnd_pos2 !! "SVTYPE" = Some (VStr "BND")
  /\ orientSV "G[chr5:700[" = "right_of_p_after_t"
  /\ orientSV "T[chr5:700[" = "right_of_p_after_t"
  /\ get_conf_interval bnd_pos3 0 = Ret (-7, 14)
  /\ get_conf_interval bnd_pos2 0 = Ret (-8, 3)
  /\ get_overlap_coords (-7, 14) (-8, 3) = (-7, 3)
  /\ vcfVariantMatch bnd_pos3 bnd_pos2 = Ret false
  /\ vcfVariantMatch bnd_pos2 bnd_pos2 = Ret false.
Proof. repeat split; vm_compute; reflexivity. Qed.

(** C3: a chromosome of 2000001 bases cut for two jobs gives the
    halves [0,1000000) and [1000001,2000001): their lengths sum to
    2000000 and base 1000000 is in neither. *)
Theorem split_odd_chromosome_gap :
  split_genome odd_table 2 1000000
  = Ret [ [ {| chrom := "chr1"; seg_start := 1000001; seg_end := 2000001;
               length := 1000000 |} ];
          [ {| chrom := "chr1"; seg_start := 0; seg_end := 1000000;
               length := 1000000 |} ] ]
  /\ length (left (Segment_of_line ("chr1", 2000001)))
     + length (right (Segment_of_line ("chr1", 2000001))) = 2000000
  /\ seg_end (left (Segment_of_line ("chr1", 2000001))) = 1000000
  /\ seg_start (right (Segment_of_line ("chr1", 2000001))) = 1000001.
Proof. repeat split; vm_compute; reflexivity. Qed.

(** C6: a record flagged [SOMATIC] with status [LOH] is not somatic as
    [recA] and somatic as [recB]. *)
Theorem recB_somatic_ignores_LOH :
  recA_somatic {| recA := snv_loh; recB := Some snv_a1; recT := None;
                  altmatch := [] |} = false
  /\ recB_somatic {| recA := snv_a1; recB := Some snv_loh; recT := None;
                     altmatch := [] |} = true.
Proof. split; vm_compute; reflexivity. Qed.

(** C9: A holds a call twice and B once; the two pairs of A-->B are
    both matched, the one pair of B-->A is matched once, and
    [summary] writes nothing to stderr. *)
Theorem summary_asymmetry_unreported :
  exists cAB cBA : Comparison,
    compareVCFs collection_A collection_B 0 1000 None None None 0 1000000000
      = Ret cAB
    /\ compareVCFs collection_B collection_A 0 1000 None None None 0 1000000000
      = Ret cBA
    /\ shared_matches cAB = 2
    /\ shared_matches cBA = 1
    /\ snd <$> summary [cAB] [cBA] = Ret [].
Proof.
  eexists _, _. split; [vm_compute; reflexivity|].
  split; [vm_compute; reflexivity|].
  repeat split; vm_compute; reflexivity.
Qed.

End Evaluations.

Section MatchLoop.

Variable recA0 : VcfRecord.
Variable vtype : string.
Variable used0 : gmap string VcfRecord.

Lemma match_inv_init (v : Variant) :
  recB v = None ->
  match_inv recA0 vtype used0 {| ms_variant := v; ms_used := used0; ms_match := false |}.
Proof.
  intros Hv. split; [auto|]. split; [auto|]. simpl. intros b Hb. congruence.
Qed.

Lemma match_body_inv (st st' : MatchState) (rB : VcfRecord) :
  match_inv recA0 vtype used0 st -> match_body recA0 vtype st rB = Ret st' -> match_inv recA0 vtype used0 st'.
Proof.
  intros Hinv. pose proof Hinv as (Hgrow & Hfalse & Hbound).
  unfold match_body.
  destruct (vcfVariantMatch recA0 rB) as [[|]|]; cbn; try discriminate.
  2:{ intros [= Heq]; subst st'. exact Hinv. }
  destruct (ms_match st) eqn:Hm.
  { intros [= Heq]. subst st'. split; [exact Hgrow|]. split; [simpl; congruence|].
    exact Hbound. }
  destruct (Hfalse eq_refl) as [HB Hused].
  rewrite HB, (bool_decide_eq_true_2 (@None VcfRecord = None) eq_refl). cbn.
  fold (interval_type vtype).
  destruct (interval_type vtype && bool_decide (is_Some (ms_used st !! sv_uid rB)))
    eqn:Hc.
  { intros [= Heq]; subst st'. split; [exact Hgrow|]. split; [simpl; auto|].
    simpl. intros b Hb. congruence. }
  unfold set_left. rewrite HB. intros [= Heq]; subst st'.
  unfold match_inv. simpl.
  split; [|split].
  - intros u Hu. rewrite Hused, lookup_insert. case_decide; [eauto|auto].
  - discriminate.
  - intros b [= <-]. rewrite Hused. split; [reflexivity|].
    intros Hi. rewrite Hi in Hc. simpl in Hc.
    apply bool_decide_eq_false in Hc. rewrite Hused in Hc.
    destruct (used0 !! sv_uid rB) eqn:E; [|reflexivity].
    exfalso. apply Hc. eauto.
Qed.

Lemma for_try_match_inv (cands : list VcfRecord) (st st' : MatchState)
    (e : option exn) :
  match_inv recA0 vtype used0 st ->
  for_try (match_body recA0 vtype) st cands = (st', e) ->
  match_inv recA0 vtype used0 st'.
Proof.
  revert st. induction cands as [|c cands IH]; intros st Hinv; simpl.
  - intros [= Heq _]; subst st'. exact Hinv.
  - destruct (match_body recA0 vtype st c) as [st1|ex] eqn:Hb.
    + apply IH. eapply match_body_inv; eauto.
    + intros [= Heq _]; subst st'. exact Hinv.
Qed.

Lemma match_body_altmatch_mono (st st' : MatchState) (rB x : VcfRecord) :
  match_body recA0 vtype st rB = Ret st' ->
  x ∈ altmatch (ms_variant st) -> x ∈ altmatch (ms_variant st').
Proof.
  unfold match_body.
  destruct (vcfVariantMatch recA0 rB) as [[|]|]; cbn; try discriminate.
  2:{ intros [= Heq]; subst st'. auto. }
  destruct (ms_match st).
  { intros [= Heq] Hx; subst st'. simpl. apply elem_of_app. auto. }
  destruct (py_assert _); cbn; try discriminate.
  destruct (_ && _).
  { intros [= Heq] Hx; subst st'. simpl. apply elem_of_app. auto. }
  unfold set_left. destruct (recB (ms_variant st)); intros [= Heq]; subst st'; auto.
Qed.

Lemma for_try_altmatch_mono (cands : list VcfRecord) (st st' : MatchState)
    (e : option exn) (x : VcfRecord) :
  for_try (match_body recA0 vtype) st cands = (st', e) ->
  x ∈ altmatch (ms_variant st) -> x ∈ altmatch (ms_variant st').
Proof.
  revert st. induction cands as [|c cands IH]; intros st; simpl.
  - intros [= Heq _]; subst st'. auto.
  - destruct (match_body recA0 vtype st c) as [st1|ex] eqn:Hb.
    + intros Hf Hx. eapply IH; eauto. eapply match_body_altmatch_mono; eauto.
    + intros [= Heq _]; subst st'. auto.
Qed.

(** The body returns on a candidate the matcher returns on. *)
Lemma match_body_returns (st : MatchState) (rB : VcfRecord) (m : bool) :
  match_inv recA0 vtype used0 st ->
  vcfVariantMatch recA0 rB = Ret m ->
  exists st', match_body recA0 vtype st rB = Ret st'.
Proof.
  intros (_ & Hfalse & _) Hm. unfold match_body. rewrite Hm. cbn.
  destruct m; [|eauto].
  destruct (ms_match st) eqn:E; [eauto|].
  destruct (Hfalse eq_refl) as [HB _].
  rewrite HB, (bool_decide_eq_true_2 (@None VcfRecord = None) eq_refl). cbn.
  destruct (_ && _); [eauto|].
  unfold set_left. rewrite HB. eauto.
Qed.

(** A matching candidate whose key is in the map at the start of the
    loop goes to [altmatch]. *)
Lemma match_body_known (st st' : MatchState) (c : VcfRecord) :
  interval_type vtype = true ->
  is_Some (used0 !! sv_uid c) ->
  match_inv recA0 vtype used0 st ->
  vcfVariantMatch recA0 c = Ret true ->
  match_body recA0 vtype st c = Ret st' ->
  c ∈ altmatch (ms_variant st').
Proof.
  intros Hi Hc (Hgrow & Hfalse & _) Hm. unfold match_body. rewrite Hm. cbn.
  destruct (ms_match st) eqn:E.
  { intros [= Heq]; subst st'. simpl. apply elem_of_app. right. apply list_elem_of_singleton. reflexivity. }
  destruct (Hfalse eq_refl) as [HB _].
  rewrite HB, (bool_decide_eq_true_2 (@None VcfRecord = None) eq_refl). cbn.
  fold (interval_type vtype). rewrite Hi.
  rewrite (bool_decide_eq_true_2 _ (Hgrow _ Hc)). simpl.
  intros [= Heq]; subst st'. simpl. apply elem_of_app. right. apply list_elem_of_singleton. reflexivity.
Qed.

Lemma for_try_known (cands : list VcfRecord) (st : MatchState) (c : VcfRecord) :
  interval_type vtype = true ->
  is_Some (used0 !! sv_uid c) ->
  match_inv recA0 vtype used0 st ->
  (forall x, x ∈ cands -> exists m, vcfVariantMatch recA0 x = Ret m) ->
  c ∈ cands ->
  vcfVariantMatch recA0 c = Ret true ->
  c ∈ altmatch (ms_variant (fst (for_try (match_body recA0 vtype) st cands))).
Proof.
  intros Hi Hc. revert st.
  induction cands as [|x cands IH]; intros st Hinv Hret Hin Hm.
  - inversion Hin.
  - simpl.
    destruct (Hret x) as [m Hx]; [apply elem_of_cons; auto|].
    destruct (match_body_returns st x m Hinv Hx) as [st1 Hb]. rewrite Hb.
    pose proof (match_body_inv _ _ _ Hinv Hb) as Hinv1.
    apply elem_of_cons in Hin as [->|Hin].
    + destruct (for_try _ st1 cands) as [st' e] eqn:Hf. simpl.
      eapply for_try_altmatch_mono; [exact Hf|].
      exact (match_body_known st st1 x Hi Hc Hinv Hm Hb).
    + apply IH; auto. intros y Hy. apply Hret. apply elem_of_cons; auto.
Qed.

End MatchLoop.

Section TruthLoop.

Variable recA0 : VcfRecord.

Lemma truth_body_keeps (v v' : Variant) (rT : VcfRecord) :
  truth_body recA0 v rT = Ret v' ->
  recB v' = recB v /\ altmatch v' = altmatch v.
Proof.
  unfold truth_body.
  destruct (vcfVariantMatch recA0 rT) as [[|]|]; cbn; try discriminate;
    intros [= Heq]; subst v'; auto.
Qed.

Lemma for_try_truth_keeps (cands : list VcfRecord) (v : Variant) :
  recB (fst (for_try (truth_body recA0) v cands)) = recB v
  /\ altmatch (fst (for_try (truth_body recA0) v cands)) = altmatch v.
Proof.
  revert v. induction cands as [|c cands IH]; intros v; simpl; [auto|].
  destruct (truth_body recA0 v c) as [v1|ex] eqn:Hb; [|auto].
  destruct (truth_body_keeps _ _ _ Hb) as [HB Halt].
  destruct (IH v1) as [HB1 Halt1]. split; congruence.
Qed.

Lemma match_truth_keeps (truth : option Reader) (ws we : Z) (v : Variant) :
  recB (match_truth truth recA0 ws we v) = recB v
  /\ altmatch (match_truth truth recA0 ws we v) = altmatch v.
Proof.
  unfold match_truth. destruct truth as [t|]; [|auto].
  destruct (fetch t (Some (CHROM recA0)) ws we); [|auto].
  apply for_try_truth_keeps.
Qed.

End TruthLoop.

Lemma match_target_inv (B : Reader) (recA0 : VcfRecord) (vtype : string)
    (ws we : Z) (used : gmap string VcfRecord) :
  match_inv recA0 vtype used
    (fst (match_target B recA0 vtype ws we used)).
Proof.
  unfold match_target.
  destruct (fetch B (Some (CHROM recA0)) ws we) as [cands|ex].
  - destruct (for_try _ _ cands) as [st e] eqn:Hf. simpl.
    eapply for_try_match_inv; [|exact Hf]. apply match_inv_init. reflexivity.
  - apply match_inv_init. reflexivity.
Qed.

Lemma compare_record_unfold (B : Reader) (truth : option Reader)
    (recA0 : VcfRecord) (vtype : string) (w : Z)
    (used : gmap string VcfRecord) :
  let ws := fst (window recA0 w) in
  let we := snd (window recA0 w) in
  let st := fst (match_target B recA0 vtype ws we used) in
  fst (compare_record B truth recA0 vtype w used)
  = (match_truth truth recA0 ws we (ms_variant st), ms_used st).
Proof.
  unfold compare_record. destruct (window recA0 w) as [ws we]. simpl.
  destruct (match_target B recA0 vtype ws we used) as [st e]. reflexivity.
Qed.

Lemma compare_record_inv (B : Reader) (truth : option Reader)
    (recA0 : VcfRecord) (vtype : string) (w : Z)
    (used : gmap string VcfRecord) :
  exists st : MatchState,
    match_inv recA0 vtype used st
    /\ recB (fst (fst (compare_record B truth recA0 vtype w used)))
       = recB (ms_variant st)
    /\ snd (fst (compare_record B truth recA0 vtype w used)) = ms_used st.
Proof.
  rewrite compare_record_unfold. cbv zeta. cbn [fst snd].
  eexists. split; [apply match_target_inv|]. split; [|reflexivity].
  apply match_truth_keeps.
Qed.

Lemma interval_type_INDEL_SV (vtype : string) :
  vtype = "INDEL" \/ vtype = "SV" -> interval_type vtype = true.
Proof. intros [->| ->]; reflexivity. Qed.

Lemma known_target_step :
  (forall (B : Reader) (truth : option Reader) (recA0 : VcfRecord)
          (vtype : string) (w : Z) (used : gmap string VcfRecord)
          (c : VcfRecord),
      vtype = "INDEL" \/ vtype = "SV" ->
      is_Some (used !! sv_uid c) ->
      let v := fst (fst (compare_record B truth recA0 vtype w used)) in
      (forall b, recB v = Some b -> sv_uid b <> sv_uid c)
      /\ (forall cands,
            fetch B (Some (CHROM recA0))
                  (fst (window recA0 w)) (snd (window recA0 w)) = Ret cands ->
            (forall x, x ∈ cands -> exists m, vcfVariantMatch recA0 x = Ret m) ->
            c ∈ cands ->
            vcfVariantMatch recA0 c = Ret true ->
            c ∈ altmatch v)).
Proof.
  intros B truth recA0 vtype w used c Hv Hc.
  apply interval_type_INDEL_SV in Hv.
  cbv zeta. rewrite compare_record_unfold. cbv zeta. cbn [fst].
  set (ws := fst (window recA0 w)). set (we := snd (window recA0 w)).
  destruct (match_truth_keeps recA0 truth ws we
              (ms_variant (fst (match_target B recA0 vtype ws we used))))
    as [HB Halt].
  rewrite HB, Halt.
  pose proof (match_target_inv B recA0 vtype ws we used) as (_ & _ & Hbound).
  split.
  - intros b Hb Heq. destruct (Hbound b Hb) as [_ Hnone].
    specialize (Hnone Hv). rewrite Heq in Hnone. rewrite Hnone in Hc.
    destruct Hc as [? ?]. discriminate.
  - intros cands Hfetch Hret Hin Hm. unfold match_target. rewrite Hfetch.
    apply (for_try_known recA0 vtype used); auto.
    apply match_inv_init. reflexivity.
Qed.

Section Run.

Variable B : Reader.
Variable w_indel w_sv : Z.
Variable mask : option Mask.
Variable truth : option Reader.

Lemma bound_uids_snoc (l : list Variant) (v : Variant) :
  bound_uids (l ++ [v])
  = bound_uids l ++ match recB v with Some b => [sv_uid b] | None => [] end.
Proof.
  unfold bound_uids. rewrite omap_app. f_equal. simpl.
  destruct (recB v); reflexivity.
Qed.

Lemma classify_types (r : VcfRecord) (vtype : string) (w : Z) :
  classify r w_indel w_sv = (Some vtype, w) ->
  vtype = "SNV" \/ vtype = "INDEL" \/ vtype = "SV".
Proof.
  unfold classify.
  destruct (is_snp r); [intros [= <- _]; auto|].
  destruct (is_indel r); [intros [= <- _]; auto|].
  destruct (_ && _); [intros [= <- _]; auto|discriminate].
Qed.

Lemma compare_step_inv (rs rs' : RunState) (r : VcfRecord) :
  run_inv rs ->
  compare_step B w_indel w_sv mask truth rs r = Ret rs' ->
  run_inv rs'.
Proof.
  intros Hinv. unfold compare_step.
  destruct (masked mask r) as [[|]|]; cbn; try discriminate.
  { intros [= Heq]; subst rs'. exact Hinv. }
  destruct (classify r w_indel w_sv) as [[vtype|] w] eqn:Hcl.
  2:{ intros [= Heq]; subst rs'. exact Hinv. }
  destruct (compare_record_inv B truth r vtype w (rs_used rs))
    as (st & (Hgrow & _ & Hbound) & HB & Hused).
  destruct (compare_record B truth r vtype w (rs_used rs))
    as [[variant used'] warn].
  cbn [fst snd] in HB, Hused. subst used'. rewrite <- HB in Hbound.
  clear HB.
  unfold vartype_append.
  destruct (vartype (rs_cmp rs) !! vtype) as [l0|] eqn:Hl0; cbn.
  2:{ discriminate. }
  intros [= Heq]; subst rs'. unfold run_inv. simpl. intros l.
  rewrite lookup_insert. case_decide as Hvt.
  - subst vtype. intros [= Hl]; subst l.
    destruct (Hinv l0 Hl0) as [Hnd Hin].
    rewrite bound_uids_snoc. split.
    + apply NoDup_app. split; [exact Hnd|]. split.
      * intros u Hu Hu'. destruct (recB variant) as [b|] eqn:Eb;
          [|inversion Hu'].
        apply list_elem_of_singleton in Hu'. subst u.
        destruct (Hbound b eq_refl) as [_ Hnone].
        specialize (Hnone eq_refl). specialize (Hin _ Hu).
        rewrite Hnone in Hin. destruct Hin as [? ?]. discriminate.
      * destruct (recB variant); [apply NoDup_singleton|apply NoDup_nil_2].
    + intros u Hu. apply elem_of_app in Hu as [Hu|Hu].
      * apply Hgrow, Hin, Hu.
      * destruct (recB variant) as [b|] eqn:Eb; [|inversion Hu].
        apply list_elem_of_singleton in Hu. subst u.
        destruct (Hbound b eq_refl) as [-> _].
        rewrite lookup_insert_eq. eauto.
  - intros Hl. destruct (Hinv l Hl) as [Hnd Hin]. split; [exact Hnd|].
    intros u Hu. apply Hgrow, Hin, Hu.
Qed.

Lemma compare_loop_inv (recs : list VcfRecord) (rs rs' : RunState) :
  run_inv rs ->
  compare_loop (compare_step B w_indel w_sv mask truth) rs recs = Ret rs' ->
  run_inv rs'.
Proof.
  revert rs. induction recs as [|r recs IH]; intros rs Hinv; simpl.
  - intros [= Heq]; subst rs'. exact Hinv.
  - destruct (compare_step B w_indel w_sv mask truth rs r) as [rs1|ex] eqn:Hs;
      cbn; [|discriminate].
    apply IH. eapply compare_step_inv; eauto.
Qed.

End Run.

Lemma indel_bucket_NoDup (A B : Reader) (w_indel w_sv : Z)
    (mask : option Mask) (truth : option Reader) (chrom : option string)
    (fetch_start fetch_end : Z) (rs : RunState) (l : list Variant) :
  compareVCFs_run A B w_indel w_sv mask truth chrom fetch_start fetch_end
    = Ret rs ->
  vartype (rs_cmp rs) !! "INDEL" = Some l ->
  NoDup (bound_uids l).
Proof.
  unfold compareVCFs_run.
  destruct (fetch A chrom fetch_start fetch_end) as [recs|ex]; cbn;
    [|discriminate].
  intros Hrun Hl.
  eapply compare_loop_inv in Hrun.
  - apply (Hrun l Hl).
  - intros l0. simpl. rewrite lookup_insert_eq. intros [= <-].
    split; [apply NoDup_nil_2|]. intros u Hu. inversion Hu.
Qed.

Section FirstAccepted.

Variable recA0 : VcfRecord.
Variable vtype : string.

Hypothesis not_interval : interval_type vtype = false.

(** Once a target record is bound, the accepted candidates go to
    [altmatch]. *)
Lemma for_try_bound_appends (cands : list VcfRecord) (st : MatchState) :
  (forall x, x ∈ cands -> exists m, vcfVariantMatch recA0 x = Ret m) ->
  ms_match st = true ->
  recB (ms_variant (fst (for_try (match_body recA0 vtype) st cands)))
  = recB (ms_variant st)
  /\ altmatch (ms_variant (fst (for_try (match_body recA0 vtype) st cands)))
     = altmatch (ms_variant st) ++ List.filter (accepts recA0) cands.
Proof.
  revert st. induction cands as [|x cands IH]; intros st Hret Hst.
  - cbn [for_try fst List.filter]. rewrite app_nil_r. auto.
  - assert (Hrest : forall y, y ∈ cands ->
                      exists m, vcfVariantMatch recA0 y = Ret m).
    { intros y Hy. apply Hret. apply elem_of_cons. auto. }
    destruct (Hret x) as [m Hm]; [apply elem_of_cons; auto|].
    assert (Hacc : accepts recA0 x = m).
    { unfold accepts. rewrite Hm. destruct m; reflexivity. }
    cbn [for_try List.filter]. rewrite Hacc. unfold match_body at 1 3.
    rewrite Hm. cbn [mbind py_bind]. destruct m.
    + rewrite Hst.
      destruct (IH {| ms_variant := append_altmatch (ms_variant st) x;
                      ms_used := ms_used st; ms_match := true |} Hrest eq_refl)
        as [HB Halt].
      rewrite HB, Halt. cbn [ms_variant append_altmatch recB altmatch].
      rewrite <- app_assoc. auto.
    + apply IH; assumption.
Qed.

(** Outside the interval types the first accepted candidate is bound,
    whatever the identity map holds, and the later ones go to
    [altmatch]. *)
Lemma for_try_binds_first (cands : list VcfRecord) (st : MatchState) :
  (forall x, x ∈ cands -> exists m, vcfVariantMatch recA0 x = Ret m) ->
  ms_match st = false ->
  recB (ms_variant st) = None ->
  recB (ms_variant (fst (for_try (match_body recA0 vtype) st cands)))
  = head (List.filter (accepts recA0) cands)
  /\ altmatch (ms_variant (fst (for_try (match_body recA0 vtype) st cands)))
     = altmatch (ms_variant st) ++ tail (List.filter (accepts recA0) cands).
Proof.
  revert st. induction cands as [|x cands IH]; intros st Hret Hst HB.
  - cbn [for_try fst List.filter head tail]. rewrite app_nil_r. auto.
  - assert (Hrest : forall y, y ∈ cands ->
                      exists m, vcfVariantMatch recA0 y = Ret m).
    { intros y Hy. apply Hret. apply elem_of_cons. auto. }
    destruct (Hret x) as [m Hm]; [apply elem_of_cons; auto|].
    assert (Hacc : accepts recA0 x = m).
    { unfold accepts. rewrite Hm. destruct m; reflexivity. }
    cbn [for_try List.filter]. rewrite Hacc. unfold match_body at 1 3.
    rewrite Hm. cbn [mbind py_bind]. destruct m.
    + rewrite Hst, HB.
      rewrite (bool_decide_eq_true_2 (@None VcfRecord = None) eq_refl).
      cbn [py_assert mbind py_bind]. fold (interval_type vtype).
      rewrite not_interval. cbn [andb]. unfold set_left. rewrite HB.
      destruct (for_try_bound_appends cands
                  {| ms_variant :=
                       {| recA := recA (ms_variant st); recB := Some x;
                          recT := recT (ms_variant st);
                          altmatch := altmatch (ms_variant st) |};
                     ms_used := <[sv_uid x := recA0]> (ms_used st);
                     ms_match := true |} Hrest eq_refl) as [HB' Halt].
      rewrite HB', Halt. cbn [ms_variant recB altmatch head tail]. auto.
    + apply IH; assumption.
Qed.

End FirstAccepted.

(** An SNV pair: the first accepted candidate of the fetch is bound and
    the later accepted ones are the alternative matches. *)
Lemma snv_binds_first_accepted (B : Reader) (truth : option Reader)
    (recA0 : VcfRecord) (w : Z) (used : gmap string VcfRecord)
    (cands : list VcfRecord) :
  fetch B (Some (CHROM recA0)) (fst (window recA0 w)) (snd (window recA0 w))
    = Ret cands ->
  (forall x, x ∈ cands -> exists m, vcfVariantMatch recA0 x = Ret m) ->
  recB (fst (fst (compare_record B truth recA0 "SNV" w used)))
  = head (List.filter (accepts recA0) cands)
  /\ altmatch (fst (fst (compare_record B truth recA0 "SNV" w used)))
     = tail (List.filter (accepts recA0) cands).
Proof.
  intros Hfetch Hret. rewrite compare_record_unfold. cbv zeta. cbn [fst].
  destruct (match_truth_keeps recA0 truth (fst (window recA0 w))
              (snd (window recA0 w))
              (ms_variant (fst (match_target B recA0 "SNV"
                                  (fst (window recA0 w))
                                  (snd (window recA0 w)) used))))
    as [HB Halt].
  rewrite HB, Halt. unfold match_target. rewrite Hfetch.
  apply (for_try_binds_first recA0 "SNV" eq_refl cands
           {| ms_variant := new_variant recA0; ms_used := used;
              ms_match := false |} Hret eq_refl eq_refl).
Qed.

(** C1 (as amended): for a source record typed INDEL or SV, a target
    record whose identity key is already in the map is never bound as
    [recB] of the pair, and a matching one is in [altmatch] when the
    matcher returns on every candidate; the keys bound in the INDEL
    bucket of a completed run are pairwise different; an SNV pair binds
    the first candidate of the fetch that the matcher accepts, whatever
    the identity map holds, the later accepted ones going to
    [altmatch]. *)
Theorem bound_target_goes_to_altmatch :
  (forall (B : Reader) (truth : option Reader) (recA0 : VcfRecord)
          (vtype : string) (w : Z) (used : gmap string VcfRecord)
          (c : VcfRecord),
      vtype = "INDEL" \/ vtype = "SV" ->
      is_Some (used !! sv_uid c) ->
      let v := fst (fst (compare_record B truth recA0 vtype w used)) in
      (forall b, recB v = Some b -> sv_uid b <> sv_uid c)
      /\ (forall cands,
            fetch B (Some (CHROM recA0))
                  (fst (window recA0 w)) (snd (window recA0 w)) = Ret cands ->
            (forall x, x ∈ cands -> exists m, vcfVariantMatch recA0 x = Ret m) ->
            c ∈ cands ->
            vcfVariantMatch recA0 c = Ret true ->
            c ∈ altmatch v))
  /\ (forall (A B : Reader) (w_indel w_sv : Z) (mask : option Mask)
             (truth : option Reader) (chrom : option string)
             (fetch_start fetch_end : Z) (rs : RunState) (l : list Variant),
        compareVCFs_run A B w_indel w_sv mask truth chrom fetch_start fetch_end
          = Ret rs ->
        vartype (rs_cmp rs) !! "INDEL" = Some l ->
        NoDup (bound_uids l))
  /\ (forall (B : Reader) (truth : option Reader) (recA0 : VcfRecord) (w : Z)
             (used : gmap string VcfRecord) (cands : list VcfRecord),
        fetch B (Some (CHROM recA0))
              (fst (window recA0 w)) (snd (window recA0 w)) = Ret cands ->
        (forall x, x ∈ cands -> exists m, vcfVariantMatch recA0 x = Ret m) ->
        let v := fst (fst (compare_record B truth recA0 "SNV" w used)) in
        recB v = head (List.filter (accepts recA0) cands)
        /\ altmatch v = tail (List.filter (accepts recA0) cands)).
Proof.
  split; [|split].
  - exact known_target_step.
  - exact indel_bucket_NoDup.
  - exact snv_binds_first_accepted.
Qed.

Lemma bound_target_goes_to_altmatch_witness :
  ((forall b,
      recB (fst (fst (compare_record indels_B None indel_a2 "INDEL" 0
                        (<[sv_uid indel_b := indel_a1]> ∅)))) = Some b ->
      sv_uid b <> sv_uid indel_b)
   /\ indel_b ∈ altmatch (fst (fst (compare_record indels_B None indel_a2
                                      "INDEL" 0
                                      (<[sv_uid indel_b := indel_a1]> ∅)))))
  /\ NoDup (bound_uids
              [ {| recA := indel_a1; recB := Some indel_b; recT := None;
                   altmatch := [] |};
                {| recA := indel_a2; recB := None; recT := None;
                   altmatch := [indel_b] |} ])
  /\ recB (fst (fst (compare_record collection_B None snv_a2 "SNV" 0
                       (<[sv_uid snv_b := snv_a1]> ∅)))) = Some snv_b.
Proof.
  split; [|split].
  - destruct (proj1 bound_target_goes_to_altmatch indels_B None indel_a2
                "INDEL" 0 (<[sv_uid indel_b := indel_a1]> ∅) indel_b)
      as [Hnever Halt].
    + left. reflexivity.
    + vm_compute. eexists. reflexivity.
    + split; [exact Hnever|]. apply (Halt [indel_b]).
      * vm_compute. reflexivity.
      * intros x Hx. apply list_elem_of_singleton in Hx. subst x.
        exists true. vm_compute. reflexivity.
      * apply list_elem_of_singleton. reflexivity.
      * vm_compute. reflexivity.
  - apply (proj1 (proj2 bound_target_goes_to_altmatch) indels_A indels_B 0 1000
             None None None 0 1000000000
             {| rs_cmp :=
                  {| vartype :=
                       <["INDEL" :=
                           [ {| recA := indel_a1; recB := Some indel_b;
                                recT := None; altmatch := [] |};
                             {| recA := indel_a2; recB := None; recT := None;
                                altmatch := [indel_b] |} ]]>
                         (<["SNV" := []]> ∅) |};
                rs_used := <[sv_uid indel_b := indel_a1]> ∅;
                rs_err := [] |}).
    + vm_compute. reflexivity.
    + vm_compute. reflexivity.
  - etransitivity.
    + apply (proj1 (proj2 (proj2 bound_target_goes_to_altmatch)
                      collection_B None snv_a2 0
                      (<[sv_uid snv_b := snv_a1]> ∅) [snv_b]
                      ltac:(vm_compute; reflexivity)
                      ltac:(intros x Hx; apply list_elem_of_singleton in Hx;
                            subst x; exists true; vm_compute; reflexivity))).
    + vm_compute. reflexivity.
Defined.

(** C1, the claim as worded fails for SNV pairs: the source holds a
    call twice, the target once; the second pair finds the target
    record bound by the first (its key is in the map) and binds it
    again, with nothing in [altmatch]. *)
Lemma snv_target_bound_twice :
  exists rs : RunState,
    compareVCFs_run collection_A collection_B 0 1000 None None None
                    0 1000000000 = Ret rs
    /\ vartype (rs_cmp rs) !! "SNV"
       = Some [ {| recA := snv_a1; recB := Some snv_b; recT := None;
                   altmatch := [] |};
                {| recA := snv_a2; recB := Some snv_b; recT := None;
                   altmatch := [] |} ]
    /\ is_Some ((<[sv_uid snv_b := snv_a1]> ∅ : gmap string VcfRecord)
                !! sv_uid snv_b)
    /\ vcfVariantMatch snv_a2 snv_b = Ret true
    /\ fst (fst (compare_record collection_B None snv_a2 "SNV" 0
                   (<[sv_uid snv_b := snv_a1]> ∅)))
       = {| recA := snv_a2; recB := Some snv_b; recT := None;
            altmatch := [] |}.
Proof.
  eexists. split; [vm_compute; reflexivity|].
  split; [vm_compute; reflexivity|].
  split; [vm_compute; eexists; reflexivity|].
  split; vm_compute; reflexivity.
Qed.

(** A breakend in the source ends the run: the comparison has no
    ['SV'] bucket to append the pair to. *)
Lemma breakend_source_KeyError :
  classify bnd_pos3 0 1000 = (Some "SV", 1000)
  /\ compareVCFs (reader_of_list [bnd_pos3]) (reader_of_list [bnd_pos3])
                 0 1000 None None None 0 1000000000 = Raise KeyError.
Proof. split; vm_compute; reflexivity. Qed.

Section Truth.

Variable recA0 : VcfRecord.

Lemma match_body_recT (vtype : string) (st st' : MatchState) (rB : VcfRecord) :
  match_body recA0 vtype st rB = Ret st' ->
  recT (ms_variant st') = recT (ms_variant st).
Proof.
  unfold match_body.
  destruct (vcfVariantMatch recA0 rB) as [[|]|]; cbn; try discriminate.
  2:{ intros [= Heq]; subst st'. reflexivity. }
  destruct (ms_match st).
  { intros [= Heq]; subst st'. reflexivity. }
  destruct (py_assert _); cbn; try discriminate.
  destruct (_ && _).
  { intros [= Heq]; subst st'. reflexivity. }
  unfold set_left.
  destruct (recB (ms_variant st)); intros [= Heq]; subst st'; reflexivity.
Qed.

Lemma for_try_match_recT (vtype : string) (cands : list VcfRecord)
    (st : MatchState) :
  recT (ms_variant (fst (for_try (match_body recA0 vtype) st cands)))
  = recT (ms_variant st).
Proof.
  revert st. induction cands as [|c cands IH]; intros st; simpl; [reflexivity|].
  destruct (match_body recA0 vtype st c) as [st1|ex] eqn:Hb; [|reflexivity].
  rewrite IH. eapply match_body_recT; eauto.
Qed.

Lemma match_target_recT (B : Reader) (vtype : string) (ws we : Z)
    (used : gmap string VcfRecord) :
  recT (ms_variant (fst (match_target B recA0 vtype ws we used))) = None.
Proof.
  unfold match_target.
  destruct (fetch B (Some (CHROM recA0)) ws we) as [cands|ex]; [|reflexivity].
  rewrite for_try_match_recT. reflexivity.
Qed.

(** The truth loop leaves the last accepted record in [recT]. *)
Lemma for_try_truth_last (cands : list VcfRecord) (v : Variant) :
  (forall x, x ∈ cands -> exists m, vcfVariantMatch recA0 x = Ret m) ->
  recT (fst (for_try (truth_body recA0) v cands))
  = match last (List.filter (accepts recA0) cands) with
    | Some t => Some t
    | None => recT v
    end.
Proof.
  revert v. induction cands as [|x cands IH]; intros v Hret; [reflexivity|].
  assert (Hrest : forall y, y ∈ cands ->
                    exists m, vcfVariantMatch recA0 y = Ret m).
  { intros y Hy. apply Hret. apply elem_of_cons. auto. }
  destruct (Hret x) as [m Hm]; [apply elem_of_cons; auto|].
  assert (Hacc : accepts recA0 x = m).
  { unfold accepts. rewrite Hm. destruct m; reflexivity. }
  cbn [for_try List.filter]. rewrite Hacc. unfold truth_body at 1.
  rewrite Hm. cbn [mbind py_bind].
  destruct m.
  - rewrite (IH _ Hrest), last_cons.
    destruct (last (List.filter (accepts recA0) cands)); reflexivity.
  - apply IH, Hrest.
Qed.

End Truth.

(** C5 (as amended): with a truth collection supplied, the records of
    the truth fetch over the widened window are put to the matcher in
    fetch order and the last accepted one is bound as [recT]; with
    none accepted [recT] stays unset. *)
Theorem truth_binds_last_match (B t : Reader) (recA0 : VcfRecord)
    (vtype : string) (w : Z) (used : gmap string VcfRecord)
    (cands : list VcfRecord) :
  fetch t (Some (CHROM recA0)) (fst (window recA0 w)) (snd (window recA0 w))
    = Ret cands ->
  (forall x, x ∈ cands -> exists m, vcfVariantMatch recA0 x = Ret m) ->
  recT (fst (fst (compare_record B (Some t) recA0 vtype w used)))
  = last (List.filter (accepts recA0) cands).
Proof.
  intros Hfetch Hret. rewrite compare_record_unfold. cbv zeta. cbn [fst].
  unfold match_truth. rewrite Hfetch.
  rewrite (for_try_truth_last recA0 cands _ Hret), match_target_recT.
  destruct (last (List.filter (accepts recA0) cands)); reflexivity.
Qed.

Lemma truth_binds_last_match_witness :
  recT (fst (fst (compare_record collection_B (Some collection_T) snv_a1
                    "SNV" 0 ∅)))
  = last (List.filter (accepts snv_a1) [snv_t1; snv_t2]).
Proof.
  apply (truth_binds_last_match collection_B collection_T snv_a1 "SNV" 0 ∅
           [snv_t1; snv_t2]).
  - vm_compute. reflexivity.
  - intros x Hx. exists true.
    apply elem_of_cons in Hx as [->|Hx]; [vm_compute; reflexivity|].
    apply list_elem_of_singleton in Hx. subst x. vm_compute. reflexivity.
Defined.

(** C5, the claim as worded fails: the truth fetch gives two records
    the matcher accepts; the first is [snv_t1], the one bound is
    [snv_t2]. *)
Lemma truth_first_match_overwritten :
  fetch collection_T (Some (CHROM snv_a1))
        (fst (window snv_a1 0)) (snd (window snv_a1 0))
    = Ret [snv_t1; snv_t2]
  /\ head (List.filter (accepts snv_a1) [snv_t1; snv_t2]) = Some snv_t1
  /\ recT (fst (fst (compare_record collection_B (Some collection_T) snv_a1
                       "SNV" 0 ∅))) = Some snv_t2
  /\ snv_t1 <> snv_t2.
Proof.
  split; [vm_compute; reflexivity|].
  split; [vm_compute; reflexivity|].
  split; [vm_compute; reflexivity|].
  discriminate.
Qed.

Lemma fold_count (f : Variant -> bool) (l : list Variant) (acc : Z) :
  fold_left (fun x y => x + Z.b2z (f y)) l acc
  = acc + Z.of_nat (List.length (List.filter f l)).
Proof.
  revert acc. induction l as [|y l IH]; intros acc; simpl; [lia|].
  rewrite IH. destruct (f y); simpl List.length; simpl Z.b2z; lia.
Qed.

Lemma build_comparator_count (self : Comparison) (vtype0 vtype : string)
    (m pA pB sA sB t : bool) (l : list Variant) :
  vartype self !! vtype = Some l ->
  build_comparator self vtype0 m pA pB sA sB t vtype
  = Ret (count_pairs m pA pB sA sB t l).
Proof.
  intros Hl. unfold build_comparator, count_pairs.
  destruct t; rewrite Hl, fold_count, Z.add_0_l; do 3 f_equal;
    apply List.filter_ext; intros y; unfold counted; simpl.
  - destruct (is_true y); reflexivity.
  - rewrite andb_true_r. reflexivity.
Qed.

Section Dict.

Lemma od_get_set_eq (d : list (string * Z)) (k : string) (v : Z) :
  od_get (od_set d k v) k = Ret v.
Proof.
  induction d as [|[k' v'] d IH]; simpl.
  - rewrite String.eqb_refl. reflexivity.
  - destruct (String.eqb k' k) eqn:E; simpl; rewrite E; [reflexivity|exact IH].
Qed.

Lemma od_get_set_ne (d : list (string * Z)) (k k' : string) (v : Z) :
  k <> k' -> od_get (od_set d k v) k' = od_get d k'.
Proof.
  intros Hne. induction d as [|[k0 v0] d IH]; simpl.
  - destruct (String.eqb_spec k k'); [contradiction|reflexivity].
  - destruct (String.eqb_spec k0 k) as [->|Hk]; simpl.
    + destruct (String.eqb_spec k k'); [contradiction|reflexivity].
    + destruct (String.eqb_spec k0 k'); [reflexivity|exact IH].
Qed.

Lemma od_adds_cons (d : list (string * Z)) (k : string) (n : Z)
    (ops : list (string * Z)) :
  od_adds d ((k, n) :: ops) = (d1 ← od_add d k (Ret n); od_adds d1 ops).
Proof. reflexivity. Qed.

Lemma od_add_Ret (d : list (string * Z)) (k : string) (n c : Z) :
  od_get d k = Ret c -> od_add d k (Ret n) = Ret (od_set d k (c + n)).
Proof. intros Hc. unfold od_add. rewrite Hc. reflexivity. Qed.

Lemma od_add_Raise (d : list (string * Z)) (k : string) (n : py Z) (e : exn) :
  od_get d k = Raise e -> od_add d k n = Raise e.
Proof. intros Hc. unfold od_add. rewrite Hc. reflexivity. Qed.

Lemma od_adds_spec (ops : list (string * Z)) (d : list (string * Z)) :
  NoDup ops.*1 ->
  (forall k, k ∈ ops.*1 -> exists c, od_get d k = Ret c) ->
  exists d', od_adds d ops = Ret d'
    /\ (forall k n c, (k, n) ∈ ops -> od_get d k = Ret c ->
          od_get d' k = Ret (c + n))
    /\ (forall k, k ∉ ops.*1 -> od_get d' k = od_get d k).
Proof.
  revert d. induction ops as [|[k n] ops IH]; intros d Hnd Hkeys.
  - exists d. split; [reflexivity|]. split; [|reflexivity].
    intros k n c Hin. inversion Hin.
  - apply NoDup_cons in Hnd as [Hk Hnd].
    destruct (Hkeys k) as [c Hc]; [apply elem_of_cons; auto|].
    rewrite od_adds_cons, (od_add_Ret _ _ _ _ Hc). cbn [mbind py_bind].
    destruct (IH (od_set d k (c + n)) Hnd) as (d' & Hrun & Hin & Hout).
    { intros k' Hk'. destruct (Hkeys k') as [c' Hc']; [apply elem_of_cons; auto|].
      exists c'. rewrite od_get_set_ne; [exact Hc'|]. intros ->. contradiction. }
    exists d'. split; [exact Hrun|]. split.
    + intros k' n' c' Hin' Hc'. apply elem_of_cons in Hin' as [[= -> ->]|Hin'].
      * rewrite (Hout k Hk), od_get_set_eq. congruence.
      * eapply Hin; [exact Hin'|]. rewrite od_get_set_ne; [exact Hc'|].
        intros ->. apply Hk. apply list_elem_of_fmap. exists (k', n'). auto.
    + intros k' Hk'. rewrite Hout.
      * apply od_get_set_ne. intros ->. apply Hk'. apply elem_of_cons. auto.
      * intros Hin'. apply Hk'. apply elem_of_cons. auto.
Qed.

End Dict.

Section Categories.

Lemma product5_all (v : bool * bool * bool * bool * bool) : v ∈ product5.
Proof.
  destruct v as [[[[t pA] pB] sA] sB].
  apply (bool_decide_unpack _).
  destruct t, pA, pB, sA, sB; vm_compute; reflexivity.
Qed.

Lemma product3_all (v : bool * bool * bool) : In v product3.
Proof.
  destruct v as [[t pA] sA].
  destruct t, pA, sA; vm_compute; tauto.
Qed.

Lemma mhnames_NoDup : NoDup (List.map mhname product5).
Proof. apply (bool_decide_unpack _). vm_compute. reflexivity. Qed.

Lemma unm_keys_NoDup :
  NoDup (flat_map (fun v => ["A_" +:+ uhname v; "B_" +:+ uhname v]) product3).
Proof. apply (bool_decide_unpack _). vm_compute. reflexivity. Qed.

Lemma mat_cats_init (v : bool * bool * bool * bool * bool) :
  od_get (mat_cats Summary_init) (mhname v) = Ret 0.
Proof.
  destruct v as [[[[t pA] pB] sA] sB].
  destruct t, pA, pB, sA, sB; vm_compute; reflexivity.
Qed.

Lemma unm_cats_init (v : bool * bool * bool) :
  od_get (unm_cats Summary_init) ("A_" +:+ uhname v) = Ret 0
  /\ od_get (unm_cats Summary_init) ("B_" +:+ uhname v) = Ret 0.
Proof.
  destruct v as [[t pA] sA].
  destruct t, pA, sA; split; vm_compute; reflexivity.
Qed.

End Categories.

Section OneSegment.

Variables cAB cBA : Comparison.

Variable vtype : string.

Variables lAB lBA : list Variant.

Hypothesis HAB : vartype cAB !! vtype = Some lAB.

Hypothesis HBA : vartype cBA !! vtype = Some lBA.

Lemma for_each_cons {S A : Type} (body : S -> A -> py S) (s : S) (a : A)
    (l : list A) :
  for_each body s (a :: l) = (s' ← body s a; for_each body s' l).
Proof. reflexivity. Qed.

Lemma matched_stats_eq (S : Summary) (t pA pB sA sB : bool) :
  matched_stats cAB vtype S
    (mhname (t, pA, pB, sA, sB), mhbools (t, pA, pB, sA, sB))
  = (m ← od_add (mat_cats S) (mhname (t, pA, pB, sA, sB))
             (Ret (count_pairs true pA pB sA sB t lAB));
     Ret {| info := info S; unm_cats := unm_cats S; mat_cats := m |}).
Proof.
  unfold matched_stats. cbn [mhbools unpack6 mbind py_bind].
  rewrite (build_comparator_count _ _ _ _ _ _ _ _ _ _ HAB). reflexivity.
Qed.

Lemma unmatched_stats_eq (S : Summary) (t pA sA : bool) :
  unmatched_stats cAB cBA vtype S
    (uhname (t, pA, sA), uhbools (t, pA, sA))
  = (u1 ← od_add (unm_cats S) ("A_" +:+ uhname (t, pA, sA))
              (Ret (count_pairs false pA false sA false t lAB));
     u2 ← od_add u1 ("B_" +:+ uhname (t, pA, sA))
              (Ret (count_pairs false pA false sA false t lBA));
     Ret {| info := info S; unm_cats := u2; mat_cats := mat_cats S |}).
Proof.
  unfold unmatched_stats. cbn [uhbools unpack4 mbind py_bind].
  rewrite (build_comparator_count _ _ _ _ _ _ _ _ _ _ HAB).
  rewrite (build_comparator_count _ _ _ _ _ _ _ _ _ _ HBA). reflexivity.
Qed.

Lemma matched_loop (vs : list (bool * bool * bool * bool * bool))
    (S : Summary) :
  for_each (matched_stats cAB vtype) S
           (List.map (fun v => (mhname v, mhbools v)) vs)
  = (m ← od_adds (mat_cats S)
                 (List.map (fun v => (mhname v, matched_count lAB v)) vs);
     Ret {| info := info S; unm_cats := unm_cats S; mat_cats := m |}).
Proof.
  revert S. induction vs as [|v vs IH]; intros S.
  - destruct S. reflexivity.
  - destruct v as [[[[t pA] pB] sA] sB].
    cbn [List.map]. rewrite for_each_cons, od_adds_cons, matched_stats_eq.
    cbn [matched_count].
    destruct (od_get (mat_cats S) (mhname (t, pA, pB, sA, sB))) as [c|e] eqn:Hc.
    + rewrite (od_add_Ret _ _ _ _ Hc). cbn [mbind py_bind]. rewrite IH.
      reflexivity.
    + rewrite (od_add_Raise _ _ _ _ Hc). reflexivity.
Qed.

Lemma unmatched_loop (vs : list (bool * bool * bool)) (S : Summary) :
  for_each (unmatched_stats cAB cBA vtype) S
           (List.map (fun v => (uhname v, uhbools v)) vs)
  = (u ← od_adds (unm_cats S)
                 (flat_map (fun v =>
                              [("A_" +:+ uhname v, unmatched_count lAB v);
                               ("B_" +:+ uhname v, unmatched_count lBA v)])
                           vs);
     Ret {| info := info S; unm_cats := u; mat_cats := mat_cats S |}).
Proof.
  revert S. induction vs as [|v vs IH]; intros S.
  - destruct S. reflexivity.
  - destruct v as [[t pA] sA].
    cbn [List.map flat_map app].
    rewrite for_each_cons, !od_adds_cons, unmatched_stats_eq.
    cbn [unmatched_count].
    destruct (od_get (unm_cats S) ("A_" +:+ uhname (t, pA, sA)))
      as [c|e] eqn:Hc.
    2:{ rewrite (od_add_Raise _ _ _ _ Hc). reflexivity. }
    rewrite (od_add_Ret _ _ _ _ Hc). cbn [mbind py_bind].
    rewrite od_adds_cons.
    destruct (od_get (od_set (unm_cats S) ("A_" +:+ uhname (t, pA, sA))
                             (c + count_pairs false pA false sA false t lAB))
                     ("B_" +:+ uhname (t, pA, sA))) as [c'|e] eqn:Hc'.
    2:{ rewrite (od_add_Raise _ _ _ _ Hc'). reflexivity. }
    rewrite (od_add_Ret _ _ _ _ Hc'). cbn [mbind py_bind]. rewrite IH.
    reflexivity.
Qed.

Lemma segment_counts (S : Summary) :
  unm_cats S = unm_cats Summary_init ->
  mat_cats S = mat_cats Summary_init ->
  exists S', summary_segment vtype S (cAB, cBA) = Ret S'
    /\ info S' = info S
    /\ (forall t pA pB sA sB,
          od_get (mat_cats S') (mhname (t, pA, pB, sA, sB))
          = Ret (count_pairs true pA pB sA sB t lAB))
    /\ (forall t pA sA,
          od_get (unm_cats S') ("A_" +:+ uhname (t, pA, sA))
          = Ret (count_pairs false pA false sA false t lAB)
          /\ od_get (unm_cats S') ("B_" +:+ uhname (t, pA, sA))
             = Ret (count_pairs false pA false sA false t lBA)).
Proof.
  intros Hu Hm. unfold summary_segment.
  change (zip (snd (fst get_sumheader_names)) (snd (fst get_sumheader_bools)))
    with (List.map (fun v => (uhname v, uhbools v)) product3).
  change (zip (snd get_sumheader_names) (snd get_sumheader_bools))
    with (List.map (fun v => (mhname v, mhbools v)) product5).
  rewrite unmatched_loop, Hu.
  destruct (od_adds_spec
              (flat_map (fun v =>
                           [("A_" +:+ uhname v, unmatched_count lAB v);
                            ("B_" +:+ uhname v, unmatched_count lBA v)])
                        product3)
              (unm_cats Summary_init)) as (u & Hrun & Hin & _).
  { exact unm_keys_NoDup. }
  { intros k Hk. apply list_elem_of_fmap in Hk as ([k' n] & -> & Hk).
    apply list_elem_of_In, in_flat_map in Hk as (v & _ & Hk).
    destruct (unm_cats_init v) as [HA HB].
    destruct Hk as [[= <- _]|[[= <- _]|[]]]; eauto. }
  rewrite Hrun. cbn [mbind py_bind]. rewrite matched_loop. cbn [mat_cats].
  rewrite Hm.
  destruct (od_adds_spec
              (List.map (fun v => (mhname v, matched_count lAB v)) product5)
              (mat_cats Summary_init)) as (m & Hrunm & Hinm & _).
  { exact mhnames_NoDup. }
  { intros k Hk. apply list_elem_of_fmap in Hk as ([k' n] & -> & Hk).
    apply list_elem_of_fmap in Hk as (v & [= -> _] & _).
    exists 0. apply mat_cats_init. }
  rewrite Hrunm. cbn [mbind py_bind].
  eexists. split; [reflexivity|]. split; [reflexivity|]. cbn [mat_cats unm_cats].
  split.
  - intros t pA pB sA sB.
    rewrite (Hinm _ (matched_count lAB (t, pA, pB, sA, sB)) 0).
    + reflexivity.
    + apply (list_elem_of_fmap_2 (fun v => (mhname v, matched_count lAB v))).
      apply product5_all.
    + apply mat_cats_init.
  - intros t pA sA. destruct (unm_cats_init (t, pA, sA)) as [HA HB]. split.
    + rewrite (Hin _ (unmatched_count lAB (t, pA, sA)) 0).
      * reflexivity.
      * apply list_elem_of_In, in_flat_map. exists (t, pA, sA). split.
        -- apply product3_all.
        -- left. reflexivity.
      * exact HA.
    + rewrite (Hin _ (unmatched_count lBA (t, pA, sA)) 0).
      * reflexivity.
      * apply list_elem_of_In, in_flat_map. exists (t, pA, sA). split.
        -- apply product3_all.
        -- right. left. reflexivity.
      * exact HB.
Qed.

End OneSegment.

Section SummaryCounts.

Variables cAB cBA : Comparison.

Lemma summary_vtype_lookup (keys : list string) (s0 s : gmap string Summary)
    (vtype : string) (S : Summary) :
  for_each (summary_vtype [cAB] [cBA]) s0 keys = Ret s ->
  s !! vtype = Some S ->
  s0 !! vtype = Some S
  \/ exists S0 : Summary,
       unm_cats S0 = unm_cats Summary_init
       /\ mat_cats S0 = mat_cats Summary_init
       /\ summary_segment vtype S0 (cAB, cBA) = Ret S.
Proof.
  revert s0. induction keys as [|k keys IH]; intros s0.
  - intros [= Heq]; subst s. auto.
  - rewrite for_each_cons.
    destruct (summary_vtype [cAB] [cBA] s0 k) as [s1|e] eqn:Hk;
      cbn [mbind py_bind]; [|discriminate].
    intros Hrun HS. destruct (IH s1 Hrun HS) as [Hs1|Hdone]; [|auto].
    revert Hk. unfold summary_vtype. cbn [first mbind py_bind].
    destruct (py_assert _); cbn [mbind py_bind]; [|discriminate].
    cbn [zip zip_with]. rewrite for_each_cons.
    destruct (summary_segment k _ (cAB, cBA)) as [Sk|e] eqn:Hseg;
      cbn [mbind py_bind for_each]; [|discriminate].
    intros [= Heq]; subst s1. rewrite lookup_insert in Hs1.
    case_decide as Hkv.
    + subst k. injection Hs1 as ->. right. eexists. split; [|split; [|exact Hseg]];
        reflexivity.
    + auto.
Qed.

(** C4 (as amended): in the summary of one A-->B and one B-->A
    comparison, the count under a category name is the number of pairs
    of the type's bucket whose predicates matched, passA, passB,
    somaticA, somaticB equal the category's; a truth category counts
    only those with a truth record, an overall category counts them
    with or without one; unmatched categories read the A-->B bucket
    under [A_] and the B-->A bucket under [B_]. *)
Theorem category_counts (s : gmap string Summary) (err : list string)
    (vtype : string) (S : Summary) (lAB lBA : list Variant) :
  summary [cAB] [cBA] = Ret (s, err) ->
  s !! vtype = Some S ->
  vartype cAB !! vtype = Some lAB ->
  vartype cBA !! vtype = Some lBA ->
  (forall vtype0 m pA pB sA sB t,
      build_comparator cAB vtype0 m pA pB sA sB t vtype
      = Ret (count_pairs m pA pB sA sB t lAB))
  /\ (forall t pA pB sA sB,
        od_get (mat_cats S) (mhname (t, pA, pB, sA, sB))
        = Ret (count_pairs true pA pB sA sB t lAB))
  /\ (forall t pA sA,
        od_get (unm_cats S) ("A_" +:+ uhname (t, pA, sA))
        = Ret (count_pairs false pA false sA false t lAB)
        /\ od_get (unm_cats S) ("B_" +:+ uhname (t, pA, sA))
           = Ret (count_pairs false pA false sA false t lBA)).
Proof.
  intros Hsum HS HAB HBA. split.
  { intros. apply build_comparator_count, HAB. }
  revert Hsum. unfold summary. cbn [first mbind py_bind].
  destruct (for_each _ ∅ _) as [s'|e] eqn:Hrun; cbn [mbind py_bind];
    [|discriminate].
  intros [= Heq _]; subst s'.
  destruct (summary_vtype_lookup _ _ _ _ _ Hrun HS)
    as [Hempty|(S0 & Hu & Hm & Hseg)].
  { rewrite lookup_empty in Hempty. discriminate. }
  destruct (segment_counts cAB cBA vtype lAB lBA HAB HBA S0 Hu Hm)
    as (S' & Hseg' & _ & Hmat & Hunm).
  rewrite Hseg in Hseg'. injection Hseg' as ->. auto.
Qed.

End SummaryCounts.

Lemma category_counts_witness :
  exists (s : gmap string Summary) (S : Summary),
    summary [truth_cmp] [truth_cmp_BA] = Ret (s, [])
    /\ s !! "SNV" = Some S
    /\ od_get (mat_cats S) "matched_pass_fail_germline_germline_overall"
       = Ret (count_pairs true true false false false false [truth_pair]).
Proof.
  eexists _, _. split; [vm_compute; reflexivity|].
  split; [vm_compute; reflexivity|].
  refine (proj1 (proj2 (category_counts truth_cmp truth_cmp_BA _ [] "SNV" _
                          [truth_pair] _ _ _ _ _))
                false true false false false).
  - vm_compute. reflexivity.
  - vm_compute. reflexivity.
  - vm_compute. reflexivity.
  - vm_compute. reflexivity.
Defined.

(** C4, the claim as worded fails: a matched pair with a truth record
    has the vector of the truth category, not of the overall one, and
    is counted under both names. *)
Lemma overall_counts_truth_pairs :
  compareVCFs (reader_of_list [snv_a1]) collection_B 0 1000 None
              (Some collection_T) None 0 1000000000 = Ret truth_cmp
  /\ compareVCFs collection_B (reader_of_list [snv_a1]) 0 1000 None
                 (Some collection_T) None 0 1000000000 = Ret truth_cmp_BA
  /\ predicates truth_pair = [true; true; false; false; false; true]
  /\ mhbools (false, true, false, false, false)
     = [true; true; false; false; false; false]
  /\ spec_category_count [truth_pair] (mhbools (false, true, false, false, false))
     = 0
  /\ build_comparator truth_cmp "SNV" true true false false false false "SNV"
     = Ret 1
  /\ (exists (s : gmap string Summary) (S : Summary),
        summary [truth_cmp] [truth_cmp_BA] = Ret (s, [])
        /\ s !! "SNV" = Some S
        /\ od_get (mat_cats S) (mhname (false, true, false, false, false))
           = Ret 1
        /\ od_get (mat_cats S) (mhname (true, true, false, false, false))
           = Ret 1).
Proof.
  split; [vm_compute; reflexivity|].
  split; [vm_compute; reflexivity|].
  split; [vm_compute; reflexivity|].
  split; [vm_compute; reflexivity|].
  split; [vm_compute; reflexivity|].
  split; [vm_compute; reflexivity|].
  eexists _, _. split; [vm_compute; reflexivity|].
  split; [vm_compute; reflexivity|].
  split; vm_compute; reflexivity.
Qed.

Section Supporting.

(** [summary] writes no warning, whatever the comparisons: the two
    totals it compares are the constant 0. *)
Lemma summary_never_warns (compAB_list compBA_list : list Comparison)
    (s : gmap string Summary) (err : list string) :
  summary compAB_list compBA_list = Ret (s, err) -> err = [].
Proof.
  unfold summary.
  destruct (first compAB_list) as [cAB0|e]; cbn [mbind py_bind];
    [|discriminate].
  destruct (for_each _ ∅ _) as [s'|e]; cbn [mbind py_bind]; [|discriminate].
  intros [= _ Herr]. subst err.
  induction ((map_to_list s').*1) as [|k ks IH]; [reflexivity|exact IH].
Qed.

(** The two somatic tests, clause by clause. *)
Lemma recA_somatic_rule (y : Variant) :
  recA_somatic y
  = rec_somatic_ss (recA y)
    || (info_truthy (recA y) "SOMATIC"
        && negb (bool_decide (ss_upper (recA y) = "LOH")))
    || (negb (info_truthy (recA y) "SOMATIC") && somatic_in_format (recA y)).
Proof.
  unfold recA_somatic.
  destruct (rec_somatic_ss (recA y)); [reflexivity|].
  destruct (info_truthy (recA y) "SOMATIC"); simpl.
  - destruct (bool_decide (ss_upper (recA y) = "LOH")); reflexivity.
  - destruct (somatic_in_format (recA y)); reflexivity.
Qed.

Lemma recB_somatic_rule (y : Variant) :
  recB_somatic y
  = match recB y with
    | Some rB =>
        rec_somatic_ss rB || info_truthy rB "SOMATIC" || somatic_in_format rB
    | None => false
    end.
Proof.
  unfold recB_somatic, matched. destruct (recB y) as [rB|]; [|reflexivity].
  simpl. destruct (rec_somatic_ss rB); [reflexivity|].
  destruct (info_truthy rB "SOMATIC"); [reflexivity|].
  destruct (somatic_in_format rB); reflexivity.
Qed.

(** Bisection: both halves have length [length/2]; they tile the
    parent when the length is even and leave one base out when it is
    odd. *)
Lemma bisect_lengths (seg : Segment) :
  length (left seg) = length seg / 2 /\ length (right seg) = length seg / 2.
Proof. unfold left, right. simpl. split; lia. Qed.

Lemma bisect_even (seg : Segment) :
  length seg = seg_end seg - seg_start seg ->
  Z.even (length seg) = true ->
  seg_end (left seg) = seg_start (right seg)
  /\ length (left seg) + length (right seg) = length seg.
Proof.
  intros Hlen Heven. apply Z.even_spec in Heven as [k Hk].
  unfold left, right. simpl. rewrite Hk in *.
  replace (2 * k / 2) with k by (rewrite Z.mul_comm, Z.div_mul; lia). lia.
Qed.

Lemma bisect_odd (seg : Segment) :
  length seg = seg_end seg - seg_start seg ->
  Z.odd (length seg) = true ->
  seg_start (right seg) = seg_end (left seg) + 1
  /\ length (left seg) + length (right seg) = length seg - 1.
Proof.
  intros Hlen Hodd. apply Z.odd_spec in Hodd as [k Hk].
  unfold left, right. simpl. rewrite Hk in *.
  replace ((2 * k + 1) / 2) with k
    by (apply (Z.div_unique (2 * k + 1) 2 k 1); lia).
  lia.
Qed.

Lemma insert_seg_length (x : Segment) (l : list Segment) :
  List.length (insert_seg x l) = S (List.length l).
Proof.
  induction l as [|y l IH]; simpl; [reflexivity|].
  destruct (length x <=? length y); simpl; [reflexivity|]. rewrite IH.
  reflexivity.
Qed.

Lemma sort_segs_length (l : list Segment) :
  List.length (sort_segs l) = List.length l.
Proof.
  induction l as [|x l IH]; simpl; [reflexivity|].
  rewrite insert_seg_length, IH. reflexivity.
Qed.

Lemma pop_length {A : Type} (l rest : list A) (x : A) :
  pop l = Ret (rest, x) -> List.length l = S (List.length rest).
Proof.
  unfold pop. destruct (reverse l) as [|y r] eqn:Hrev; [discriminate|].
  intros [= <- <-].
  rewrite <- (reverse_involutive l), Hrev, reverse_cons, length_app,
    !length_reverse.
  simpl. lia.
Qed.

(** The loop [while n > len(segs)] makes [n - len(segs)] turns: each
    turn of [bisect_longest] adds one segment, and the loop raises
    only on an empty list. *)
Lemma bisect_longest_length (turns : nat) (segs segs' : list Segment) :
  bisect_longest turns segs = Ret segs' ->
  List.length segs' = (List.length segs + turns)%nat.
Proof.
  revert segs. induction turns as [|turns IH]; intros segs; simpl.
  - intros [= <-]. lia.
  - destruct (pop segs) as [[rest big]|e] eqn:Hpop; cbn [mbind py_bind];
      [|discriminate].
    intros Hrun. apply IH in Hrun. rewrite Hrun, sort_segs_length, length_app.
    apply pop_length in Hpop. simpl. lia.
Qed.

Lemma bisect_longest_returns (turns : nat) (segs : list Segment) :
  segs <> [] -> exists segs', bisect_longest turns segs = Ret segs'.
Proof.
  revert segs. induction turns as [|turns IH]; intros segs Hne; simpl.
  - eauto.
  - unfold pop. destruct (reverse segs) as [|y r] eqn:Hrev.
    + exfalso. apply Hne. rewrite <- (reverse_involutive segs), Hrev.
      reflexivity.
    + cbn [mbind py_bind]. apply IH. intros Hnil.
      apply (f_equal List.length) in Hnil.
      rewrite sort_segs_length, length_app in Hnil. simpl in Hnil. lia.
Qed.

End Supporting.

Section BreakendMatch.

Variables recA0 recB0 : VcfRecord.
Variables altA altB : string.
Variables iv_a iv_b : Z * Z.

Hypothesis not_snp : is_snp recA0 && is_snp recB0 = false.
Hypothesis not_indel : is_indel recA0 && is_indel recB0 = false.
Hypothesis svA : is_sv recA0 = true.
Hypothesis svB : is_sv recB0 = true.
Hypothesis bndA : INFO recA0 !! "SVTYPE" = Some (VStr "BND").
Hypothesis bndB : INFO recB0 !! "SVTYPE" = Some (VStr "BND").
Hypothesis firstA : first (ALT recA0) = Ret altA.
Hypothesis firstB : first (ALT recB0) = Ret altB.
Hypothesis ivA : get_conf_interval recA0 0 = Ret iv_a.
Hypothesis ivB : get_conf_interval recB0 0 = Ret iv_b.

(** What the matcher computes on two breakends: equal orientation and
    a positive sum of the overlap bounds. *)
Lemma bnd_match_sum :
  vcfVariantMatch recA0 recB0
  = Ret (bool_decide (orientSV altA = orientSV altB)
         && (fst (get_overlap_coords iv_a iv_b)
             + snd (get_overlap_coords iv_a iv_b) >? 0)).
Proof.
  unfold vcfVariantMatch. rewrite not_snp, not_indel, svA, svB, bndA, bndB.
  cbn [andb].
  rewrite (bool_decide_eq_true_2 (Some (VStr "BND") = Some (VStr "BND")) eq_refl).
  cbn [andb]. rewrite firstA, firstB. cbn [mbind py_bind].
  destruct (bool_decide (orientSV altA = orientSV altB)); [|reflexivity].
  unfold vcfIntervalMatch. rewrite bndA, bndB, ivA, ivB.
  rewrite (bool_decide_eq_true_2 (Some (VStr "BND") = Some (VStr "BND")) eq_refl).
  reflexivity.
Qed.

(** With both interval starts at or above 0 this is the rule of
    section 4.2: equal orientation and an overlap of positive length. *)
Lemma bnd_match_nonneg :
  0 <= fst iv_a -> 0 <= fst iv_b ->
  vcfVariantMatch recA0 recB0
  = Ret (bool_decide (orientSV altA = orientSV altB)
         && (snd (get_overlap_coords iv_a iv_b)
             - fst (get_overlap_coords iv_a iv_b) >? 0)).
Proof.
  intros Ha Hb. rewrite bnd_match_sum. do 2 f_equal.
  unfold get_overlap_coords.
  destruct (Z.gtb_spec (Z.min (snd iv_a) (snd iv_b)
                        - Z.max (fst iv_a) (fst iv_b)) 0) as [Hov|Hno];
    cbn [fst snd]; [|reflexivity].
  assert (Hs : 0 < Z.max (fst iv_a) (fst iv_b)
                   + Z.min (snd iv_a) (snd iv_b)) by lia.
  destruct (Z.gtb_spec (Z.max (fst iv_a) (fst iv_b)
                        + Z.min (snd iv_a) (snd iv_b)) 0);
    destruct (Z.gtb_spec (Z.min (snd iv_a) (snd iv_b)
                          - Z.max (fst iv_a) (fst iv_b)) 0);
    try reflexivity; lia.
Qed.

End BreakendMatch.

Lemma bnd_match_nonneg_witness :
  vcfVariantMatch bnd_cipos bnd_cipos = Ret true.
Proof.
  apply (bnd_match_nonneg bnd_cipos bnd_cipos "G[chr5:700[" "G[chr5:700["
           (95, 121) (95, 121)); try reflexivity; simpl; lia.
Defined.

(** * Further properties of the code *)

Section Score.

Lemma overlap_comm (iv_a iv_b : Z * Z) :
  get_overlap_coords iv_a iv_b = get_overlap_coords iv_b iv_a.
Proof.
  unfold get_overlap_coords.
  rewrite (Z.min_comm (snd iv_a)), (Z.max_comm (fst iv_a)). reflexivity.
Qed.

Lemma assert_Ret (b : bool) (u : unit) : py_assert b = Ret u -> b = true.
Proof. destruct b; [reflexivity|discriminate]. Qed.

(** What a returned score is made of. *)
Lemma interval_score_inv (p : Variant) (q : Q) :
  interval_score p = Ret q ->
  exists (rB : VcfRecord) (sa ea sb eb : Z),
    recB p = Some rB
    /\ get_conf_interval (recA p) 0 = Ret (sa, ea)
    /\ get_conf_interval rB 0 = Ret (sb, eb)
    /\ 0 < Z.min ea eb - Z.max sa sb
    /\ sa < ea /\ sb < eb
    /\ q = Qmake (2 * (Z.min ea eb - Z.max sa sb))
                 (Z.to_pos (ea - sa + (eb - sb))).
Proof.
  unfold interval_score.
  destruct (get_conf_interval (recA p) 0) as [[sa ea]|] eqn:Ha;
    cbn [mbind py_bind]; [|discriminate].
  destruct (recB p) as [rB|]; cbn [mbind py_bind]; [|discriminate].
  destruct (get_conf_interval rB 0) as [[sb eb]|] eqn:Hb;
    cbn [mbind py_bind]; [|discriminate].
  unfold get_overlap_coords. cbn [fst snd].
  destruct (Z.gtb_spec (Z.min ea eb - Z.max sa sb) 0) as [Hov|Hno];
    cbn [fst snd py_assert mbind py_bind]; [|discriminate].
  rewrite (proj2 (Z.gtb_lt _ 0) Hov). cbn [mbind py_bind].
  destruct (Z.gtb_spec (ea - sa) 0); cbn [mbind py_bind]; [|discriminate].
  destruct (Z.gtb_spec (eb - sb) 0); cbn [mbind py_bind]; [|discriminate].
  intros [= <-]. exists rB, sa, ea, sb, eb. repeat split; auto; lia.
Qed.

(** X1: a score that [interval_score] returns is greater than 0 and at
    most 1, and it is 1 when the two confidence intervals are equal. *)
Theorem interval_score_range (p : Variant) (rB : VcfRecord)
    (iv_a iv_b : Z * Z) (q : Q) :
  interval_score p = Ret q ->
  recB p = Some rB ->
  get_conf_interval (recA p) 0 = Ret iv_a ->
  get_conf_interval rB 0 = Ret iv_b ->
  (0 < q)%Q /\ (q <= 1)%Q /\ (iv_a = iv_b -> (q == 1)%Q).
Proof.
  intros Hq HB Ha Hb.
  destruct (interval_score_inv p q Hq)
    as (rB' & sa & ea & sb & eb & HB' & Ha' & Hb' & Hov & Hla & Hlb & ->).
  rewrite HB in HB'. injection HB' as <-.
  rewrite Ha in Ha'. injection Ha' as ->.
  rewrite Hb in Hb'. injection Hb' as ->.
  unfold Qlt, Qle, Qeq. cbn [Qnum Qden].
  rewrite Z2Pos.id by lia.
  split; [lia|]. split; [lia|].
  intros [= -> ->]. lia.
Qed.

(** X2: the score does not depend on the direction of the pair: the
    pair with source and target record exchanged gets the same score. *)
Theorem interval_score_sym (p : Variant) (rB : VcfRecord) (q : Q) :
  interval_score p = Ret q ->
  recB p = Some rB ->
  interval_score (swap_pair p rB) = Ret q.
Proof.
  intros Hq HB.
  destruct (interval_score_inv p q Hq)
    as (rB' & sa & ea & sb & eb & HB' & Ha & Hb & Hov & Hla & Hlb & ->).
  rewrite HB in HB'. injection HB' as <-.
  unfold interval_score, swap_pair. cbn [recA recB].
  rewrite Hb. cbn [mbind py_bind]. rewrite Ha. cbn [mbind py_bind].
  rewrite overlap_comm. unfold get_overlap_coords. cbn [fst snd].
  rewrite (proj2 (Z.gtb_lt _ 0) Hov). cbn [fst snd py_assert].
  rewrite (proj2 (Z.gtb_lt _ 0) Hov). cbn [mbind py_bind].
  rewrite (proj2 (Z.gtb_lt (eb - sb) 0)) by lia. cbn [mbind py_bind].
  rewrite (proj2 (Z.gtb_lt (ea - sa) 0)) by lia. cbn [mbind py_bind].
  rewrite (Z.add_comm (eb - sb)). reflexivity.
Qed.

End Score.

Section MatcherSym.

Lemma bool_decide_sym {A : Type} `{EqDecision A} (x y : A) :
  bool_decide (x = y) = bool_decide (y = x).
Proof. apply bool_decide_ext. split; congruence. Qed.

Lemma vcfIntervalMatch_sym (recA0 recB0 : VcfRecord) (m : bool) :
  vcfIntervalMatch recA0 recB0 = Ret m -> vcfIntervalMatch recB0 recA0 = Ret m.
Proof.
  unfold vcfIntervalMatch.
  rewrite (bool_decide_sym (INFO recB0 !! "SVTYPE")).
  destruct (py_assert _); cbn [mbind py_bind]; [|discriminate].
  destruct (get_conf_interval recA0 0) as [iv_a|]; cbn [mbind py_bind];
    [|discriminate].
  destruct (get_conf_interval recB0 0) as [iv_b|]; cbn [mbind py_bind];
    [|discriminate].
  rewrite (overlap_comm iv_b iv_a). auto.
Qed.

(** X3: the matcher is symmetric: when it returns on (recA, recB) it
    returns the same answer on (recB, recA). *)
Theorem vcfVariantMatch_sym (recA0 recB0 : VcfRecord) (m : bool) :
  vcfVariantMatch recA0 recB0 = Ret m -> vcfVariantMatch recB0 recA0 = Ret m.
Proof.
  unfold vcfVariantMatch.
  rewrite (andb_comm (is_snp recB0)), (andb_comm (is_indel recB0)),
    (andb_comm (is_sv recB0)), (Z.eqb_sym (POS recB0)),
    (bool_decide_sym (REF recB0)), (bool_decide_sym (ALT recB0)).
  destruct (is_snp recA0 && is_snp recB0
            && ((POS recA0 =? POS recB0) && bool_decide (REF recA0 = REF recB0)
                && bool_decide (ALT recA0 = ALT recB0))); [auto|].
  destruct (is_indel recA0 && is_indel recB0
            && (bool_decide (REF recA0 = REF recB0)
                && bool_decide (ALT recA0 = ALT recB0))); [auto|].
  destruct (is_sv recA0 && is_sv recB0); cbn [andb]; [|auto].
  destruct (decide (INFO recA0 !! "SVTYPE" = INFO recB0 !! "SVTYPE"))
    as [Heq|Hne].
  2:{ rewrite (bool_decide_eq_false_2 _ Hne).
      rewrite (bool_decide_eq_false_2 (INFO recB0 !! "SVTYPE"
                                       = INFO recA0 !! "SVTYPE"))
        by congruence.
      auto. }
  rewrite Heq.
  rewrite (bool_decide_eq_true_2 (INFO recB0 !! "SVTYPE"
                                  = INFO recB0 !! "SVTYPE") eq_refl).
  cbn [andb].
  destruct (bool_decide (INFO recB0 !! "SVTYPE" = Some (VStr "BND"))); [|auto].
  destruct (first (ALT recA0)) as [altA|]; cbn [mbind py_bind]; [|discriminate].
  destruct (first (ALT recB0)) as [altB|]; cbn [mbind py_bind]; [|discriminate].
  rewrite (bool_decide_sym (orientSV altB)).
  destruct (bool_decide (orientSV altA = orientSV altB)); [|auto].
  destruct (vcfIntervalMatch recA0 recB0) as [m'|] eqn:Hiv;
    cbn [mbind py_bind]; [|discriminate].
  intros [= <-]. rewrite (vcfIntervalMatch_sym _ _ _ Hiv). reflexivity.
Qed.

(** X4: on two records that are not both indels and not both
    structural the matcher never raises, and it accepts exactly when
    both are SNVs with equal position, reference allele and alternate
    alleles. *)
Theorem snv_match_iff (recA0 recB0 : VcfRecord) :
  is_indel recA0 && is_indel recB0 = false ->
  is_sv recA0 && is_sv recB0 = false ->
  vcfVariantMatch recA0 recB0
  = Ret (is_snp recA0 && is_snp recB0
         && (POS recA0 =? POS recB0)
         && bool_decide (REF recA0 = REF recB0)
         && bool_decide (ALT recA0 = ALT recB0)).
Proof.
  intros Hi Hs. unfold vcfVariantMatch. rewrite Hi, Hs. cbn [andb].
  rewrite <- !andb_assoc.
  destruct (is_snp recA0 && (is_snp recB0 && _)); reflexivity.
Qed.

End MatcherSym.

Section PairSound.

Variable recA0 : VcfRecord.

Lemma match_body_sound (vtype : string) (st st' : MatchState)
    (rB : VcfRecord) :
  match_body recA0 vtype st rB = Ret st' ->
  recA (ms_variant st) = recA0 /\ sound (ms_variant st) ->
  recA (ms_variant st') = recA0 /\ sound (ms_variant st').
Proof.
  unfold match_body.
  destruct (vcfVariantMatch recA0 rB) as [[|]|] eqn:Hm; cbn [mbind py_bind];
    try discriminate.
  2:{ intros [= Heq] Hst; subst st'. exact Hst. }
  intros Hrun Hst. pose proof Hst as [HA (HsB & Hsalt & HsT)].
  assert (Happ : recA (append_altmatch (ms_variant st) rB) = recA0
                 /\ sound (append_altmatch (ms_variant st) rB)).
  { split; [exact HA|]. unfold sound. cbn [recA recB recT altmatch append_altmatch].
    split; [exact HsB|]. split; [|exact HsT].
    intros x Hx. apply elem_of_app in Hx as [Hx|Hx]; [auto|].
    apply list_elem_of_singleton in Hx. subst x. rewrite HA. exact Hm. }
  revert Hrun. destruct (ms_match st).
  { intros [= Heq]; subst st'. exact Happ. }
  destruct (py_assert _); cbn [mbind py_bind]; [|discriminate].
  destruct (_ && _).
  { intros [= Heq]; subst st'. exact Happ. }
  unfold set_left. destruct (recB (ms_variant st)) eqn:HB.
  { intros [= Heq]; subst st'. exact Hst. }
  intros [= Heq]; subst st'. cbn [ms_variant]. split; [exact HA|]. unfold sound.
  cbn [recA recB recT altmatch]. split; [|split; [exact Hsalt|exact HsT]].
  intros b [= <-]. rewrite HA. exact Hm.
Qed.

Lemma for_try_match_sound (vtype : string) (cands : list VcfRecord)
    (st : MatchState) :
  recA (ms_variant st) = recA0 /\ sound (ms_variant st) ->
  recA (ms_variant (fst (for_try (match_body recA0 vtype) st cands))) = recA0
  /\ sound (ms_variant (fst (for_try (match_body recA0 vtype) st cands))).
Proof.
  revert st. induction cands as [|c cands IH]; intros st Hst; [exact Hst|].
  cbn [for_try].
  destruct (match_body recA0 vtype st c) as [st1|e] eqn:Hb; [|exact Hst].
  apply IH. eapply match_body_sound; eauto.
Qed.

Lemma truth_body_sound (v v' : Variant) (rT : VcfRecord) :
  truth_body recA0 v rT = Ret v' ->
  recA v = recA0 /\ sound v -> recA v' = recA0 /\ sound v'.
Proof.
  unfold truth_body.
  destruct (vcfVariantMatch recA0 rT) as [[|]|] eqn:Hm; cbn [mbind py_bind];
    try discriminate; intros [= Heq]; subst v'; [|auto].
  intros [HA (HsB & Hsalt & HsT)]. split; [exact HA|]. unfold sound.
  cbn [set_recT recA recB recT altmatch].
  split; [exact HsB|]. split; [exact Hsalt|].
  intros t [= <-]. rewrite HA. exact Hm.
Qed.

Lemma for_try_truth_sound (cands : list VcfRecord) (v : Variant) :
  recA v = recA0 /\ sound v ->
  recA (fst (for_try (truth_body recA0) v cands)) = recA0
  /\ sound (fst (for_try (truth_body recA0) v cands)).
Proof.
  revert v. induction cands as [|c cands IH]; intros v Hv; [exact Hv|].
  cbn [for_try].
  destruct (truth_body recA0 v c) as [v1|e] eqn:Hb; [|exact Hv].
  apply IH. eapply truth_body_sound; eauto.
Qed.

Lemma compare_record_sound (B : Reader) (truth : option Reader)
    (vtype : string) (w : Z) (used : gmap string VcfRecord) :
  recA (fst (fst (compare_record B truth recA0 vtype w used))) = recA0
  /\ sound (fst (fst (compare_record B truth recA0 vtype w used))).
Proof.
  rewrite compare_record_unfold. cbv zeta. cbn [fst].
  assert (Hnew : recA (new_variant recA0) = recA0 /\ sound (new_variant recA0)).
  { split; [reflexivity|]. unfold sound, new_variant. cbn [recA recB recT altmatch].
    split; [discriminate|]. split; [|discriminate].
    intros x Hx. inversion Hx. }
  assert (Htarget :
    recA (ms_variant (fst (match_target B recA0 vtype
                             (fst (window recA0 w)) (snd (window recA0 w))
                             used))) = recA0
    /\ sound (ms_variant (fst (match_target B recA0 vtype
                                 (fst (window recA0 w)) (snd (window recA0 w))
                                 used)))).
  { unfold match_target.
    destruct (fetch B (Some (CHROM recA0)) _ _) as [cands|e]; [|exact Hnew].
    apply for_try_match_sound. exact Hnew. }
  unfold match_truth. destruct truth as [t|]; [|exact Htarget].
  destruct (fetch t (Some (CHROM recA0)) _ _) as [cands|e]; [|exact Htarget].
  apply for_try_truth_sound. exact Htarget.
Qed.

End PairSound.

Section RunBuckets.

Variable B : Reader.
Variables w_indel w_sv : Z.
Variable mask : option Mask.
Variable truth : option Reader.

Lemma bucket_inv_init :
  bucket_inv mask w_indel w_sv [] {| rs_cmp := Comparison_init; rs_used := ∅; rs_err := [] |}.
Proof.
  split.
  - intros vt l. cbn [rs_cmp Comparison_init vartype].
    rewrite lookup_insert. case_decide; [intros [= Heq]; subst l; auto|].
    rewrite lookup_insert. case_decide; [intros [= Heq]; subst l; auto|].
    rewrite lookup_empty. discriminate.
  - intros vt. cbn [rs_cmp Comparison_init vartype].
    rewrite lookup_insert. case_decide as H1.
    + subst vt. split; [auto|eauto].
    + rewrite lookup_insert. case_decide as H2.
      * subst vt. split; [auto|eauto].
      * rewrite lookup_empty. split; [intros [? ?]; discriminate|].
        intros [->| ->]; congruence.
Qed.

Lemma filter_snoc_true (f : VcfRecord -> bool) (pre : list VcfRecord)
    (r : VcfRecord) :
  f r = true -> List.filter f (pre ++ [r]) = List.filter f pre ++ [r].
Proof. intros H. rewrite List.filter_app. simpl. rewrite H. reflexivity. Qed.

Lemma filter_snoc_false (f : VcfRecord -> bool) (pre : list VcfRecord)
    (r : VcfRecord) :
  f r = false -> List.filter f (pre ++ [r]) = List.filter f pre.
Proof.
  intros H. rewrite List.filter_app. simpl. rewrite H. apply app_nil_r.
Qed.

Lemma compare_step_inv_buckets (pre : list VcfRecord) (rs rs' : RunState)
    (r : VcfRecord) :
  bucket_inv mask w_indel w_sv pre rs -> compare_step B w_indel w_sv mask truth rs r = Ret rs' -> bucket_inv mask w_indel w_sv (pre ++ [r]) rs'.
Proof.
  intros [Hb Hk]. unfold compare_step.
  destruct (masked mask r) as [[|]|] eqn:Hmask; cbn [mbind py_bind];
    try discriminate.
  { intros [= Heq]; subst rs'. split; [|exact Hk]. intros vt l Hl.
    rewrite filter_snoc_false; [auto|]. unfold unmasked. rewrite Hmask.
    reflexivity. }
  assert (Hun : unmasked mask r = true) by (unfold unmasked; rewrite Hmask; reflexivity).
  destruct (classify r w_indel w_sv) as [[vtype|] w] eqn:Hcl.
  2:{ intros [= Heq]; subst rs'. split; [|exact Hk]. intros vt l Hl.
      rewrite filter_snoc_false; [auto|]. unfold typed. rewrite Hcl.
      cbn [fst]. rewrite bool_decide_eq_false_2 by discriminate.
      apply andb_false_r. }
  pose proof (compare_record_sound r B truth vtype w (rs_used rs)) as [HA Hs].
  destruct (compare_record B truth r vtype w (rs_used rs))
    as [[variant used'] warn].
  cbn [fst] in HA, Hs. unfold vartype_append.
  destruct (vartype (rs_cmp rs) !! vtype) as [l0|] eqn:Hl0;
    cbn [mbind py_bind]; [|discriminate].
  intros [= Heq]; subst rs'. split; cbn [rs_cmp vartype].
  - intros vt l. rewrite lookup_insert. case_decide as Hvt.
    + subst vt. intros [= Heq]; subst l. destruct (Hb _ _ Hl0) as [Hmap Hsound].
      rewrite map_app, Hmap. cbn [List.map]. rewrite HA. split.
      * rewrite filter_snoc_true; [reflexivity|]. rewrite Hun. unfold typed.
        rewrite Hcl. cbn [fst]. rewrite bool_decide_eq_true_2; reflexivity.
      * apply Forall_app. split; [exact Hsound|]. apply Forall_singleton, Hs.
    + intros Hl. destruct (Hb _ _ Hl) as [Hmap Hsound]. split; [|exact Hsound].
      rewrite filter_snoc_false; [exact Hmap|]. unfold typed. rewrite Hcl.
      cbn [fst]. rewrite bool_decide_eq_false_2 by congruence.
      apply andb_false_r.
  - intros vt. rewrite lookup_insert. case_decide as Hvt; [|apply Hk].
    subst vt. split; [intros _|eauto]. apply Hk. rewrite Hl0. eauto.
Qed.

Lemma compare_loop_inv_buckets (recs pre : list VcfRecord)
    (rs rs' : RunState) :
  bucket_inv mask w_indel w_sv pre rs -> compare_loop (compare_step B w_indel w_sv mask truth) rs recs = Ret rs' -> bucket_inv mask w_indel w_sv (pre ++ recs) rs'.
Proof.
  revert pre rs. induction recs as [|r recs IH]; intros pre rs Hinv.
  - intros [= Heq]; subst rs'. rewrite app_nil_r. exact Hinv.
  - cbn [compare_loop].
    destruct (compare_step B w_indel w_sv mask truth rs r) as [rs1|e] eqn:Hs; cbn [mbind py_bind];
      [|discriminate].
    intros Hrun. rewrite (cons_middle r pre recs), app_assoc.
    eapply IH; [|exact Hrun]. eapply compare_step_inv_buckets; eauto.
Qed.

(** A step returns unless the record is an unmasked breakend, and then
    it raises KeyError. *)
Lemma compare_step_returns (pre : list VcfRecord) (rs : RunState)
    (r : VcfRecord) (b : bool) :
  bucket_inv mask w_indel w_sv pre rs ->
  masked mask r = Ret b ->
  if unmasked mask r && typed w_indel w_sv "SV" r
  then compare_step B w_indel w_sv mask truth rs r = Raise KeyError
  else exists rs', compare_step B w_indel w_sv mask truth rs r = Ret rs'.
Proof.
  intros [Hb Hk] Hmask. unfold compare_step, unmasked. rewrite Hmask.
  cbn [mbind py_bind]. destruct b; cbn [andb]; [eauto|].
  unfold typed.
  pose proof (classify_types w_indel w_sv r) as Hty.
  destruct (classify r w_indel w_sv) as [[vtype|] w] eqn:Hcl; cbn [fst].
  2:{ rewrite bool_decide_eq_false_2 by discriminate. eauto. }
  destruct (compare_record B truth r vtype w (rs_used rs))
    as [[variant used'] warn].
  unfold vartype_append.
  destruct (Hty vtype w eq_refl) as [->|[->| ->]].
  - rewrite bool_decide_eq_false_2 by discriminate.
    destruct (proj2 (Hk "SNV")) as [l Hl]; [auto|]. rewrite Hl.
    cbn [mbind py_bind]. eauto.
  - rewrite bool_decide_eq_false_2 by discriminate.
    destruct (proj2 (Hk "INDEL")) as [l Hl]; [auto|]. rewrite Hl.
    cbn [mbind py_bind]. eauto.
  - rewrite bool_decide_eq_true_2 by reflexivity.
    destruct (vartype (rs_cmp rs) !! "SV") as [l|] eqn:Hl; [|reflexivity].
    exfalso. destruct (proj1 (Hk "SV")) as [H|H]; [eauto|discriminate..].
Qed.

Lemma compare_loop_returns (recs pre : list VcfRecord) (rs : RunState) :
  bucket_inv mask w_indel w_sv pre rs ->
  (forall r, r ∈ recs -> exists b, masked mask r = Ret b) ->
  if forallb (fun r => negb (unmasked mask r && typed w_indel w_sv "SV" r)) recs
  then exists rs', compare_loop (compare_step B w_indel w_sv mask truth) rs recs = Ret rs'
  else compare_loop (compare_step B w_indel w_sv mask truth) rs recs = Raise KeyError.
Proof.
  revert pre rs. induction recs as [|r recs IH]; intros pre rs Hinv Hmask.
  - cbn. eauto.
  - destruct (Hmask r) as [b Hb]; [apply elem_of_cons; auto|].
    pose proof (compare_step_returns pre rs r b Hinv Hb) as Hstep.
    cbn [forallb compare_loop].
    destruct (unmasked mask r && typed w_indel w_sv "SV" r); cbn [negb andb].
    + rewrite Hstep. reflexivity.
    + destruct Hstep as [rs1 Hs]. rewrite Hs. cbn [mbind py_bind].
      apply (IH (pre ++ [r]) rs1).
      * eapply compare_step_inv_buckets; eauto.
      * intros x Hx. apply Hmask. apply elem_of_cons. auto.
Qed.

End RunBuckets.

(** X5: a completed run has exactly the buckets ['SNV'] and ['INDEL'],
    and the source records of each bucket's pairs are, in fetch order,
    the source records that the mask lets through and that are given
    the bucket's type: one pair for each of them. *)
Theorem buckets_list_source (A B : Reader) (w_indel w_sv : Z)
    (mask : option Mask) (truth : option Reader) (chrom : option string)
    (fetch_start fetch_end : Z) (recs : list VcfRecord) (cmp : Comparison) :
  fetch A chrom fetch_start fetch_end = Ret recs ->
  compareVCFs A B w_indel w_sv mask truth chrom fetch_start fetch_end
    = Ret cmp ->
  exists snvs indels : list Variant,
    vartype cmp = <["INDEL" := indels]> (<["SNV" := snvs]> ∅)
    /\ List.map recA snvs
       = List.filter (fun r => unmasked mask r && typed w_indel w_sv "SNV" r)
                     recs
    /\ List.map recA indels
       = List.filter (fun r => unmasked mask r && typed w_indel w_sv "INDEL" r)
                     recs.
Proof.
  intros Hfetch. unfold compareVCFs, compareVCFs_run. rewrite Hfetch.
  cbn [mbind py_bind].
  destruct (compare_loop _ _ recs) as [rs|e] eqn:Hrun; cbn [mbind py_bind];
    [|discriminate].
  intros [= Heq]; subst cmp.
  apply (compare_loop_inv_buckets B w_indel w_sv mask truth recs []) in Hrun;
    [|apply bucket_inv_init].
  destruct Hrun as [Hb Hk].
  destruct (proj2 (Hk "SNV")) as [snvs HS]; [auto|].
  destruct (proj2 (Hk "INDEL")) as [indels HI]; [auto|].
  exists snvs, indels. split; [|split].
  - apply map_eq. intros vt. rewrite lookup_insert. case_decide as H1.
    { subst vt. exact HI. }
    rewrite lookup_insert. case_decide as H2.
    { subst vt. exact HS. }
    rewrite lookup_empty.
    destruct (vartype (rs_cmp rs) !! vt) as [l|] eqn:Hl; [|reflexivity].
    exfalso. destruct (proj1 (Hk vt)) as [Hvt|Hvt]; [eauto|congruence..].
  - apply (Hb _ _ HS).
  - apply (Hb _ _ HI).
Qed.

(** X6: every record a pair of a completed run holds (the bound target
    record, each alternative match and the truth record) was accepted
    by the matcher against the pair's source record. *)
Theorem bindings_sound (A B : Reader) (w_indel w_sv : Z)
    (mask : option Mask) (truth : option Reader) (chrom : option string)
    (fetch_start fetch_end : Z) (cmp : Comparison)
    (vt : string) (l : list Variant) (p : Variant) :
  compareVCFs A B w_indel w_sv mask truth chrom fetch_start fetch_end
    = Ret cmp ->
  vartype cmp !! vt = Some l ->
  p ∈ l ->
  (forall b, recB p = Some b -> vcfVariantMatch (recA p) b = Ret true)
  /\ (forall x, x ∈ altmatch p -> vcfVariantMatch (recA p) x = Ret true)
  /\ (forall t, recT p = Some t -> vcfVariantMatch (recA p) t = Ret true).
Proof.
  unfold compareVCFs, compareVCFs_run.
  destruct (fetch A chrom fetch_start fetch_end) as [recs|e];
    cbn [mbind py_bind]; [|discriminate].
  destruct (compare_loop _ _ recs) as [rs|e] eqn:Hrun; cbn [mbind py_bind];
    [|discriminate].
  intros [= Heq] Hl Hp; subst cmp.
  apply (compare_loop_inv_buckets B w_indel w_sv mask truth recs []) in Hrun;
    [|apply bucket_inv_init].
  destruct Hrun as [Hb _]. destruct (Hb _ _ Hl) as [_ Hs].
  rewrite Forall_forall in Hs. apply (Hs p Hp).
Qed.

(** X7: when the source fetch and the mask lookups return, a run
    returns a comparison if no unmasked source record is typed ['SV'],
    and raises KeyError otherwise: the comparison has no ['SV'] bucket
    to append the pair to. *)
Theorem run_returns_unless_breakend (A B : Reader) (w_indel w_sv : Z)
    (mask : option Mask) (truth : option Reader) (chrom : option string)
    (fetch_start fetch_end : Z) (recs : list VcfRecord) :
  fetch A chrom fetch_start fetch_end = Ret recs ->
  (forall r, r ∈ recs -> exists b, masked mask r = Ret b) ->
  if forallb (fun r => negb (unmasked mask r && typed w_indel w_sv "SV" r)) recs
  then exists cmp,
         compareVCFs A B w_indel w_sv mask truth chrom fetch_start fetch_end
         = Ret cmp
  else compareVCFs A B w_indel w_sv mask truth chrom fetch_start fetch_end
       = Raise KeyError.
Proof.
  intros Hfetch Hmask. unfold compareVCFs, compareVCFs_run. rewrite Hfetch.
  cbn [mbind py_bind].
  pose proof (compare_loop_returns B w_indel w_sv mask truth recs [] _
                (bucket_inv_init w_indel w_sv mask) Hmask) as Hloop.
  destruct (forallb _ recs).
  - destruct Hloop as [rs Hrs]. rewrite Hrs. cbn [mbind py_bind]. eauto.
  - rewrite Hloop. reflexivity.
Qed.

Section Segmenter.

Lemma insert_seg_perm (x : Segment) (l : list Segment) :
  insert_seg x l ≡ₚ x :: l.
Proof.
  induction l as [|y l IH]; simpl; [reflexivity|].
  destruct (length x <=? length y); [reflexivity|].
  rewrite IH. apply Permutation_swap.
Qed.

Lemma sort_segs_perm (l : list Segment) : sort_segs l ≡ₚ l.
Proof.
  induction l as [|x l IH]; simpl; [reflexivity|].
  rewrite insert_seg_perm, IH. reflexivity.
Qed.

Lemma pop_snoc {A : Type} (l rest : list A) (x : A) :
  pop l = Ret (rest, x) -> l = rest ++ [x].
Proof.
  unfold pop. destruct (reverse l) as [|y r] eqn:Hrev; [discriminate|].
  intros [= <- <-].
  rewrite <- (reverse_involutive l), Hrev, reverse_cons. reflexivity.
Qed.

(** An invariant of the segment list that holds up to order and is
    kept when the last segment is replaced by its halves is kept by the
    bisection loop. *)
Lemma bisect_longest_ind (P : list Segment -> Prop) :
  (forall l l', l ≡ₚ l' -> P l -> P l') ->
  (forall rest big, P (rest ++ [big]) -> P (rest ++ [left big; right big])) ->
  forall (turns : nat) (segs segs' : list Segment),
    P segs -> bisect_longest turns segs = Ret segs' -> P segs'.
Proof.
  intros Hperm Hstep turns. induction turns as [|turns IH]; intros segs segs' HP.
  - intros [= <-]. exact HP.
  - cbn [bisect_longest].
    destruct (pop segs) as [[rest big]|e] eqn:Hpop; cbn [mbind py_bind];
      [|discriminate].
    apply pop_snoc in Hpop. subst segs. apply IH.
    apply (Hperm (rest ++ [left big; right big])).
    + symmetry. apply sort_segs_perm.
    + apply Hstep, HP.
Qed.

Lemma alter_concat_perm (jobs : list (list Segment)) (k : nat) (seg : Segment) :
  (k < List.length jobs)%nat ->
  concat (alter (fun job => job ++ [seg]) k jobs) ≡ₚ seg :: concat jobs.
Proof.
  unfold alter.
  revert k. induction jobs as [|job jobs IH]; intros k Hk; simpl in Hk; [lia|].
  destruct k as [|k]; simpl.
  - rewrite <- app_assoc. simpl. symmetry. apply Permutation_middle.
  - rewrite IH by lia. symmetry. apply Permutation_middle.
Qed.

Lemma deal_length (n i : nat) (popped : list Segment)
    (jobs : list (list Segment)) :
  List.length (deal n i popped jobs) = List.length jobs.
Proof.
  revert i jobs. induction popped as [|seg popped IH]; intros i jobs; simpl;
    [reflexivity|].
  rewrite IH. apply length_alter.
Qed.

Lemma deal_perm (n i : nat) (popped : list Segment)
    (jobs : list (list Segment)) :
  List.length jobs = n -> (0 < n)%nat ->
  concat (deal n i popped jobs) ≡ₚ popped ++ concat jobs.
Proof.
  intros Hn Hpos. revert i jobs Hn.
  induction popped as [|seg popped IH]; intros i jobs Hn; simpl; [reflexivity|].
  rewrite IH by (rewrite length_alter; exact Hn).
  rewrite alter_concat_perm.
  - symmetry. apply Permutation_middle.
  - rewrite Hn. apply Nat.mod_upper_bound. lia.
Qed.

Lemma concat_replicate_nil (k : nat) :
  concat (replicate k (@nil Segment)) = [].
Proof. induction k as [|k IH]; [reflexivity|exact IH]. Qed.

Lemma split_genome_inv (chroms : list (string * Z)) (n minlen : Z)
    (jobs : list (list Segment)) :
  split_genome chroms n minlen = Ret jobs ->
  0 < n
  /\ List.length jobs = Z.to_nat n
  /\ exists segs : list Segment,
       bisect_longest (Z.to_nat n - List.length (retained chroms minlen))
                      (sort_segs (retained chroms minlen)) = Ret segs
       /\ concat jobs ≡ₚ segs.
Proof.
  unfold split_genome. fold (retained chroms minlen).
  destruct (Z.gtb_spec n 0) as [Hn|Hn]; cbn [py_assert mbind py_bind];
    [|discriminate].
  rewrite sort_segs_length.
  destruct (bisect_longest _ _) as [segs|e] eqn:Hb; cbn [mbind py_bind];
    [|discriminate].
  destruct (py_assert _); cbn [mbind py_bind]; [|discriminate].
  intros [= <-]. split; [lia|]. split.
  - rewrite deal_length. apply length_replicate.
  - exists segs. split; [reflexivity|].
    rewrite deal_perm.
    + rewrite reverse_Permutation, concat_replicate_nil, app_nil_r.
      reflexivity.
    + apply length_replicate.
    + lia.
Qed.

(** X13: [split_genome] rejects a job count that is not positive with
    AssertionError, and raises IndexError when no chromosome is longer
    than [minlen]: the loop pops from the empty list. *)
Theorem split_genome_errors (chroms : list (string * Z)) (n minlen : Z) :
  (n <= 0 -> split_genome chroms n minlen = Raise AssertionError)
  /\ (0 < n -> retained chroms minlen = [] ->
      split_genome chroms n minlen = Raise IndexError).
Proof.
  unfold split_genome. fold (retained chroms minlen). split.
  - intros Hn. destruct (Z.gtb_spec n 0); [lia|reflexivity].
  - intros Hn Hempty. destruct (Z.gtb_spec n 0); [|lia].
    cbn [py_assert mbind py_bind]. rewrite Hempty. cbn [sort_segs fold_right].
    destruct (Z.to_nat n - List.length (@nil Segment))%nat as [|k] eqn:Hk.
    + simpl in Hk. lia.
    + reflexivity.
Qed.

Lemma deal_keeps_nonempty (n i : nat) (popped : list Segment)
    (jobs : list (list Segment)) :
  Forall (fun job => job <> []) jobs ->
  Forall (fun job => job <> []) (deal n i popped jobs).
Proof.
  revert i jobs. induction popped as [|seg popped IH]; intros i jobs Hne;
    [exact Hne|].
  cbn [deal]. apply IH. apply Forall_alter; [exact Hne|].
  intros job _ _. destruct job; discriminate.
Qed.

Lemma deal_fills (n i : nat) (popped : list Segment)
    (jobs : list (list Segment)) :
  List.length jobs = n ->
  (i <= n)%nat ->
  (n <= i + List.length popped)%nat ->
  Forall (fun job => job <> []) (take i jobs) ->
  Forall (fun job => job <> []) (deal n i popped jobs).
Proof.
  revert i jobs. induction popped as [|seg popped IH];
    intros i jobs Hlen Hi Hall Hne.
  - simpl in Hall. assert (i = n) by lia. subst i.
    rewrite <- Hlen, firstn_all in Hne. exact Hne.
  - cbn [deal]. destruct (decide (i = n)) as [->|Hin].
    + apply deal_keeps_nonempty. apply Forall_alter.
      * rewrite <- Hlen, firstn_all in Hne. exact Hne.
      * intros job _ _. destruct job; discriminate.
    + assert (Hlt : (i < n)%nat) by lia.
      rewrite Nat.mod_small by exact Hlt.
      apply IH.
      * rewrite length_alter. exact Hlen.
      * lia.
      * simpl in Hall. lia.
      * destruct (lookup_lt_is_Some_2 jobs i) as [job Hjob]; [lia|].
        rewrite (take_S_r _ _ (job ++ [seg])).
        -- apply Forall_app. split.
           ++ rewrite take_alter_ge by lia. exact Hne.
           ++ apply Forall_singleton. destruct job; discriminate.
        -- rewrite list_lookup_alter_eq, Hjob. reflexivity.
Qed.

(** X14: with a positive job count and at least one chromosome
    retained [split_genome] returns [n] buckets, none of them empty,
    holding [max n k] segments for [k] retained chromosomes. *)
Theorem split_genome_shape (chroms : list (string * Z)) (n minlen : Z) :
  0 < n ->
  retained chroms minlen <> [] ->
  exists jobs : list (list Segment),
    split_genome chroms n minlen = Ret jobs
    /\ List.length jobs = Z.to_nat n
    /\ Forall (fun job => job <> []) jobs
    /\ List.length (concat jobs)
       = Nat.max (Z.to_nat n) (List.length (retained chroms minlen)).
Proof.
  intros Hn Hne. unfold split_genome. fold (retained chroms minlen).
  destruct (Z.gtb_spec n 0); [|lia]. cbn [py_assert mbind py_bind].
  rewrite sort_segs_length.
  destruct (bisect_longest_returns
              (Z.to_nat n - List.length (retained chroms minlen))
              (sort_segs (retained chroms minlen))) as [segs Hsegs].
  { intros Hnil. apply (f_equal List.length) in Hnil.
    rewrite sort_segs_length in Hnil. destruct (retained chroms minlen);
      [congruence|discriminate]. }
  rewrite Hsegs. cbn [mbind py_bind].
  pose proof (bisect_longest_length _ _ _ Hsegs) as Hlen.
  rewrite sort_segs_length in Hlen.
  destruct (Z.leb_spec n (Z.of_nat (List.length segs))) as [Hle|Hgt]; [|lia].
  cbn [mbind py_bind]. eexists. split; [reflexivity|].
  split; [rewrite deal_length; apply length_replicate|]. split.
  - apply deal_fills.
    + apply length_replicate.
    + lia.
    + rewrite length_reverse. lia.
    + constructor.
  - rewrite deal_perm; [|apply length_replicate|lia].
    rewrite length_app, length_reverse, concat_replicate_nil.
    simpl. lia.
Qed.

Lemma within_line (chroms : list (string * Z)) (minlen : Z) (seg : Segment) :
  0 <= minlen ->
  seg ∈ retained chroms minlen -> within chroms minlen seg.
Proof.
  intros Hmin Hin. unfold retained in Hin.
  apply list_elem_of_In, List.filter_In in Hin as [Hin Hlen].
  apply List.in_map_iff in Hin as ([name len] & <- & Hin).
  cbn [Segment_of_line fst snd length] in Hlen.
  apply Z.gtb_lt in Hlen.
  exists len. cbn [Segment_of_line fst snd chrom seg_start seg_end length].
  split; [apply list_elem_of_In, Hin|]. lia.
Qed.

Lemma within_halves (chroms : list (string * Z)) (minlen : Z) (big : Segment) :
  within chroms minlen big ->
  within chroms minlen (left big) /\ within chroms minlen (right big).
Proof.
  intros (len & Hin & Hmin & H0 & Hse & Hlen & HL).
  assert (Hhalf : 0 <= length big / 2 <= length big).
  { split; [apply Z.div_pos; lia|]. apply Z.div_le_upper_bound; lia. }
  split; exists len; unfold left, right;
    cbn [chrom seg_start seg_end length]; (split; [exact Hin|]); lia.
Qed.

Lemma cover_app (c : string) (x : Z) (l l' : list Segment) :
  cover c x (l ++ l') = (cover c x l + cover c x l')%nat.
Proof. unfold cover. rewrite List.filter_app. apply length_app. Qed.

Lemma cover_perm (c : string) (x : Z) (l l' : list Segment) :
  l ≡ₚ l' -> cover c x l = cover c x l'.
Proof.
  unfold cover. induction 1 as [|s l l' _ IH|s t l|l l' l'' _ IH1 _ IH2];
    simpl.
  - reflexivity.
  - destruct (contains c x s); simpl; rewrite IH; reflexivity.
  - destruct (contains c x s), (contains c x t); reflexivity.
  - rewrite IH1. exact IH2.
Qed.

Lemma contains_halves (chroms : list (string * Z)) (minlen : Z)
    (c : string) (x : Z) (big : Segment) :
  within chroms minlen big ->
  (cover c x [left big; right big] <= cover c x [big])%nat.
Proof.
  intros (len & Hin & Hmin & H0 & Hse & Hlen & HL).
  assert (Hhalf : 0 <= length big / 2 /\ 2 * (length big / 2) <= length big).
  { split; [apply Z.div_pos; lia|]. apply Z.mul_div_le. lia. }
  unfold cover, contains, left, right. simpl.
  destruct (bool_decide (chrom big = c)); simpl; [|lia].
  destruct (Z.leb_spec (seg_start big) x), (Z.ltb_spec x (seg_end big)),
    (Z.ltb_spec x (seg_start big + length big / 2)),
    (Z.leb_spec (seg_end big - length big / 2) x); simpl; lia.
Qed.

Lemma cover_retained (chroms : list (string * Z)) (minlen : Z)
    (c : string) (x : Z) :
  NoDup chroms.*1 -> (cover c x (retained chroms minlen) <= 1)%nat.
Proof.
  unfold retained, cover.
  induction chroms as [|[name len] chroms IH]; intros Hnd; simpl; [lia|].
  apply NoDup_cons in Hnd as [Hname Hnd]. specialize (IH Hnd).
  destruct (len >? minlen); simpl; [|exact IH].
  unfold contains at 1. cbn [Segment_of_line chrom fst].
  destruct (bool_decide_reflect (name = c)) as [->|Hne]; simpl; [|exact IH].
  assert (Hzero : List.filter (contains c x)
                    (List.filter (fun seg => length seg >? minlen)
                                 (List.map Segment_of_line chroms)) = []).
  { clear IH Hnd. induction chroms as [|[name' len'] chroms IH]; simpl;
      [reflexivity|].
    assert (Hc : c <> name') by (intros ->; apply Hname; left).
    assert (Hrest : c ∉ chroms.*1) by (intros H; apply Hname; right; exact H).
    destruct (len' >? minlen); simpl; [|exact (IH Hrest)].
    unfold contains at 1. cbn [Segment_of_line chrom fst].
    rewrite bool_decide_eq_false_2 by congruence. simpl. exact (IH Hrest). }
  rewrite Hzero. destruct (_ && _); simpl; lia.
Qed.

(** X15: every segment handed out lies inside a retained chromosome,
    and no position is covered by two segments when the chromosome
    names of the table are pairwise different. *)
Theorem split_genome_disjoint (chroms : list (string * Z)) (n minlen : Z)
    (jobs : list (list Segment)) :
  0 <= minlen ->
  split_genome chroms n minlen = Ret jobs ->
  Forall (within chroms minlen) (concat jobs)
  /\ (NoDup chroms.*1 ->
      forall (c : string) (x : Z), (cover c x (concat jobs) <= 1)%nat).
Proof.
  intros Hmin Hsplit.
  destruct (split_genome_inv _ _ _ _ Hsplit) as (_ & _ & segs & Hsegs & Hperm).
  assert (Hinit : Forall (within chroms minlen)
                         (sort_segs (retained chroms minlen))).
  { rewrite sort_segs_perm. apply Forall_forall. intros seg.
    apply within_line, Hmin. }
  assert (Hwithin : Forall (within chroms minlen) segs).
  { revert Hsegs. apply bisect_longest_ind; [| |exact Hinit].
    - intros l l' Hp Hl. rewrite <- Hp. exact Hl.
    - intros rest big Hl. apply Forall_app in Hl as [Hrest Hbig].
      apply List.Forall_inv, within_halves in Hbig as [Hl Hr].
      apply Forall_app. split; [exact Hrest|]. repeat constructor; assumption. }
  split; [rewrite Hperm; exact Hwithin|].
  intros Hnd c x. rewrite (cover_perm c x _ _ Hperm).
  assert (Hboth : Forall (within chroms minlen) segs
                  /\ (cover c x segs <= 1)%nat).
  { revert Hsegs.
    apply (bisect_longest_ind
             (fun l => Forall (within chroms minlen) l
                       /\ (cover c x l <= 1)%nat)).
    - intros l l' Hp [Hl Hc]. split.
      + rewrite <- Hp. exact Hl.
      + rewrite <- (cover_perm c x _ _ Hp). exact Hc.
    - intros rest big [Hl Hc]. apply Forall_app in Hl as [Hrest Hbig].
      apply List.Forall_inv in Hbig.
      destruct (within_halves _ _ _ Hbig) as [Hlh Hrh]. split.
      + apply Forall_app. split; [exact Hrest|].
        repeat constructor; assumption.
      + rewrite cover_app in *.
        pose proof (contains_halves chroms minlen c x big Hbig). lia.
    - split; [exact Hinit|].
      rewrite (cover_perm c x _ _ (sort_segs_perm _)).
      apply cover_retained, Hnd. }
  apply Hboth.
Qed.

Lemma total_length_app (l l' : list Segment) :
  total_length (l ++ l') = total_length l + total_length l'.
Proof.
  unfold total_length. induction l as [|s l IH]; simpl; [reflexivity|].
  rewrite IH. lia.
Qed.

Lemma total_length_perm (l l' : list Segment) :
  l ≡ₚ l' -> total_length l = total_length l'.
Proof.
  unfold total_length. induction 1; simpl; lia.
Qed.

Lemma bisect_longest_total (turns : nat) (segs segs' : list Segment) :
  Forall (fun seg => 0 <= length seg) segs ->
  bisect_longest turns segs = Ret segs' ->
  total_length segs - Z.of_nat turns <= total_length segs' <= total_length segs.
Proof.
  revert segs. induction turns as [|turns IH]; intros segs Hpos.
  - intros [= <-]. lia.
  - cbn [bisect_longest].
    destruct (pop segs) as [[rest big]|e] eqn:Hpop; cbn [mbind py_bind];
      [|discriminate].
    apply pop_snoc in Hpop. subst segs.
    apply Forall_app in Hpos as [Hrest Hbig].
    apply List.Forall_inv in Hbig.
    assert (Hhalf : 0 <= length big / 2
                    /\ length big - 1 <= 2 * (length big / 2) <= length big).
    { split; [apply Z.div_pos; lia|].
      pose proof (Z.mul_div_le (length big) 2).
      pose proof (Z.mul_succ_div_gt (length big) 2). lia. }
    intros Hrun. apply IH in Hrun.
    + rewrite (total_length_perm _ _ (sort_segs_perm _)) in Hrun.
      rewrite total_length_app in *.
      destruct (bisect_lengths big) as [Hl Hr].
      unfold total_length in *. cbn [fold_right] in *. lia.
    + rewrite sort_segs_perm. apply Forall_app. split; [exact Hrest|].
      destruct (bisect_lengths big) as [Hl Hr].
      repeat constructor; lia.
Qed.

(** X16: the segments handed out never hold more bases than the
    retained chromosomes, and fewer by at most one base for each
    bisection. *)
Theorem split_genome_loss (chroms : list (string * Z)) (n minlen : Z)
    (jobs : list (list Segment)) :
  0 <= minlen ->
  split_genome chroms n minlen = Ret jobs ->
  total_length (retained chroms minlen)
  - Z.of_nat (Z.to_nat n - List.length (retained chroms minlen))
  <= total_length (concat jobs)
  <= total_length (retained chroms minlen).
Proof.
  intros Hmin Hsplit.
  destruct (split_genome_inv _ _ _ _ Hsplit) as (_ & _ & segs & Hsegs & Hperm).
  rewrite (total_length_perm _ _ Hperm).
  apply bisect_longest_total in Hsegs.
  - rewrite (total_length_perm _ _ (sort_segs_perm _)) in Hsegs. exact Hsegs.
  - rewrite sort_segs_perm. apply Forall_forall. intros seg Hin.
    destruct (within_line _ _ _ Hmin Hin) as (len & _ & _ & ? & ? & ? & ?).
    lia.
Qed.

End Segmenter.

Section Partition.

Lemma Zsum_py_Ret (l : list (py Z)) (l' : list Z) :
  l = List.map Ret l' -> Zsum_py l = Ret (Zsum l').
Proof.
  intros ->. induction l' as [|z l' IH]; [reflexivity|].
  cbn [List.map Zsum_py Zsum fold_right] in *. fold (Zsum_py (List.map Ret l')).
  rewrite IH. reflexivity.
Qed.

Lemma count_pairs_cons (m pA pB sA sB t : bool) (y : Variant)
    (l : list Variant) :
  count_pairs m pA pB sA sB t (y :: l)
  = Z.b2z (counted m pA pB sA sB t y) + count_pairs m pA pB sA sB t l.
Proof.
  unfold count_pairs. cbn [List.filter].
  destruct (counted m pA pB sA sB t y); cbn [List.length Z.b2z]; lia.
Qed.

Lemma unmatched_side_B (y : Variant) :
  matched y = false -> recB_pass y = false /\ recB_somatic y = false.
Proof.
  unfold matched, recB_pass, recB_somatic, matched.
  destruct (recB y); [discriminate|auto].
Qed.

(** Each pair is counted by exactly one of the 20 categories of a
    kind when the kind does not exclude it. *)
Lemma counted_once (t : bool) (y : Variant) :
  Zsum (List.map (fun v : bool * bool * bool * bool =>
                    let '(pA, pB, sA, sB) := v in
                    Z.b2z (counted true pA pB sA sB t y)) product4)
  + Zsum (List.map (fun v : bool * bool =>
                      let '(pA, sA) := v in
                      Z.b2z (counted false pA false sA false t y)) product2)
  = Z.b2z (implb t (is_true y)).
Proof.
  unfold counted. cbv [product4 product2 TF mbind list_bind mret list_ret
    List.map Zsum fold_right app foldr].
  destruct (matched y) eqn:Hm.
  - destruct (recA_pass y), (recB_pass y), (recA_somatic y),
      (recB_somatic y), (implb t (is_true y)); reflexivity.
  - destruct (unmatched_side_B y Hm) as [-> ->].
    destruct (recA_pass y), (recA_somatic y), (implb t (is_true y));
      reflexivity.
Qed.

Lemma Zsum_map_add {A : Type} (f g : A -> Z) (L : list A) :
  Zsum (List.map (fun v => f v + g v) L)
  = Zsum (List.map f L) + Zsum (List.map g L).
Proof.
  induction L as [|v L IH]; [reflexivity|].
  cbn [List.map Zsum fold_right] in *. fold (Zsum (List.map f L)).
  fold (Zsum (List.map g L)). fold (Zsum (List.map (fun v => f v + g v) L)).
  rewrite IH. lia.
Qed.

Lemma counts_partition (t : bool) (l : list Variant) :
  Zsum (List.map (fun v : bool * bool * bool * bool =>
                    let '(pA, pB, sA, sB) := v in
                    count_pairs true pA pB sA sB t l) product4)
  + Zsum (List.map (fun v : bool * bool =>
                      let '(pA, sA) := v in
                      count_pairs false pA false sA false t l) product2)
  = Z.of_nat (List.length
                (List.filter (fun y => implb t (is_true y)) l)).
Proof.
  induction l as [|y l IH].
  - reflexivity.
  - rewrite (List.map_ext _
               (fun v : bool * bool * bool * bool =>
                  (let '(pA, pB, sA, sB) := v in
                   Z.b2z (counted true pA pB sA sB t y))
                  + (let '(pA, pB, sA, sB) := v in
                     count_pairs true pA pB sA sB t l)))
      by (intros [[[pA pB] sA] sB]; apply count_pairs_cons).
    rewrite (List.map_ext _
               (fun v : bool * bool =>
                  (let '(pA, sA) := v in
                   Z.b2z (counted false pA false sA false t y))
                  + (let '(pA, sA) := v in
                     count_pairs false pA false sA false t l)))
      by (intros [pA sA]; apply count_pairs_cons).
    rewrite !Zsum_map_add.
    pose proof (counted_once t y) as Hy.
    cbn [List.filter]. destruct (implb t (is_true y));
      cbn [List.length Z.b2z] in *; lia.
Qed.

(** The categories of a kind, enumerated: sixteen matched ones over
    (passA, passB, somA, somB) and four unmatched ones over
    (passA, somA). *)
Lemma kind_counts_products (self : Comparison) (vtype : string) (t : bool) :
  kind_counts self vtype t
  = List.map (fun v : bool * bool * bool * bool =>
                let '(pA, pB, sA, sB) := v in
                build_comparator self vtype true pA pB sA sB t vtype)
             product4
    ++ List.map (fun v : bool * bool =>
                   let '(pA, sA) := v in
                   build_comparator self vtype false pA false sA false t vtype)
                product2.
Proof. destruct t; reflexivity. Qed.

(** X8: the categories of a kind partition a bucket: the counts of the
    sixteen matched and the four unmatched overall categories add up to
    the number of pairs of the bucket, those of the sixteen matched and
    the four unmatched truth categories to the number of pairs with a
    truth record. *)
Theorem categories_partition (self : Comparison) (vtype : string)
    (l : list Variant) :
  vartype self !! vtype = Some l ->
  Zsum_py (kind_counts self vtype false) = Ret (Z.of_nat (List.length l))
  /\ Zsum_py (kind_counts self vtype true)
     = Ret (Z.of_nat (List.length (List.filter is_true l))).
Proof.
  intros Hl.
  assert (Hk : forall t,
    Zsum_py (kind_counts self vtype t)
    = Ret (Z.of_nat (List.length
                       (List.filter (fun y => implb t (is_true y)) l)))).
  { intros t. rewrite <- counts_partition.
    rewrite (Zsum_py_Ret _
               (List.map (fun v : bool * bool * bool * bool =>
                            let '(pA, pB, sA, sB) := v in
                            count_pairs true pA pB sA sB t l) product4
                ++ List.map (fun v : bool * bool =>
                               let '(pA, sA) := v in
                               count_pairs false pA false sA false t l)
                            product2)).
    - f_equal. unfold Zsum. rewrite fold_right_app.
      generalize (fold_right Z.add 0
                    (List.map (fun v : bool * bool =>
                                 let '(pA, sA) := v in
                                 count_pairs false pA false sA false t l)
                              product2)).
      intros z. induction (List.map _ product4) as [|a L IH]; simpl; lia.
    - rewrite kind_counts_products, List.map_app, !List.map_map. f_equal.
      + apply List.map_ext. intros [[[pA pB] sA] sB].
        apply build_comparator_count, Hl.
      + apply List.map_ext. intros [pA sA].
        apply build_comparator_count, Hl. }
  split.
  - rewrite Hk. cbn [implb]. do 3 f_equal. clear Hl Hk.
    induction l as [|y l' IH]; [reflexivity|]. simpl. f_equal. exact IH.
  - rewrite Hk. reflexivity.
Qed.

End Partition.

Section Merge.

Lemma od_get_In (d : list (string * Z)) (k : string) (v : Z) :
  NoDup d.*1 -> (k, v) ∈ d -> od_get d k = Ret v.
Proof.
  induction d as [|[k' v'] d IH]; intros Hnd Hin; [inversion Hin|].
  cbn [fmap list_fmap fst] in Hnd. apply NoDup_cons in Hnd as [Hk' Hnd].
  cbn [od_get]. apply elem_of_cons in Hin as [[= -> ->]|Hin].
  - rewrite String.eqb_refl. reflexivity.
  - destruct (String.eqb_spec k' k) as [->|Hne].
    + exfalso. apply Hk'. apply list_elem_of_fmap. exists (k, v). auto.
    + apply IH; assumption.
Qed.

Lemma od_get_absent (d : list (string * Z)) (k : string) :
  k ∉ d.*1 -> od_get d k = Raise KeyError.
Proof.
  induction d as [|[k' v'] d IH]; intros Hk; [reflexivity|].
  cbn [od_get]. destruct (String.eqb_spec k' k) as [->|Hne].
  - exfalso. apply Hk. left.
  - apply IH. intros Hin. apply Hk. right. exact Hin.
Qed.

Lemma od_set_keys (d : list (string * Z)) (k : string) (c v : Z) :
  od_get d k = Ret c -> (od_set d k v).*1 = d.*1.
Proof.
  induction d as [|[k' v'] d IH]; [discriminate|].
  cbn [od_get od_set]. destruct (String.eqb k' k); [reflexivity|].
  intros Hc. cbn [fmap list_fmap fst]. f_equal. apply IH, Hc.
Qed.

(** Adding one dictionary into another of the same keys gives the
    category-wise sums, in the order of the receiver. *)
Lemma od_merge (d d' : list (string * Z)) :
  NoDup d.*1 -> d'.*1 = d.*1 ->
  for_each (fun d0 k => od_add d0 k (od_get d' k)) d d'.*1
  = Ret (od_sum d d').
Proof.
  intros Hnd Hkeys.
  assert (Hgen : forall (pre : list (string * Z)) (d1 d1' : list (string * Z)),
    NoDup (pre ++ d1).*1 -> d1'.*1 = d1.*1 ->
    (forall k v, (k, v) ∈ d1' -> od_get d' k = Ret v) ->
    for_each (fun d0 k => od_add d0 k (od_get d' k)) (pre ++ d1) d1'.*1
    = Ret (pre ++ od_sum d1 d1')).
  { intros pre d1. revert pre.
    induction d1 as [|[k v] d1 IH]; intros pre d1' Hnd1 Hk1 Hget.
    - destruct d1'; [reflexivity|discriminate].
    - destruct d1' as [|[k' v'] d1']; [discriminate|].
      cbn [fmap list_fmap fst] in Hk1. injection Hk1 as -> Hk1.
      rewrite fmap_cons. cbn [for_each fst].
      rewrite (Hget k v') by left.
      assert (Hcur : od_get (pre ++ (k, v) :: d1) k = Ret v).
      { apply od_get_In; [exact Hnd1|]. apply elem_of_app. right. left. }
      unfold od_add. rewrite Hcur. cbn [mbind py_bind].
      assert (Hset : od_set (pre ++ (k, v) :: d1) k (v + v')
                     = (pre ++ [(k, v + v')]) ++ d1).
      { clear -Hnd1. rewrite fmap_app in Hnd1.
        apply NoDup_app in Hnd1 as (_ & Hdisj & _).
        induction pre as [|[k0 v0] pre IHp]; cbn [app od_set].
        - rewrite String.eqb_refl. reflexivity.
        - destruct (String.eqb_spec k0 k) as [->|Hne].
          + exfalso. apply (Hdisj k); left.
          + f_equal. apply IHp. intros x Hx. apply Hdisj. right. exact Hx. }
      rewrite Hset.
      etransitivity; [apply (IH (pre ++ [(k, v + v')]) d1')|].
      4: { rewrite <- app_assoc. reflexivity. }
      + rewrite <- app_assoc. cbn [app]. rewrite !fmap_app in *.
        exact Hnd1.
      + exact Hk1.
      + intros k0 v0 Hin. apply Hget. right. exact Hin. }
  apply (Hgen [] d d'); [exact Hnd|exact Hkeys|].
  intros k v Hin. apply od_get_In; [rewrite Hkeys; exact Hnd|exact Hin].
Qed.

Lemma od_sum_keys (d d' : list (string * Z)) :
  d'.*1 = d.*1 -> (od_sum d d').*1 = d.*1.
Proof.
  revert d'. induction d as [|[k v] d IH]; intros [|[k' v'] d'] Hk;
    try discriminate; [reflexivity|].
  cbn [fmap list_fmap fst] in Hk. injection Hk as -> Hk.
  cbn [od_sum zip_with fmap list_fmap fst snd]. f_equal. apply IH, Hk.
Qed.

Lemma od_sum_get (d d' : list (string * Z)) (k : string) (x y : Z) :
  NoDup d.*1 -> d'.*1 = d.*1 ->
  od_get d k = Ret x -> od_get d' k = Ret y ->
  od_get (od_sum d d') k = Ret (x + y).
Proof.
  revert d'. induction d as [|[k0 v] d IH]; intros [|[k0' v'] d'] Hnd Hk;
    try discriminate.
  cbn [fmap list_fmap fst] in Hk, Hnd. injection Hk as -> Hk.
  apply NoDup_cons in Hnd as [_ Hnd].
  cbn [od_sum zip_with od_get fst snd].
  destruct (String.eqb k0 k).
  - intros [= ->] [= ->]. reflexivity.
  - apply IH; assumption.
Qed.

Lemma od_sum_comm (d d' : list (string * Z)) :
  d'.*1 = d.*1 -> od_sum d d' = od_sum d' d.
Proof.
  revert d'. induction d as [|[k v] d IH]; intros [|[k' v'] d'] Hk;
    try discriminate; [reflexivity|].
  cbn [fmap list_fmap fst] in Hk. injection Hk as -> Hk.
  cbn [od_sum zip_with fst snd]. rewrite Z.add_comm. f_equal. apply IH, Hk.
Qed.

Lemma od_sum_assoc (d d' d'' : list (string * Z)) :
  d'.*1 = d.*1 -> d''.*1 = d.*1 ->
  od_sum (od_sum d d') d'' = od_sum d (od_sum d' d'').
Proof.
  revert d' d''.
  induction d as [|[k v] d IH]; intros [|[k' v'] d'] [|[k'' v''] d''] Hk Hk';
    try discriminate; [reflexivity|].
  cbn [fmap list_fmap fst] in Hk, Hk'. injection Hk as -> Hk.
  injection Hk' as -> Hk'.
  cbn [od_sum zip_with fst snd]. rewrite Z.add_assoc. f_equal.
  apply IH; assumption.
Qed.

Lemma Summary_add_eq (a b : Summary) :
  mergeable a b ->
  Summary_add a b
  = Ret {| info := info a;
           unm_cats := od_sum (unm_cats a) (unm_cats b);
           mat_cats := od_sum (mat_cats a) (mat_cats b) |}.
Proof.
  intros ((v & Ha & Hb) & Hm & Hmk & Hu & Huk). unfold Summary_add.
  rewrite Ha, Hb. cbn [mbind py_bind].
  rewrite bool_decide_eq_true_2 by reflexivity. cbn [py_assert mbind py_bind].
  rewrite (od_merge _ _ Hm Hmk). cbn [mbind py_bind].
  rewrite (od_merge _ _ Hu Huk). reflexivity.
Qed.

(** X10: [add] on two summaries of one variant type with the same
    categories returns the receiver with every count replaced by the
    sum of the two counts; header and category names are kept. *)
Theorem Summary_add_sums (a b : Summary) :
  mergeable a b ->
  exists S : Summary,
    Summary_add a b = Ret S
    /\ info S = info a
    /\ (mat_cats S).*1 = (mat_cats a).*1
    /\ (unm_cats S).*1 = (unm_cats a).*1
    /\ (forall k x y, od_get (mat_cats a) k = Ret x ->
                      od_get (mat_cats b) k = Ret y ->
                      od_get (mat_cats S) k = Ret (x + y))
    /\ (forall k x y, od_get (unm_cats a) k = Ret x ->
                      od_get (unm_cats b) k = Ret y ->
                      od_get (unm_cats S) k = Ret (x + y)).
Proof.
  intros Hab. pose proof Hab as (_ & Hm & Hmk & Hu & Huk).
  eexists. split; [apply Summary_add_eq, Hab|]. cbn [info mat_cats unm_cats].
  split; [reflexivity|]. split; [apply od_sum_keys, Hmk|].
  split; [apply od_sum_keys, Huk|]. split.
  - intros k x y. apply od_sum_get; assumption.
  - intros k x y. apply od_sum_get; assumption.
Qed.

(** X11: merging is commutative on summaries with the same header, and
    associative. *)
Theorem Summary_add_comm_assoc (a b c : Summary) :
  mergeable a b -> mergeable a c -> info a = info b ->
  Summary_add a b = Summary_add b a
  /\ (ab ← Summary_add a b; Summary_add ab c)
     = (bc ← Summary_add b c; Summary_add a bc).
Proof.
  intros Hab Hac Hinfo.
  pose proof Hab as ((v & Ha & Hb) & Hm & Hmk & Hu & Huk).
  pose proof Hac as ((v' & Ha' & Hc) & _ & Hmk' & _ & Huk').
  rewrite Ha in Ha'. injection Ha' as <-.
  assert (Hba : mergeable b a).
  { split; [eauto|]. rewrite Hmk, Huk. auto. }
  assert (Hbc : mergeable b c).
  { split; [eauto|]. rewrite Hmk, Huk. repeat split; congruence. }
  split.
  - rewrite (Summary_add_eq a b Hab), (Summary_add_eq b a Hba), Hinfo.
    rewrite (od_sum_comm _ _ Hmk), (od_sum_comm _ _ Huk). reflexivity.
  - rewrite (Summary_add_eq a b Hab), (Summary_add_eq b c Hbc).
    cbn [mbind py_bind]. rewrite !Summary_add_eq.
    + cbn [info mat_cats unm_cats].
      rewrite (od_sum_assoc _ _ _ Hmk Hmk'), (od_sum_assoc _ _ _ Huk Huk').
      reflexivity.
    + split; [cbn [info]; eauto|]. cbn [mat_cats unm_cats].
      rewrite !od_sum_keys by congruence. repeat split; congruence.
    + split; [cbn [info]; eauto|]. cbn [mat_cats unm_cats].
      rewrite !od_sum_keys by assumption. repeat split; assumption.
Qed.

End Merge.

(** X12: the pair predicates of [Variant] in terms of the per-side
    ones the summary uses: [has_] is the disjunction and [both_] the
    conjunction of the two sides, a side that is missing being neither
    PASS nor somatic nor germline; every pair has a somatic or a
    germline side, and no pair is both somatic and germline on both
    sides. *)
Theorem pair_predicates (y : Variant) :
  has_pass y = recA_pass y || recB_pass y
  /\ both_pass y = recA_pass y && recB_pass y
  /\ has_somatic y = recA_somatic y || recB_somatic y
  /\ both_somatic y = recA_somatic y && recB_somatic y
  /\ has_germline y
     = negb (recA_somatic y) || (matched y && negb (recB_somatic y))
  /\ both_germline y
     = matched y && negb (recA_somatic y) && negb (recB_somatic y)
  /\ has_somatic y || has_germline y = true
  /\ both_somatic y && both_germline y = false.
Proof.
  unfold has_pass, both_pass, has_germline, both_germline, both_somatic,
    has_somatic, recA_pass, recB_pass.
  pose proof (recB_somatic_rule y) as HB. unfold matched in *.
  destruct (recB y) as [rB|]; cbn [negb].
  - destruct (filter_empty (recA y)), (filter_empty rB),
      (recA_somatic y), (recB_somatic y); repeat split; reflexivity.
  - rewrite HB. destruct (filter_empty (recA y)), (recA_somatic y);
      repeat split; reflexivity.
Qed.

Section Longest.

Lemma insert_seg_ascending (x : Segment) (l : list Segment) :
  ascending l -> ascending (insert_seg x l).
Proof.
  induction l as [|y l IH]; intros Hl.
  - split; [constructor|exact I].
  - cbn [insert_seg]. destruct Hl as [Hy Hl].
    destruct (Z.leb_spec (length x) (length y)) as [Hle|Hgt].
    + split; [|split; assumption]. constructor; [exact Hle|].
      eapply Forall_impl; [exact Hy|]. intros z Hz. cbn beta in *. lia.
    + split; [|apply IH, Hl]. rewrite insert_seg_perm.
      constructor; [lia|exact Hy].
Qed.

Lemma sort_segs_ascending (l : list Segment) : ascending (sort_segs l).
Proof.
  induction l as [|x l IH]; [exact I|]. apply insert_seg_ascending, IH.
Qed.

Lemma ascending_last (l : list Segment) (x : Segment) :
  ascending (l ++ [x]) -> Forall (fun y => length y <= length x) (l ++ [x]).
Proof.
  induction l as [|y l IH]; intros Hl.
  - constructor; [lia|constructor].
  - destruct Hl as [Hy Hl]. constructor; [|apply IH, Hl].
    apply Forall_app in Hy as [_ Hx]. apply List.Forall_inv in Hx. exact Hx.
Qed.

(** X17: a turn of the loop of [split_genome] pops a longest segment
    of the sorted list; what the turn leaves is the list with that
    segment replaced by its two halves, sorted again. *)
Theorem pop_takes_longest (segs rest : list Segment) (bigseg : Segment) :
  pop (sort_segs segs) = Ret (rest, bigseg) ->
  Forall (fun seg => length seg <= length bigseg) segs
  /\ bigseg :: rest ≡ₚ segs
  /\ bisect_longest 1 (sort_segs segs)
     = Ret (sort_segs (rest ++ [left bigseg; right bigseg]))
  /\ ascending (sort_segs (rest ++ [left bigseg; right bigseg])).
Proof.
  intros Hpop. pose proof (pop_snoc _ _ _ Hpop) as Heq.
  pose proof (sort_segs_ascending segs) as Hasc. rewrite Heq in Hasc.
  apply ascending_last in Hasc. rewrite <- Heq in Hasc.
  split; [|split; [|split]].
  - rewrite <- (sort_segs_perm segs). exact Hasc.
  - rewrite <- (sort_segs_perm segs), Heq.
    rewrite Permutation_app_comm. reflexivity.
  - cbn [bisect_longest]. rewrite Hpop. reflexivity.
  - apply sort_segs_ascending.
Qed.

End Longest.

Section Segments.

Lemma segment_adds (cAB cBA : Comparison) (vtype : string) (S : Summary) :
  is_Some (vartype cAB !! vtype) -> is_Some (vartype cBA !! vtype) ->
  all_cats S ->
  exists S', summary_segment vtype S (cAB, cBA) = Ret S'
    /\ info S' = info S
    /\ (forall v c, od_get (mat_cats S) (mhname v) = Ret c ->
          od_get (mat_cats S') (mhname v)
          = Ret (c + matched_count (bucket cAB vtype) v))
    /\ (forall v c, od_get (unm_cats S) ("A_" +:+ uhname v) = Ret c ->
          od_get (unm_cats S') ("A_" +:+ uhname v)
          = Ret (c + unmatched_count (bucket cAB vtype) v))
    /\ (forall v c, od_get (unm_cats S) ("B_" +:+ uhname v) = Ret c ->
          od_get (unm_cats S') ("B_" +:+ uhname v)
          = Ret (c + unmatched_count (bucket cBA vtype) v)).
Proof.
  intros [lAB HAB] [lBA HBA] [Hm Hu]. unfold bucket. rewrite HAB, HBA.
  cbn [default]. unfold summary_segment.
  change (zip (snd (fst get_sumheader_names)) (snd (fst get_sumheader_bools)))
    with (List.map (fun v => (uhname v, uhbools v)) product3).
  change (zip (snd get_sumheader_names) (snd get_sumheader_bools))
    with (List.map (fun v => (mhname v, mhbools v)) product5).
  rewrite (unmatched_loop cAB cBA vtype lAB lBA HAB HBA).
  destruct (od_adds_spec
              (flat_map (fun v =>
                           [("A_" +:+ uhname v, unmatched_count lAB v);
                            ("B_" +:+ uhname v, unmatched_count lBA v)])
                        product3)
              (unm_cats S)) as (u & Hrun & Hin & _).
  { exact unm_keys_NoDup. }
  { intros k Hk. apply list_elem_of_fmap in Hk as ([k' n] & -> & Hk).
    apply list_elem_of_In, in_flat_map in Hk as (v & _ & Hk).
    destruct (Hu v) as (cA & cB & HA & HB).
    destruct Hk as [[= <- _]|[[= <- _]|[]]]; eauto. }
  rewrite Hrun. cbn [mbind py_bind].
  rewrite (matched_loop cAB vtype lAB HAB). cbn [mat_cats].
  destruct (od_adds_spec
              (List.map (fun v => (mhname v, matched_count lAB v)) product5)
              (mat_cats S)) as (m & Hrunm & Hinm & _).
  { exact mhnames_NoDup. }
  { intros k Hk. apply list_elem_of_fmap in Hk as ([k' n] & -> & Hk).
    apply list_elem_of_fmap in Hk as (v & [= -> _] & _). apply Hm. }
  rewrite Hrunm. cbn [mbind py_bind].
  eexists. split; [reflexivity|]. split; [reflexivity|].
  cbn [mat_cats unm_cats]. split; [|split].
  - intros v c Hc. apply (Hinm _ (matched_count lAB v) c); [|exact Hc].
    apply (list_elem_of_fmap_2 (fun v => (mhname v, matched_count lAB v))).
    apply product5_all.
  - intros v c Hc. apply (Hin _ (unmatched_count lAB v) c); [|exact Hc].
    apply list_elem_of_In, in_flat_map. exists v. split.
    + apply product3_all.
    + left. reflexivity.
  - intros v c Hc. apply (Hin _ (unmatched_count lBA v) c); [|exact Hc].
    apply list_elem_of_In, in_flat_map. exists v. split.
    + apply product3_all.
    + right. left. reflexivity.
Qed.

Lemma segments_sum (vtype : string) (ccs : list (Comparison * Comparison))
    (S : Summary) :
  Forall (fun cc => is_Some (vartype (fst cc) !! vtype)
                    /\ is_Some (vartype (snd cc) !! vtype)) ccs ->
  all_cats S ->
  exists S', for_each (summary_segment vtype) S ccs = Ret S'
    /\ info S' = info S
    /\ (forall v c, od_get (mat_cats S) (mhname v) = Ret c ->
          od_get (mat_cats S') (mhname v)
          = Ret (c + Zsum (List.map
                             (fun cc => matched_count (bucket (fst cc) vtype) v)
                             ccs)))
    /\ (forall v c, od_get (unm_cats S) ("A_" +:+ uhname v) = Ret c ->
          od_get (unm_cats S') ("A_" +:+ uhname v)
          = Ret (c + Zsum (List.map
                             (fun cc => unmatched_count (bucket (fst cc) vtype) v)
                             ccs)))
    /\ (forall v c, od_get (unm_cats S) ("B_" +:+ uhname v) = Ret c ->
          od_get (unm_cats S') ("B_" +:+ uhname v)
          = Ret (c + Zsum (List.map
                             (fun cc => unmatched_count (bucket (snd cc) vtype) v)
                             ccs))).
Proof.
  intros Hall. revert S. induction Hall as [|[cAB cBA] ccs [HAB HBA] _ IH];
    intros S HS.
  - exists S. split; [reflexivity|]. split; [reflexivity|].
    cbn [List.map Zsum fold_right].
    repeat split; intros v c Hc; rewrite Z.add_0_r; exact Hc.
  - destruct (segment_adds cAB cBA vtype S HAB HBA HS)
      as (S1 & Hrun1 & Hinfo1 & Hm1 & HA1 & HB1).
    assert (HS1 : all_cats S1).
    { destruct HS as [Hm Hu]. split.
      - intros v. destruct (Hm v) as [c Hc]. rewrite (Hm1 v c Hc). eauto.
      - intros v. destruct (Hu v) as (cA & cB & HcA & HcB).
        rewrite (HA1 v cA HcA), (HB1 v cB HcB). eauto. }
    destruct (IH S1 HS1) as (S' & Hrun & Hinfo & Hm & HA & HB).
    exists S'. rewrite for_each_cons, Hrun1. cbn [mbind py_bind].
    split; [exact Hrun|]. split; [congruence|].
    cbn [List.map Zsum fold_right fst snd]. split; [|split].
    + intros v c Hc. rewrite (Hm v _ (Hm1 v c Hc)). f_equal.
      unfold Zsum. lia.
    + intros v c Hc. rewrite (HA v _ (HA1 v c Hc)). f_equal.
      unfold Zsum. lia.
    + intros v c Hc. rewrite (HB v _ (HB1 v c Hc)). f_equal.
      unfold Zsum. lia.
Qed.

Lemma all_cats_init (i : list (string * option string)) :
  all_cats {| info := i; unm_cats := unm_cats Summary_init;
              mat_cats := mat_cats Summary_init |}.
Proof.
  split; cbn [mat_cats unm_cats].
  - intros v. exists 0. apply mat_cats_init.
  - intros v. exists 0, 0. apply unm_cats_init.
Qed.

Lemma summary_vtype_sums (cAB0 cBA0 : Comparison) (ABs BAs : list Comparison)
    (s : gmap string Summary) (vt : string) :
  Forall (fun cc => is_Some (vartype (fst cc) !! vt)
                    /\ is_Some (vartype (snd cc) !! vt))
         (zip (cAB0 :: ABs) (cBA0 :: BAs)) ->
  exists S, summary_vtype (cAB0 :: ABs) (cBA0 :: BAs) s vt = Ret (<[vt := S]> s)
            /\ sums_of (zip (cAB0 :: ABs) (cBA0 :: BAs)) vt S.
Proof.
  intros Hall. unfold summary_vtype. cbn [first mbind py_bind].
  pose proof (Forall_inv Hall) as [_ HBA0]. cbn [snd] in HBA0.
  rewrite (bool_decide_eq_true_2 _ HBA0). cbn [py_assert mbind py_bind].
  destruct (segments_sum vt _ _ Hall
              (all_cats_init (od_set (info Summary_init) "vartype" (Some vt))))
    as (S & Hrun & Hinfo & Hm & HA & HB).
  exists S. rewrite Hrun. split; [reflexivity|]. split; [|split].
  - rewrite Hinfo. vm_compute. reflexivity.
  - intros v. rewrite (Hm v 0); [reflexivity|]. apply mat_cats_init.
  - intros v. destruct (unm_cats_init v) as [H0A H0B]. split.
    + rewrite (HA v 0 H0A). reflexivity.
    + rewrite (HB v 0 H0B). reflexivity.
Qed.

Lemma summary_keys_sums (cAB0 cBA0 : Comparison) (ABs BAs : list Comparison)
    (keys : list string) (s0 : gmap string Summary) :
  (forall vt, vt ∈ keys ->
     Forall (fun cc => is_Some (vartype (fst cc) !! vt)
                       /\ is_Some (vartype (snd cc) !! vt))
            (zip (cAB0 :: ABs) (cBA0 :: BAs))) ->
  exists s,
    for_each (summary_vtype (cAB0 :: ABs) (cBA0 :: BAs)) s0 keys = Ret s
    /\ forall vt,
         (vt ∈ keys -> exists S, s !! vt = Some S
                       /\ sums_of (zip (cAB0 :: ABs) (cBA0 :: BAs)) vt S)
         /\ (vt ∉ keys -> s !! vt = s0 !! vt).
Proof.
  revert s0. induction keys as [|k keys IH]; intros s0 Hall.
  - exists s0. split; [reflexivity|]. intros vt. split; [|reflexivity].
    intros Hin. inversion Hin.
  - destruct (summary_vtype_sums cAB0 cBA0 ABs BAs s0 k) as (Sk & Hk & HSk).
    { apply Hall. left. }
    destruct (IH (<[k := Sk]> s0)) as (s & Hrun & Hs).
    { intros vt Hvt. apply Hall. right. exact Hvt. }
    exists s. rewrite for_each_cons, Hk. cbn [mbind py_bind].
    split; [exact Hrun|]. intros vt. split.
    + intros Hin. destruct (decide (vt ∈ keys)) as [Hin'|Hout].
      * apply Hs, Hin'.
      * apply elem_of_cons in Hin as [->|Hin]; [|contradiction].
        exists Sk. split; [|exact HSk].
        rewrite (proj2 (Hs k) Hout). apply lookup_insert_eq.
    + intros Hout. rewrite (proj2 (Hs vt)).
      * apply lookup_insert_ne. intros ->. apply Hout. left.
      * intros Hin. apply Hout. right. exact Hin.
Qed.

(** X9: [summary] over the comparisons of several segments returns
    without a warning when every zipped comparison has the buckets of
    the first A-->B one; it holds one summary for each of these
    buckets, and the count under a category name is the sum over the
    segments of the category's count in the segment's bucket. *)
Theorem summary_sums_segments (cAB0 cBA0 : Comparison)
    (ABs BAs : list Comparison) :
  (forall vt, is_Some (vartype cAB0 !! vt) ->
     Forall (fun cc => is_Some (vartype (fst cc) !! vt)
                       /\ is_Some (vartype (snd cc) !! vt))
            (zip (cAB0 :: ABs) (cBA0 :: BAs))) ->
  exists s,
    summary (cAB0 :: ABs) (cBA0 :: BAs) = Ret (s, [])
    /\ forall vt,
         match s !! vt with
         | Some Sv => is_Some (vartype cAB0 !! vt)
                      /\ sums_of (zip (cAB0 :: ABs) (cBA0 :: BAs)) vt Sv
         | None => vartype cAB0 !! vt = None
         end.
Proof.
  intros Hall.
  assert (Hkeys : forall vt, vt ∈ (map_to_list (vartype cAB0)).*1
                             <-> is_Some (vartype cAB0 !! vt)).
  { intros vt. split.
    - intros Hin. apply list_elem_of_fmap in Hin as ([k l] & -> & Hin).
      apply elem_of_map_to_list in Hin. eauto.
    - intros [l Hl]. apply list_elem_of_fmap. exists (vt, l). split; [reflexivity|].
      apply elem_of_map_to_list. exact Hl. }
  destruct (summary_keys_sums cAB0 cBA0 ABs BAs
              (map_to_list (vartype cAB0)).*1 ∅) as (s & Hrun & Hs).
  { intros vt Hvt. apply Hall, Hkeys, Hvt. }
  exists s. split.
  - assert (Hsum : exists err, summary (cAB0 :: ABs) (cBA0 :: BAs) = Ret (s, err)).
    { unfold summary. cbn [first mbind py_bind]. rewrite Hrun.
      cbn [mbind py_bind]. eauto. }
    destruct Hsum as [err Hsum].
    rewrite Hsum, (summary_never_warns _ _ _ _ Hsum). reflexivity.
  - intros vt. destruct (decide (vt ∈ (map_to_list (vartype cAB0)).*1))
      as [Hin|Hout].
    + destruct (proj1 (Hs vt) Hin) as (Sv & -> & HS). split; [|exact HS].
      apply Hkeys, Hin.
    + rewrite (proj2 (Hs vt) Hout), lookup_empty.
      destruct (vartype cAB0 !! vt) eqn:E; [|reflexivity].
      exfalso. apply Hout, Hkeys. eauto.
Qed.

End Segments.

Lemma interval_score_range_witness :
  interval_score bnd_pair = Ret (20 # 32)
  /\ (0 < 20 # 32)%Q /\ (20 # 32 <= 1)%Q
  /\ interval_score (swap_pair bnd_pair bnd_pos3) = Ret (42 # 42)
  /\ (42 # 42 == 1)%Q.
Proof.
  split; [vm_compute; reflexivity|].
  destruct (interval_score_range bnd_pair bnd_pos2 (-7, 14) (-8, 3) (20 # 32))
    as (Hpos & Hle & _).
  - vm_compute. reflexivity.
  - reflexivity.
  - vm_compute. reflexivity.
  - vm_compute. reflexivity.
  - split; [exact Hpos|]. split; [exact Hle|].
    split; [vm_compute; reflexivity|].
    destruct (interval_score_range (swap_pair bnd_pair bnd_pos3) bnd_pos3
                (-7, 14) (-7, 14) (42 # 42)) as (_ & _ & Hone).
    + vm_compute. reflexivity.
    + reflexivity.
    + vm_compute. reflexivity.
    + vm_compute. reflexivity.
    + apply Hone. reflexivity.
Defined.

Lemma interval_score_sym_witness :
  interval_score (swap_pair bnd_pair bnd_pos2) = Ret (20 # 32).
Proof.
  apply (interval_score_sym bnd_pair bnd_pos2).
  - vm_compute. reflexivity.
  - reflexivity.
Defined.

Lemma vcfVariantMatch_sym_witness :
  vcfVariantMatch snv_b snv_a1 = Ret true.
Proof.
  apply (vcfVariantMatch_sym snv_a1 snv_b). vm_compute. reflexivity.
Defined.

Lemma snv_match_iff_witness :
  vcfVariantMatch snv_a1 snv_b = Ret true
  /\ vcfVariantMatch snv_a1 indel_b = Ret false.
Proof.
  split.
  - rewrite (snv_match_iff snv_a1 snv_b); [|reflexivity|reflexivity].
    vm_compute. reflexivity.
  - rewrite (snv_match_iff snv_a1 indel_b); [|reflexivity|reflexivity].
    vm_compute. reflexivity.
Defined.

Lemma buckets_list_source_witness :
  exists snvs indels : list Variant,
    compareVCFs collection_A collection_B 0 1000 None None None 0 1000000000
    = Ret {| vartype := <["INDEL" := indels]> (<["SNV" := snvs]> ∅) |}
    /\ List.map recA snvs = [snv_a1; snv_a2]
    /\ List.map recA indels = [].
Proof.
  destruct (buckets_list_source collection_A collection_B 0 1000 None None
              None 0 1000000000 [snv_a1; snv_a2]
              {| vartype :=
                   <["INDEL" := []]>
                     (<["SNV" :=
                          [ {| recA := snv_a1; recB := Some snv_b;
                               recT := None; altmatch := [] |};
                            {| recA := snv_a2; recB := Some snv_b;
                               recT := None; altmatch := [] |} ]]> ∅) |})
    as (snvs & indels & Hv & HS & HI).
  - vm_compute. reflexivity.
  - vm_compute. reflexivity.
  - exists snvs, indels. cbn [vartype] in Hv. rewrite <- Hv.
    split; [vm_compute; reflexivity|].
    split; [rewrite HS|rewrite HI]; vm_compute; reflexivity.
Defined.

Lemma bindings_sound_witness :
  vcfVariantMatch snv_a1 snv_b = Ret true
  /\ vcfVariantMatch snv_a1 snv_t2 = Ret true.
Proof.
  destruct (bindings_sound (reader_of_list [snv_a1]) collection_B 0 1000 None
              (Some collection_T) None 0 1000000000 truth_cmp "SNV"
              [truth_pair] truth_pair) as (HB & _ & HT).
  - vm_compute. reflexivity.
  - vm_compute. reflexivity.
  - left.
  - split; [apply (HB snv_b eq_refl)|apply (HT snv_t2 eq_refl)].
Defined.

Lemma run_returns_unless_breakend_witness :
  compareVCFs (reader_of_list [snv_a1; bnd_cipos]) collection_B 0 1000 None
              None None 0 1000000000 = Raise KeyError
  /\ exists cmp : Comparison,
       compareVCFs collection_A collection_B 0 1000 None None None 0
                   1000000000 = Ret cmp.
Proof.
  split.
  - apply (run_returns_unless_breakend (reader_of_list [snv_a1; bnd_cipos])
             collection_B 0 1000 None None None 0 1000000000
             [snv_a1; bnd_cipos]).
    + vm_compute. reflexivity.
    + intros r _. exists false. reflexivity.
  - apply (run_returns_unless_breakend collection_A collection_B 0 1000 None
             None None 0 1000000000 [snv_a1; snv_a2]).
    + vm_compute. reflexivity.
    + intros r _. exists false. reflexivity.
Defined.

Lemma categories_partition_witness :
  Zsum_py (kind_counts truth_cmp "SNV" false) = Ret 1
  /\ Zsum_py (kind_counts truth_cmp "SNV" true) = Ret 1.
Proof.
  apply (categories_partition truth_cmp "SNV" [truth_pair]).
  vm_compute. reflexivity.
Defined.

Lemma summary_sums_segments_witness :
  exists (s : gmap string Summary) (Sv : Summary),
    summary [truth_cmp; truth_cmp] [truth_cmp_BA; truth_cmp_BA] = Ret (s, [])
    /\ s !! "SNV" = Some Sv
    /\ od_get (mat_cats Sv) (mhname (false, true, false, false, false))
       = Ret 2.
Proof.
  destruct (summary_sums_segments truth_cmp truth_cmp_BA [truth_cmp]
              [truth_cmp_BA]) as (s & Hs & Hv).
  - intros vt Hvt.
    assert (HBA : is_Some (vartype truth_cmp_BA !! vt)).
    { revert Hvt. cbn [truth_cmp truth_cmp_BA vartype].
      rewrite !lookup_insert. repeat case_decide; eauto. }
    repeat constructor; assumption.
  - specialize (Hv "SNV"). destruct (s !! "SNV") as [Sv|] eqn:HS.
    + exists s, Sv. split; [exact Hs|]. split; [exact HS|].
      destruct Hv as (_ & _ & Hm & _).
      rewrite (Hm (false, true, false, false, false)).
      vm_compute. reflexivity.
    + vm_compute in Hv. discriminate.
Defined.

Lemma Summary_add_sums_witness :
  exists S : Summary,
    Summary_add snv_summary_one snv_summary_one = Ret S
    /\ od_get (mat_cats S) (mhname (false, true, false, false, false))
       = Ret 2.
Proof.
  destruct (Summary_add_sums snv_summary_one snv_summary_one)
    as (S & Hrun & _ & _ & _ & Hm & _).
  - split; [exists (Some "SNV"); split; vm_compute; reflexivity|].
    split; [apply (bool_decide_unpack _); vm_compute; reflexivity|].
    split; [vm_compute; reflexivity|].
    split; [apply (bool_decide_unpack _); vm_compute; reflexivity|].
    vm_compute. reflexivity.
  - exists S. split; [exact Hrun|].
    apply (Hm _ 1 1); vm_compute; reflexivity.
Defined.

Lemma Summary_add_comm_assoc_witness :
  Summary_add snv_summary_one snv_summary
  = Summary_add snv_summary snv_summary_one.
Proof.
  refine (proj1 (Summary_add_comm_assoc snv_summary_one snv_summary
                   snv_summary_one _ _ _)).
  - split; [exists (Some "SNV"); split; vm_compute; reflexivity|].
    split; [apply (bool_decide_unpack _); vm_compute; reflexivity|].
    split; [vm_compute; reflexivity|].
    split; [apply (bool_decide_unpack _); vm_compute; reflexivity|].
    vm_compute. reflexivity.
  - split; [exists (Some "SNV"); split; vm_compute; reflexivity|].
    split; [apply (bool_decide_unpack _); vm_compute; reflexivity|].
    split; [vm_compute; reflexivity|].
    split; [apply (bool_decide_unpack _); vm_compute; reflexivity|].
    vm_compute. reflexivity.
  - vm_compute. reflexivity.
Defined.

Lemma split_genome_errors_witness :
  split_genome odd_table 0 1000000 = Raise AssertionError
  /\ split_genome odd_table 2 5000000 = Raise IndexError.
Proof.
  split.
  - apply (proj1 (split_genome_errors odd_table 0 1000000)). lia.
  - apply (proj2 (split_genome_errors odd_table 2 5000000)).
    + lia.
    + vm_compute. reflexivity.
Defined.

Lemma split_genome_shape_witness :
  exists jobs : list (list Segment),
    split_genome odd_table 2 1000000 = Ret jobs
    /\ List.length jobs = 2%nat
    /\ List.length (concat jobs) = 2%nat.
Proof.
  destruct (split_genome_shape odd_table 2 1000000)
    as (jobs & Hrun & Hlen & _ & Hall).
  - lia.
  - vm_compute. discriminate.
  - exists jobs. split; [exact Hrun|]. split; [exact Hlen|exact Hall].
Defined.

Lemma split_genome_disjoint_witness :
  exists jobs : list (list Segment),
    split_genome odd_table 2 1000000 = Ret jobs
    /\ (cover "chr1" 1000000 (concat jobs) <= 1)%nat.
Proof.
  eexists. split; [vm_compute; reflexivity|].
  refine (proj2 (split_genome_disjoint odd_table 2 1000000 _ _ _) _
                "chr1" 1000000).
  - lia.
  - vm_compute. reflexivity.
  - apply (bool_decide_unpack _). vm_compute. reflexivity.
Defined.

Lemma split_genome_loss_witness :
  exists jobs : list (list Segment),
    split_genome odd_table 2 1000000 = Ret jobs
    /\ 2000000 <= total_length (concat jobs) <= 2000001.
Proof.
  eexists. split; [vm_compute; reflexivity|].
  refine (split_genome_loss odd_table 2 1000000 _ _ _).
  - lia.
  - vm_compute. reflexivity.
Defined.

Lemma pop_takes_longest_witness :
  Forall (fun seg => length seg <= 50)
         (List.map Segment_of_line three_table).
Proof.
  refine (proj1 (pop_takes_longest
                   (List.map Segment_of_line three_table)
                   [Segment_of_line ("chr1", 30); Segment_of_line ("chr3", 40)]
                   (Segment_of_line ("chr2", 50)) _)).
  vm_compute. reflexivity.
Defined.
